(** * claude-session-manager-mcp: transcript summarising, rewriting and cleanup

    A shallow embedding of [src/claude_session_manager_mcp/server.py].

    Conventions of the embedding.
    - Python [str] values are [string]s; a character stands for its code
      point, and the embedding is exact for code points below 256.
    - A transcript file is a sequence of bytes, the UTF-8 encoding of its
      characters ([f_chars], [on_disk]); its size is the number of those
      bytes.  The stream opened in text mode presents the characters with
      every carriage return and line feed, and every carriage return alone,
      turned into one line feed ([f_data]); [for line in f] cuts that text
      after every line feed and keeps the terminator.  What is written is
      encoded in UTF-8 with a line feed written as a line feed, as on
      POSIX.
    - A read may fail, at [open] or after some lines ([f_fault]), and so may
      a write ([write_outcome]); [rename_session] is the program on a disk
      that takes the write, [rename_session_on] the program for each way the
      write can end.
    - JSON numbers are integers ([int]); floating point literals are outside
      the embedding.
    - [json.loads] and [json.dumps] belong to the Python library, not to this
      repository; the program is embedded over an arbitrary [Codec] and every
      general theorem holds for every codec.  [py_json] is a reference codec
      for the integer fragment, used to run the program on concrete
      transcripts.
    - A Python exception is a [Raise] in the [result] monad; [try]/[except]
      clauses are embedded where the source has them. *)

From Stdlib Require Import String Ascii ZArith List Bool Lia.
From Stdlib Require Import Sorted Permutation.
From stdpp Require Import gmap strings list fin_maps.

Local Open Scope string_scope.
Local Open Scope Z_scope.
Local Open Scope list_scope.
Set Warnings "-register-all".
#[local] Arguments String.append !_ _ / : simpl nomatch.

(* ===================================================================== *)
(** * Python strings *)
(* ===================================================================== *)

Module PyStr.

Definition LF : ascii := "010"%char.
Definition nl : string := String LF EmptyString.
Definition nlnl : string := String LF (String LF EmptyString).

(** [str.isspace] on the code points below 256. *)
Definition isspace (c : ascii) : bool :=
  let n := nat_of_ascii c in
  ((9 <=? n) && (n <=? 13) || (28 <=? n) && (n <=? 32)
   || (n =? 133) || (n =? 160))%nat.

Fixpoint lstrip (s : string) : string :=
  match s with
  | EmptyString => EmptyString
  | String c s' => if isspace c then lstrip s' else s
  end.

Fixpoint rstrip (s : string) : string :=
  match s with
  | EmptyString => EmptyString
  | String c s' =>
      match rstrip s' with
      | EmptyString => if isspace c then EmptyString else String c EmptyString
      | r => String c r
      end
  end.

(** [s.strip()] *)
Definition strip (s : string) : string := rstrip (lstrip s).

(** [s.startswith(p)] *)
Definition startswith (p s : string) : bool := String.prefix p s.

(** [s[n:]] *)
Fixpoint slice_from (n : nat) (s : string) : string :=
  match n, s with
  | O, _ => s
  | S _, EmptyString => EmptyString
  | S k, String _ s' => slice_from k s'
  end.

(** [s[:n]] *)
Fixpoint slice_to (n : nat) (s : string) : string :=
  match n, s with
  | O, _ => EmptyString
  | S _, EmptyString => EmptyString
  | S k, String c s' => String c (slice_to k s')
  end.

(** [sub in s] *)
Fixpoint contains (sub s : string) : bool :=
  String.prefix sub s ||
  match s with
  | EmptyString => false
  | String _ s' => contains sub s'
  end.

(** [s.split(sep)[0]] for a non-empty [sep]: the text before the first
    occurrence of [sep], the whole text when there is none. *)
Fixpoint split_head (sep s : string) : string :=
  match s with
  | EmptyString => EmptyString
  | String c s' => if String.prefix sep s then EmptyString
                   else String c (split_head sep s')
  end.

(** The lines a text-mode stream yields: each ends with its line feed,
    except possibly the last one. *)
Fixpoint readlines (s : string) : list string :=
  match s with
  | EmptyString => []
  | String c s' =>
      if Ascii.eqb c LF then String c EmptyString :: readlines s'
      else match readlines s' with
           | [] => [String c EmptyString]
           | l :: ls => String c l :: ls
           end
  end.

(** [f.writelines(lines)] writes the concatenation. *)
Definition writelines (ls : list string) : string :=
  fold_right String.append EmptyString ls.

(** ** The title prefix pattern [^[^\n]+\n\n] *)

(** The text left after the longest run of characters other than a line
    feed. *)
Fixpoint skip_line (s : string) : string :=
  match s with
  | EmptyString => EmptyString
  | String c s' => if Ascii.eqb c LF then s else skip_line s'
  end.

(** [re.sub(r'^[^\n]+\n\n', '', s)]: the anchor admits one match, at the
    start; the run of non-line-feed characters must be non-empty and be
    followed at once by two line feeds. *)
Definition strip_title_prefix (s : string) : string :=
  match s with
  | EmptyString => EmptyString
  | String c _ =>
      if Ascii.eqb c LF then s
      else let r := skip_line s in
           if String.prefix nlnl r then slice_from 2 r else s
  end.

(** ** The IDE tag pattern [<ide_[^>]*>.*?</ide_[^>]*>] with DOTALL *)

(** [[^>]*>]: the text after the first [>]. *)
Fixpoint after_gt (s : string) : option string :=
  match s with
  | EmptyString => None
  | String c s' => if Ascii.eqb c ">"%char then Some s' else after_gt s'
  end.

(** [.*?</ide_[^>]*>]: the lazy star tries the closing tag at every
    position in turn. *)
Fixpoint match_close (s : string) : option string :=
  match s with
  | EmptyString => None
  | String _ s' =>
      if String.prefix "</ide_" s then
        match after_gt (slice_from 6 s) with
        | Some r => Some r
        | None => match_close s'
        end
      else match_close s'
  end.

(** A match of the whole pattern at the start of [s]: the text after it. *)
Definition match_ide (s : string) : option string :=
  if String.prefix "<ide_" s then
    match after_gt (slice_from 5 s) with
    | Some r => match_close r
    | None => None
    end
  else None.

(** [re.sub(pattern, '', s, flags=re.DOTALL)]: matches are removed from
    left to right; [skip] counts the characters of the current match still
    to be dropped. *)
Fixpoint remove_ide_from (skip : nat) (s : string) : string :=
  match s with
  | EmptyString => EmptyString
  | String c s' =>
      match skip with
      | S k => remove_ide_from k s'
      | O =>
          match match_ide s with
          | Some rest =>
              remove_ide_from (String.length s' - String.length rest)%nat s'
          | None => String c (remove_ide_from 0 s')
          end
      end
  end.

Definition remove_ide (s : string) : string := remove_ide_from 0 s.

End PyStr.

Import PyStr.

(* ===================================================================== *)
(** * Python values and exceptions *)
(* ===================================================================== *)

(** What [json.loads] builds: [None], [bool], [int], [str], [list] and
    [dict].  A [dict] keeps its keys in insertion order, which is the order
    [json.dumps] writes them in. *)
Inductive json : Type :=
| JNull
| JBool (b : bool)
| JInt (z : Z)
| JStr (s : string)
| JArr (items : list json)
| JObj (members : list (string * json)).

Inductive exn : Type :=
| AttributeError
| TypeError
| KeyError
| IndexError
| JSONDecodeError
| FileNotFoundError
| FileExistsError
| IsADirectoryError
| NotADirectoryError
| OSError.

Inductive result (A : Type) : Type :=
| Return (a : A)
| Raise (e : exn).
Arguments Return {A} a.
Arguments Raise {A} e.

Definition bind {A B : Type} (c : result A) (k : A -> result B) : result B :=
  match c with
  | Return a => k a
  | Raise e => Raise e
  end.

Notation "'let*' x ':=' c 'in' k" := (bind c (fun x => k))
  (at level 10, x name, c at level 200, k at level 200).

Module Py.

(** [d[k]] lookup in insertion-ordered members. *)
Fixpoint dict_get (k : string) (kvs : list (string * json)) : option json :=
  match kvs with
  | [] => None
  | (k', v) :: rest => if String.eqb k' k then Some v else dict_get k rest
  end.

(** [d[k] = v]: an existing key keeps its place, a new key goes last. *)
Fixpoint dict_set (k : string) (v : json) (kvs : list (string * json))
  : list (string * json) :=
  match kvs with
  | [] => [(k, v)]
  | (k', v') :: rest =>
      if String.eqb k' k then (k', v) :: rest
      else (k', v') :: dict_set k v rest
  end.

(** [d.get(k, default)]; only a [dict] has the method. *)
Definition get (d : json) (k : string) (default : json) : result json :=
  match d with
  | JObj kvs =>
      Return (match dict_get k kvs with Some v => v | None => default end)
  | _ => Raise AttributeError
  end.

(** [d[k]] on a [dict]. *)
Definition getitem (d : json) (k : string) : result json :=
  match d with
  | JObj kvs =>
      match dict_get k kvs with Some v => Return v | None => Raise KeyError end
  | _ => Raise TypeError
  end.

(** [d[k] = v] on a [dict]. *)
Definition setitem (d : json) (k : string) (v : json) : result json :=
  match d with
  | JObj kvs => Return (JObj (dict_set k v kvs))
  | _ => Raise TypeError
  end.

(** [v == 'literal'] *)
Definition eq_str (v : json) (lit : string) : bool :=
  match v with
  | JStr s => String.eqb s lit
  | _ => false
  end.

(** Truth value of [v] in a condition. *)
Definition truthy (v : json) : bool :=
  match v with
  | JNull => false
  | JBool b => b
  | JInt z => negb (z =? 0)
  | JStr s => negb (String.eqb s EmptyString)
  | JArr l => match l with [] => false | _ => true end
  | JObj kvs => match kvs with [] => false | _ => true end
  end.

Fixpoint chars (s : string) : list json :=
  match s with
  | EmptyString => []
  | String c s' => JStr (String c EmptyString) :: chars s'
  end.

(** [for item in v]: a list yields its items, a string its characters, a
    dict its keys; nothing else is iterable. *)
Definition iter (v : json) : result (list json) :=
  match v with
  | JArr l => Return l
  | JStr s => Return (chars s)
  | JObj kvs => Return (map (fun kv => JStr (fst kv)) kvs)
  | _ => Raise TypeError
  end.

(** The receiver of a [str] method call such as [v.strip()]: only a
    [str] has the method. *)
Definition str_receiver (v : json) : result string :=
  match v with
  | JStr s => Return s
  | _ => Raise AttributeError
  end.

(** The subject of [re.sub]: a [str] is expected. *)
Definition re_subject (v : json) : result string :=
  match v with
  | JStr s => Return s
  | _ => Raise TypeError
  end.

(** [needle in v] for a string [needle]: substring of a [str], item of a
    [list], key of a [dict]. *)
Definition contains (needle : string) (v : json) : result bool :=
  match v with
  | JStr s => Return (PyStr.contains needle s)
  | JArr l => Return (existsb (fun x => eq_str x needle) l)
  | JObj kvs => Return (existsb (fun kv => String.eqb (fst kv) needle) kvs)
  | _ => Raise TypeError
  end.

(** [l.insert(pos, x)] for [0 <= pos]; only a [list] has the method. *)
Definition list_insert (v : json) (pos : Z) (x : json) : result json :=
  match v with
  | JArr l =>
      Return (JArr (firstn (Z.to_nat pos) l ++ x :: skipn (Z.to_nat pos) l))
  | _ => Raise AttributeError
  end.

(** [l[i][k] = x] for [0 <= i]: the item at [i] is updated in place. *)
Definition setitem_at (v : json) (i : Z) (k : string) (x : json)
  : result json :=
  match v with
  | JArr l =>
      match nth_error l (Z.to_nat i) with
      | Some item =>
          match item with
          | JObj kvs =>
              Return (JArr (firstn (Z.to_nat i) l
                            ++ JObj (dict_set k x kvs)
                            :: skipn (S (Z.to_nat i)) l))
          | _ => Raise TypeError
          end
      | None => Raise IndexError
      end
  | _ => Raise TypeError
  end.

(** [isinstance(item, dict) and item.get('type') == 'text'] *)
Definition is_text_item (item : json) : bool :=
  match item with
  | JObj kvs =>
      match dict_get "type" kvs with
      | Some t => eq_str t "text"
      | None => false
      end
  | _ => false
  end.

(** [bool] is a subclass of [int]. *)
Definition as_int (v : json) : option Z :=
  match v with
  | JInt z => Some z
  | JBool b => Some (if b then 1 else 0)
  | _ => None
  end.

(** [a == b] *)
Fixpoint eq (a b : json) {struct a} : bool :=
  match a, b with
  | JNull, JNull => true
  | JStr s, JStr t => String.eqb s t
  | JArr la, JArr lb =>
      (fix go (la lb : list json) {struct la} : bool :=
         match la, lb with
         | [], [] => true
         | x :: xs, y :: ys => eq x y && go xs ys
         | _, _ => false
         end) la lb
  | JObj ka, JObj kb =>
      (length ka =? length kb)%nat &&
      (fix go (ka : list (string * json)) {struct ka} : bool :=
         match ka with
         | [] => true
         | (k, x) :: rest =>
             match dict_get k kb with
             | Some y => eq x y && go rest
             | None => false
             end
         end) ka
  | (JInt _ | JBool _), (JInt _ | JBool _) =>
      match as_int a, as_int b with
      | Some x, Some y => x =? y
      | _, _ => false
      end
  | _, _ => false
  end.

(** [a < b]: numbers by value, strings by code point, lists
    lexicographically; any other pairing is a [TypeError]. *)
Fixpoint lt (a b : json) {struct a} : result bool :=
  match a, b with
  | JStr s, JStr t => Return (String.ltb s t)
  | JArr la, JArr lb =>
      (fix go (la lb : list json) {struct la} : result bool :=
         match la, lb with
         | [], [] => Return false
         | [], _ :: _ => Return true
         | _ :: _, [] => Return false
         | x :: xs, y :: ys => if eq x y then go xs ys else lt x y
         end) la lb
  | (JInt _ | JBool _), (JInt _ | JBool _) =>
      match as_int a, as_int b with
      | Some x, Some y => Return (x <? y)
      | _, _ => Raise TypeError
      end
  | _, _ => Raise TypeError
  end.

(** ** [sorted(l, key=..., reverse=...)]

    A stable sort that compares keys with [<] only, as Python's does; the
    first comparison that raises ends the sort. *)

Fixpoint insert_by {A : Type} (key : A -> json) (x : A) (run : list A)
  : result (list A) :=
  match run with
  | [] => Return [x]
  | y :: ys =>
      let* c := lt (key x) (key y) in
      if c : bool then Return (x :: y :: ys)
      else let* r := insert_by key x ys in Return (y :: r)
  end.

Fixpoint sort_into {A : Type} (key : A -> json) (run : list A) (l : list A)
  : result (list A) :=
  match l with
  | [] => Return run
  | x :: xs => let* run' := insert_by key x run in sort_into key run' xs
  end.

(** With [reverse=True] the list is reversed, sorted, and reversed again,
    which keeps equal keys in their original order. *)
Definition sorted {A : Type} (key : A -> json) (reverse : bool) (l : list A)
  : result (list A) :=
  if reverse then let* r := sort_into key [] (rev l) in Return (rev r)
  else sort_into key [] l.

End Py.

(** The JSON library the program calls. *)
Class Codec : Type := {
  (** [json.loads(s)]; [None] stands for [json.JSONDecodeError]. *)
  loads : string -> option json;
  (** [json.dumps(v, ensure_ascii=False)] *)
  dumps : json -> string
}.

(* ===================================================================== *)
(** * Files *)
(* ===================================================================== *)

(** A regular file: its characters, and whether reading it fails.  The
    characters are what UTF-8 decoding makes of the bytes on disk, line
    ends as they are on disk; the embedding covers the files whose
    characters have code points below 256.  With [f_fault = Some n] the
    stream raises after it has delivered [n] lines (or all of them, if
    there are fewer); [Some 0] is a failing [open]. *)
Record file : Type := {
  f_chars : string;
  f_fault : option nat
}.

Definition CR : ascii := "013"%char.

(** The bytes of one character in UTF-8: one byte below 128, two bytes
    from 128 to 255. *)
Definition utf8_char (c : ascii) : string :=
  let n := nat_of_ascii c in
  if (n <? 128)%nat then String c EmptyString
  else String (ascii_of_nat (192 + n / 64))
         (String (ascii_of_nat (128 + n mod 64)) EmptyString).

(** [text.encode('utf-8')], a string of bytes. *)
Fixpoint utf8_encode (s : string) : string :=
  match s with
  | EmptyString => EmptyString
  | String c rest => (utf8_char c ++ utf8_encode rest)%string
  end.

(** The bytes of the file on disk. *)
Definition on_disk (f : file) : string := utf8_encode (f_chars f).

(** [file_path.stat().st_size]: the number of bytes on disk. *)
Definition st_size (f : file) : Z := Z.of_nat (String.length (on_disk f)).

(** What a stream opened in text mode without [newline] makes of the line
    ends when it reads: a carriage return and a line feed, and a carriage
    return alone, become one line feed. *)
Fixpoint universal_newlines (s : string) : string :=
  match s with
  | EmptyString => EmptyString
  | String c rest =>
      if Ascii.eqb c CR then
        match rest with
        | String d rest' =>
            if Ascii.eqb d LF then String LF (universal_newlines rest')
            else String LF (universal_newlines rest)
        | EmptyString => String LF EmptyString
        end
      else String c (universal_newlines rest)
  end.

(** The text that [open(path, 'r', encoding='utf-8')] presents. *)
Definition f_data (f : file) : string := universal_newlines (f_chars f).

(** The lines [for line in f] hands to the loop body. *)
Definition delivered (f : file) : list string :=
  match f_fault f with
  | None => readlines (f_data f)
  | Some n => firstn n (readlines (f_data f))
  end.

(** A loop body run over lines until one raises: the state reached, and the
    exception that stopped the loop, if any. *)
Fixpoint run_lines {S : Type} (body : S -> string -> result S) (st : S)
  (ls : list string) : S * option exn :=
  match ls with
  | [] => (st, None)
  | l :: ls' =>
      match body st l with
      | Return st' => run_lines body st' ls'
      | Raise e => (st, Some e)
      end
  end.

(** [with open(path) as f: for line in f: body] *)
Definition for_line_in {S : Type} (f : file) (body : S -> string -> result S)
  (st : S) : S * option exn :=
  match run_lines body st (delivered f) with
  | (st', Some e) => (st', Some e)
  | (st', None) =>
      match f_fault f with
      | Some _ => (st', Some OSError)
      | None => (st', None)
      end
  end.

(** [path.stem] of a name that matches [*.jsonl]. *)
Definition stem (name : string) : string :=
  if String.eqb name ".jsonl" then name
  else slice_to (String.length name - 6) name.

(** [{session_id, title, message_count, created_at, updated_at}] *)
Record summary : Type := {
  session_id : string;
  title : string;
  message_count : Z;
  created_at : json;
  updated_at : json
}.

(** The dict that carries a summary: every key is always present. *)
Definition info_dict (s : summary) : list (string * json) :=
  [ ("session_id", JStr (session_id s));
    ("title", JStr (title s));
    ("message_count", JInt (message_count s));
    ("created_at", created_at s);
    ("updated_at", updated_at s) ].

Record status : Type := {
  is_empty : bool;
  has_invalid_api_key : bool;
  has_messages : bool;
  file_size : Z
}.

Record session_info : Type := {
  si_project_name : string;
  si_session_id : string;
  si_file_size : Z
}.

Record cleanable : Type := {
  empty_sessions : list session_info;
  invalid_api_key_sessions : list session_info;
  total_count : Z
}.

(** What the directory enumeration yields: the directories under the base
    path, each with the result of [glob("*.jsonl")] in the order the
    operating system lists it. *)
Definition tree : Type := list (string * list (string * file)).

Fixpoint lookup_dir (name : string) (t : tree)
  : option (list (string * file)) :=
  match t with
  | [] => None
  | (d, entries) :: rest =>
      if String.eqb d name then Some entries else lookup_dir name rest
  end.

(** The state of the scan of [rename_session]. *)
Record scan : Type := {
  first_user_idx : Z;
  original_message : option string
}.

(** The file system the mutating operations see: paths to regular files and
    directories.  Project and session names are single path components; an
    entry below a project directory is a regular file or an empty
    directory. *)
Inductive node : Type :=
| File (f : file)
| Dir.

Abbreviation fs := (gmap string node).

(** [base_path / project_name / f"{session_id}.jsonl"] *)
Definition session_file (base project_name session_id : string) : string :=
  base ++ "/" ++ project_name ++ "/" ++ session_id ++ ".jsonl".

(** [base_path / ".bak"] *)
Definition backup_dir (base : string) : string := base ++ "/.bak".

(** [backup_dir / f"{project_name}_{session_id}.jsonl"] *)
Definition backup_file (base project_name session_id : string) : string :=
  backup_dir base ++ "/" ++ project_name ++ "_" ++ session_id ++ ".jsonl".

(** [path.mkdir(exist_ok=True)]: a path that exists and is not a directory
    is still an error. *)
Definition mkdir_exist_ok (path : string) (m : fs) : result fs :=
  match m !! path with
  | None => Return (<[path := Dir]> m)
  | Some Dir => Return m
  | Some (File _) => Raise FileExistsError
  end.

(** [src.rename(dst)] with POSIX semantics: an existing regular file at
    [dst] is replaced silently. *)
Definition rename_path (src dst : string) (m : fs) : result fs :=
  match m !! src with
  | None => Raise FileNotFoundError
  | Some n =>
      match n, m !! dst with
      | File _, Some Dir => Raise IsADirectoryError
      | Dir, Some (File _) => Raise NotADirectoryError
      | _, _ => Return (<[dst := n]> (delete src m))
      end
  end.

(** [open(path, 'r')] *)
Definition open_read (n : node) : result file :=
  match n with
  | File f => Return f
  | Dir => Raise IsADirectoryError
  end.

(** [delete_session(project_name, session_id)]: the value returned or the
    exception raised, and the file system left behind. *)
Definition delete_session (base project_name session_id : string) (m : fs)
  : result bool * fs :=
  let jsonl_file := session_file base project_name session_id in
  match m !! jsonl_file with
  | None => (Return false, m)
  | Some _ =>
      match mkdir_exist_ok (backup_dir base) m with
      | Raise e => (Raise e, m)
      | Return m1 =>
          match rename_path jsonl_file
                  (backup_file base project_name session_id) m1 with
          | Raise e => (Raise e, m1)
          | Return m2 => (Return true, m2)
          end
      end
  end.

(** The [success] flag [call_tool] reports for the [delete_session] tool:
    the call is not guarded, an exception passes through. *)
Definition call_tool_delete_session (base project_name session_id : string)
  (m : fs) : result bool * fs :=
  delete_session base project_name session_id m.

(* ===================================================================== *)
(** * The program over a JSON codec *)
(* ===================================================================== *)

Section Program.

Context `{Codec}.

(** The inner loop of [parse_session_summary] over the content items: the
    first text item whose cleaned text is not empty. *)
Fixpoint first_text (items : list json) : result (option string) :=
  match items with
  | [] => Return None
  | item :: rest =>
      if Py.is_text_item item then
        let* raw := Py.get item "text" (JStr EmptyString) in
        let* t := Py.str_receiver raw in
        let text := strip (remove_ide (strip t)) in
        if negb (String.eqb text EmptyString) then Return (Some text)
        else first_text rest
      else first_text rest
  end.

(** The running minimum and maximum of the timestamps. *)
Definition fold_timestamp (timestamp : json) (info : summary)
  : result summary :=
  if Py.truthy timestamp then
    let* lo := (if negb (Py.truthy (created_at info)) then Return true
           else Py.lt timestamp (created_at info)) in
    let info :=
      if lo : bool then
        {| session_id := session_id info; title := title info;
           message_count := message_count info;
           created_at := timestamp; updated_at := updated_at info |}
      else info in
    let* hi := (if negb (Py.truthy (updated_at info)) then Return true
           else Py.lt (updated_at info) timestamp) in
    Return
      (if hi : bool then
         {| session_id := session_id info; title := title info;
            message_count := message_count info;
            created_at := created_at info; updated_at := timestamp |}
       else info)
  else Return info.

(** The body of the loop over the lines of [parse_session_summary]; the
    state is [info] and [first_user_content]. *)
Definition summary_body (st : summary * option string) (line : string)
  : result (summary * option string) :=
  let '(info, first_user_content) := st in
  let line := strip line in
  if String.eqb line EmptyString then Return st
  else
    match loads line with
    | None => Return st
    | Some entry =>
        let* entry_type := Py.get entry "type" JNull in
        if Py.eq_str entry_type "user" || Py.eq_str entry_type "assistant"
        then
          let info :=
            {| session_id := session_id info; title := title info;
               message_count := message_count info + 1;
               created_at := created_at info;
               updated_at := updated_at info |} in
          let* timestamp := Py.get entry "timestamp" (JStr EmptyString) in
          let* info := fold_timestamp timestamp info in
          match first_user_content with
          | None =>
              if Py.eq_str entry_type "user" then
                let* message := Py.get entry "message" (JObj []) in
                let* content_list := Py.get message "content" (JArr []) in
                let* items := Py.iter content_list in
                let* found := first_text items in
                Return (info, found)
              else Return (info, first_user_content)
          | Some _ => Return (info, first_user_content)
          end
        else Return st
    end.

(** The title cut out of the first user text. *)
Definition title_of_text (first_user_content : string) : string :=
  if contains nlnl first_user_content then
    slice_to 100 (split_head nlnl first_user_content)
  else if contains nl first_user_content then
    slice_to 100 (split_head nl first_user_content)
  else slice_to 100 first_user_content.

Definition default_title (session_id : string) : string :=
  "Session " ++ slice_to 8 session_id.

(** [parse_session_summary(file_path)] for an existing file whose stem is
    [sid]; [None] is Python's [None]. *)
Definition parse_session_summary (sid : string) (f : file)
  : option summary :=
  let info :=
    {| session_id := sid; title := default_title sid;
       message_count := 0; created_at := JNull; updated_at := JNull |} in
  match for_line_in f summary_body (info, None) with
  | (_, Some _) => None
  | ((info, first_user_content), None) =>
      let info :=
        match first_user_content with
        | Some c =>
            if negb (String.eqb c EmptyString) then
              {| session_id := session_id info; title := title_of_text c;
                 message_count := message_count info;
                 created_at := created_at info;
                 updated_at := updated_at info |}
            else info
        | None => info
        end in
      if message_count info >? 0 then Some info else None
  end.

(** The sort key [s.get('updated_at', '')]. *)
Definition sort_key (s : summary) : json :=
  match Py.dict_get "updated_at" (info_dict s) with
  | Some v => v
  | None => JStr EmptyString
  end.

(** The loop of [get_sessions] over the globbed files. *)
Fixpoint collect_sessions (entries : list (string * file)) : list summary :=
  match entries with
  | [] => []
  | (name, f) :: rest =>
      if startswith "agent-" name then collect_sessions rest
      else
        match parse_session_summary (stem name) f with
        | Some session_info => session_info :: collect_sessions rest
        | None => collect_sessions rest
        end
  end.

(** [get_sessions(project_name)] *)
Definition get_sessions (t : tree) (project_name : string)
  : result (list summary) :=
  match lookup_dir project_name t with
  | None => Return []
  | Some entries => Py.sorted sort_key true (collect_sessions entries)
  end.

(** ** Status Inspector *)

(** The body of the loop over the lines of [check_session_status]. *)
Definition status_body (st : status) (line : string) : result status :=
  let line := strip line in
  if String.eqb line EmptyString then Return st
  else
    match loads line with
    | None => Return st
    | Some entry =>
        let* entry_type := Py.get entry "type" JNull in
        let* st :=
          (if Py.eq_str entry_type "summary" then
             let* summary := Py.get entry "summary" (JStr EmptyString) in
             let* found := Py.contains "Invalid API key" summary in
             Return
               (if found : bool then
                  {| is_empty := is_empty st; has_invalid_api_key := true;
                     has_messages := has_messages st;
                     file_size := file_size st |}
                else st)
           else Return st) in
        Return
          (if Py.eq_str entry_type "user" || Py.eq_str entry_type "assistant"
           then
             {| is_empty := false;
                has_invalid_api_key := has_invalid_api_key st;
                has_messages := true; file_size := file_size st |}
           else st)
    end.

(** [check_session_status(file_path)]; [None] is a path that does not
    exist.  The exception that ends the scan is dropped. *)
Definition check_session_status (file_path : option file) : status :=
  let st :=
    {| is_empty := true; has_invalid_api_key := false;
       has_messages := false;
       file_size := match file_path with
                    | Some f => st_size f
                    | None => 0
                    end |} in
  match file_path with
  | None => st
  | Some f =>
      if file_size st =? 0 then st
      else fst (for_line_in f status_body st)
  end.

(** ** Session Rewriter *)

(** [f"{new_title}\n\n{body}"] *)
Definition titled (new_title body : string) : string :=
  new_title ++ nlnl ++ body.

(** The loop over [content_arr] of an enqueue record: its first text item
    that is not empty and does not start with an IDE tag. *)
Fixpoint find_enqueue_text (items : list json) : result (option string) :=
  match items with
  | [] => Return None
  | item :: rest =>
      if Py.is_text_item item then
        let* txt := Py.get item "text" (JStr EmptyString) in
        if Py.truthy txt then
          let* t := Py.str_receiver txt in
          if negb (startswith "<ide_" (strip t)) then Return (Some t)
          else find_enqueue_text rest
        else find_enqueue_text rest
      else find_enqueue_text rest
  end.

(** The body of the loop over [enumerate(f)]; the state carries the
    index [i]. *)
Definition scan_body (st : Z * scan) (line : string) : result (Z * scan) :=
  let '(i, sc) := st in
  let line_stripped := strip line in
  if negb (String.eqb line_stripped EmptyString) then
    match loads line_stripped with
    | None => Return (i + 1, sc)
    | Some entry =>
        let* entry_type := Py.get entry "type" JNull in
        let* om :=
          (match original_message sc with
           | None =>
               if Py.eq_str entry_type "queue-operation" then
                 let* operation := Py.get entry "operation" JNull in
                 if Py.eq_str operation "enqueue" then
                   let* content_arr := Py.get entry "content" (JArr []) in
                   let* items := Py.iter content_arr in
                   find_enqueue_text items
                 else Return None
               else Return None
           | Some m => Return (Some m)
           end) in
        let idx :=
          if Py.eq_str entry_type "user" && (first_user_idx sc =? -1)
          then i else first_user_idx sc in
        Return (i + 1, {| first_user_idx := idx; original_message := om |})
    end
  else Return (i + 1, sc).

(** The index of the first text item that does not start with an IDE
    tag, [-1] when there is none. *)
Fixpoint find_text_idx (idx : Z) (items : list json) : result Z :=
  match items with
  | [] => Return (-1)
  | item :: rest =>
      if Py.is_text_item item then
        let* text_content := Py.get item "text" (JStr EmptyString) in
        let* t := Py.str_receiver text_content in
        if startswith "<ide_" (strip t) then find_text_idx (idx + 1) rest
        else Return idx
      else find_text_idx (idx + 1) rest
  end.

(** One past the index of the last text item that starts with an IDE
    tag. *)
Fixpoint find_insert_pos (idx insert_pos : Z) (items : list json)
  : result Z :=
  match items with
  | [] => Return insert_pos
  | item :: rest =>
      if Py.is_text_item item then
        let* text_content := Py.get item "text" (JStr EmptyString) in
        let* t := Py.str_receiver text_content in
        if startswith "<ide_" (strip t)
        then find_insert_pos (idx + 1) (idx + 1) rest
        else find_insert_pos (idx + 1) insert_pos rest
      else find_insert_pos (idx + 1) insert_pos rest
  end.

(** Without an enqueue message: the first text item gets the new title in
    front of its text, from which an earlier title has been taken off. *)
Fixpoint retitle_first (new_title : string) (items : list json)
  : result (list json) :=
  match items with
  | [] => Return []
  | item :: rest =>
      if Py.is_text_item item then
        let* old := Py.get item "text" (JStr EmptyString) in
        let* old_text := Py.re_subject old in
        let* item' :=
          Py.setitem item "text"
            (JStr (titled new_title (strip_title_prefix old_text))) in
        Return (item' :: rest)
      else
        let* rest' := retitle_first new_title rest in
        Return (item :: rest')
  end.

Definition new_text_item (new_title original : string) : json :=
  JObj [("type", JStr "text"); ("text", JStr (titled new_title original))].

(** The content-merge policy on [content_list]. *)
Definition merge_content (new_title : string)
  (original_message : option string) (content_list : json) : result json :=
  let* items := Py.iter content_list in
  match original_message with
  | Some original =>
      let* text_idx := find_text_idx 0 items in
      if text_idx >=? 0 then
        Py.setitem_at content_list text_idx "text"
          (JStr (titled new_title original))
      else
        let* insert_pos := find_insert_pos 0 0 items in
        Py.list_insert content_list insert_pos
          (new_text_item new_title original)
  | None =>
      let* items' := retitle_first new_title items in
      Return (match content_list with
              | JArr _ => JArr items'
              | _ => content_list
              end)
  end.

(** The record at [first_user_idx] after the merge;
    [entry['message']['content'] = content_list] needs the [message]
    key. *)
Definition rewrite_entry (new_title : string)
  (original_message : option string) (entry : json) : result json :=
  let* message := Py.get entry "message" (JObj []) in
  let* content_list := Py.get message "content" (JArr []) in
  let* content_list := merge_content new_title original_message content_list in
  let* held := Py.getitem entry "message" in
  let* held := Py.setitem held "content" content_list in
  Py.setitem entry "message" held.

(** The [try] block of [rename_session] up to the write: the lines to
    write back, or [None] when the file has no user record. *)
Definition rewrite_lines (new_title : string) (f : file)
  : result (option (list string)) :=
  match for_line_in f scan_body
          (0, {| first_user_idx := -1; original_message := None |}) with
  | (_, Some e) => Raise e
  | ((_, sc), None) =>
      if first_user_idx sc =? -1 then Return None
      else
        let lines := delivered f in
        let k := Z.to_nat (first_user_idx sc) in
        match nth_error lines k with
        | None => Raise IndexError
        | Some line =>
            match loads (strip line) with
            | None => Raise JSONDecodeError
            | Some entry =>
                let* entry :=
                  rewrite_entry new_title (original_message sc) entry in
                Return (Some (<[k := (dumps entry ++ nl)%string]> lines))
            end
        end
  end.

(** How the write of the file ends: without an error; with an error of
    [open(jsonl_file, 'w')], before the file is touched; or with an error
    while the lines are written, after [open] has emptied the file and
    [kept] characters have reached it. *)
Inductive write_outcome : Type :=
| Written
| OpenFails
| WriteFails (kept : nat).

(** [rename_session(project_name, session_id, new_title)] when the write
    ends as [w]: every exception of the [try] block becomes [False], also
    one raised by the write, which leaves the file as far as it was
    written.  The lines are written as they are, a line feed as a line
    feed (POSIX). *)
Definition rename_session_on (w : write_outcome)
  (base project_name session_id new_title : string) (m : fs) : bool * fs :=
  let jsonl_file := session_file base project_name session_id in
  match m !! jsonl_file with
  | None => (false, m)
  | Some n =>
      match (let* f := open_read n in rewrite_lines new_title f) with
      | Return (Some lines) =>
          match w with
          | Written =>
              (true,
               <[jsonl_file := File {| f_chars := writelines lines;
                                       f_fault := None |}]> m)
          | OpenFails => (false, m)
          | WriteFails kept =>
              (false,
               <[jsonl_file :=
                   File {| f_chars := slice_to kept (writelines lines);
                           f_fault := None |}]> m)
          end
      | Return None => (false, m)
      | Raise _ => (false, m)
      end
  end.

(** [rename_session] on a disk that takes the write. *)
Definition rename_session (base project_name session_id new_title : string)
  (m : fs) : bool * fs :=
  rename_session_on Written base project_name session_id new_title m.

(** ** Cleanup Planner *)

(** The body of the loop of [find_cleanable_sessions] over the globbed
    files of one project; the state is the two result lists. *)
Definition classify_body (project : string)
  (acc : list session_info * list session_info) (entry : string * file)
  : list session_info * list session_info :=
  let '(name, f) := entry in
  if startswith "agent-" name then acc
  else
    let st := check_session_status (Some f) in
    let session_info :=
      {| si_project_name := project; si_session_id := stem name;
         si_file_size := file_size st |} in
    if has_invalid_api_key st && negb (has_messages st) then
      (fst acc, snd acc ++ [session_info])
    else if is_empty st || (file_size st =? 0) then
      (fst acc ++ [session_info], snd acc)
    else acc.

Definition project_dirs (t : tree) (project_name : option string) : tree :=
  match project_name with
  | Some p =>
      if negb (String.eqb p EmptyString) then
        match lookup_dir p t with
        | Some entries => [(p, entries)]
        | None => []
        end
      else List.filter (fun d => negb (startswith "." (fst d))) t
  | None => List.filter (fun d => negb (startswith "." (fst d))) t
  end.

(** [find_cleanable_sessions(project_name)] *)
Definition find_cleanable_sessions (t : tree) (project_name : option string)
  : cleanable :=
  let '(empty, invalid) :=
    fold_left
      (fun acc d => fold_left (classify_body (fst d)) (snd d) acc)
      (project_dirs t project_name) ([], []) in
  {| empty_sessions := empty;
     invalid_api_key_sessions := invalid;
     total_count := Z.of_nat (length empty) + Z.of_nat (length invalid) |}.

End Program.

(* ===================================================================== *)
(** * A reference codec for the integer fragment of JSON *)
(* ===================================================================== *)

Module RefJson.

Definition dq : ascii := "034"%char.

Definition is_ws (c : ascii) : bool :=
  let n := nat_of_ascii c in
  ((n =? 32) || (n =? 9) || (n =? 10) || (n =? 13))%nat.

Fixpoint skip_ws (s : string) : string :=
  match s with
  | EmptyString => EmptyString
  | String c s' => if is_ws c then skip_ws s' else s
  end.

Definition hex_digit (c : ascii) : option nat :=
  let n := nat_of_ascii c in
  if ((48 <=? n) && (n <=? 57))%nat then Some (n - 48)%nat
  else if ((97 <=? n) && (n <=? 102))%nat then Some (n - 87)%nat
  else if ((65 <=? n) && (n <=? 70))%nat then Some (n - 55)%nat
  else None.

Definition unescape (e : ascii) : option ascii :=
  match nat_of_ascii e with
  | 34%nat => Some dq
  | 92%nat => Some "\"%char
  | 47%nat => Some "/"%char
  | 98%nat => Some (ascii_of_nat 8)
  | 102%nat => Some (ascii_of_nat 12)
  | 110%nat => Some (ascii_of_nat 10)
  | 114%nat => Some (ascii_of_nat 13)
  | 116%nat => Some (ascii_of_nat 9)
  | _ => None
  end.

(** The characters of a string literal after its opening quote, and the
    text after the closing quote.  Escapes [\uXXXX] are read for code
    points below 256. *)
Fixpoint parse_string_body (s : string) : option (string * string) :=
  match s with
  | EmptyString => None
  | String c s' =>
      if Ascii.eqb c dq then Some (EmptyString, s')
      else if Ascii.eqb c "\"%char then
        match s' with
        | String "u"%char (String h1 (String h2 (String h3 (String h4 r)))) =>
            match hex_digit h1, hex_digit h2, hex_digit h3, hex_digit h4 with
            | Some 0%nat, Some 0%nat, Some a, Some b =>
                match parse_string_body r with
                | Some (t, rest) =>
                    Some (String (ascii_of_nat (16 * a + b)) t, rest)
                | None => None
                end
            | _, _, _, _ => None
            end
        | String e r =>
            match unescape e, parse_string_body r with
            | Some d, Some (t, rest) => Some (String d t, rest)
            | _, _ => None
            end
        | EmptyString => None
        end
      else if (nat_of_ascii c <? 32)%nat then None
      else
        match parse_string_body s' with
        | Some (t, rest) => Some (String c t, rest)
        | None => None
        end
  end.

Definition is_digit (c : ascii) : bool :=
  let n := nat_of_ascii c in ((48 <=? n) && (n <=? 57))%nat.

Fixpoint parse_digits (acc : Z) (s : string) : Z * string :=
  match s with
  | String c s' =>
      if is_digit c
      then parse_digits (10 * acc + Z.of_nat (nat_of_ascii c - 48)) s'
      else (acc, s)
  | EmptyString => (acc, s)
  end.

(** An integer literal: an optional minus sign, then a single zero or a
    run of digits that does not start with zero; a fraction or an exponent
    after it makes the literal a float, which is not read. *)
Definition parse_int (s : string) : option (Z * string) :=
  let '(neg, body) :=
    match s with
    | String "-"%char s' => (true, s')
    | _ => (false, s)
    end in
  match body with
  | String c after =>
      if is_digit c then
        let '(n, rest) :=
          if Ascii.eqb c "0"%char then (0, after) else parse_digits 0 body in
        match rest with
        | String d _ =>
            if is_digit d || Ascii.eqb d "."%char || Ascii.eqb d "e"%char
               || Ascii.eqb d "E"%char
            then None
            else Some (if neg : bool then - n else n, rest)
        | EmptyString => Some (if neg : bool then - n else n, rest)
        end
      else None
  | EmptyString => None
  end.

Fixpoint parse_value (fuel : nat) (s : string) : option (json * string) :=
  match fuel with
  | O => None
  | S fuel' =>
      match s with
      | EmptyString => None
      | String c s' =>
          if Ascii.eqb c dq then
            match parse_string_body s' with
            | Some (t, rest) => Some (JStr t, rest)
            | None => None
            end
          else if Ascii.eqb c "["%char then
            match skip_ws s' with
            | String "]"%char rest => Some (JArr [], rest)
            | body => parse_items fuel' [] body
            end
          else if Ascii.eqb c "{"%char then
            match skip_ws s' with
            | String "}"%char rest => Some (JObj [], rest)
            | body => parse_members fuel' [] body
            end
          else if String.prefix "null" s then Some (JNull, slice_from 4 s)
          else if String.prefix "true" s then
            Some (JBool true, slice_from 4 s)
          else if String.prefix "false" s then
            Some (JBool false, slice_from 5 s)
          else
            match parse_int s with
            | Some (z, rest) => Some (JInt z, rest)
            | None => None
            end
      end
  end

with parse_items (fuel : nat) (acc : list json) (s : string)
  : option (json * string) :=
  match fuel with
  | O => None
  | S fuel' =>
      match parse_value fuel' s with
      | Some (v, rest) =>
          match skip_ws rest with
          | String ","%char rest' =>
              parse_items fuel' (acc ++ [v]) (skip_ws rest')
          | String "]"%char rest' => Some (JArr (acc ++ [v]), rest')
          | _ => None
          end
      | None => None
      end
  end

with parse_members (fuel : nat) (acc : list (string * json)) (s : string)
  : option (json * string) :=
  match fuel with
  | O => None
  | S fuel' =>
      match s with
      | String "034"%char s' =>
          match parse_string_body s' with
          | Some (k, rest) =>
              match skip_ws rest with
              | String ":"%char rest' =>
                  match parse_value fuel' (skip_ws rest') with
                  | Some (v, rest'') =>
                      let acc' := Py.dict_set k v acc in
                      match skip_ws rest'' with
                      | String ","%char r =>
                          parse_members fuel' acc' (skip_ws r)
                      | String "}"%char r => Some (JObj acc', r)
                      | _ => None
                      end
                  | None => None
                  end
              | _ => None
              end
          | None => None
          end
      | _ => None
      end
  end.

Definition loads (s : string) : option json :=
  match parse_value (2 * String.length s + 2) (skip_ws s) with
  | Some (v, rest) =>
      match skip_ws rest with
      | EmptyString => Some v
      | _ => None
      end
  | None => None
  end.

Definition hex_char (n : nat) : ascii :=
  if (n <? 10)%nat then ascii_of_nat (48 + n) else ascii_of_nat (87 + n).

(** The escapes of [json.dumps(..., ensure_ascii=False)]. *)
Fixpoint escape (s : string) : string :=
  match s with
  | EmptyString => EmptyString
  | String c s' =>
      let n := nat_of_ascii c in
      (if (n =? 34)%nat then String "\"%char (String dq EmptyString)
       else if (n =? 92)%nat then "\\"
       else if (n =? 10)%nat then "\n"
       else if (n =? 13)%nat then "\r"
       else if (n =? 9)%nat then "\t"
       else if (n =? 8)%nat then "\b"
       else if (n =? 12)%nat then "\f"
       else if (n <? 32)%nat then
         "\u00" ++ String (hex_char (n / 16)) (String (hex_char (n mod 16)) EmptyString)
       else String c EmptyString) ++ escape s'
  end.

Definition quote (s : string) : string :=
  String dq (escape s ++ String dq EmptyString).

Fixpoint pos_digits (fuel : nat) (n : Z) (acc : string) : string :=
  match fuel with
  | O => acc
  | S fuel' =>
      let acc' := String (ascii_of_nat (48 + Z.to_nat (n mod 10))) acc in
      if n <? 10 then acc' else pos_digits fuel' (n / 10) acc'
  end.

Definition int_repr (z : Z) : string :=
  if z <? 0 then "-" ++ pos_digits (Z.to_nat (- z)) (- z) EmptyString
  else pos_digits (S (Z.to_nat z)) z EmptyString.

Definition join (sep : string) (parts : list string) : string :=
  String.concat sep parts.

(** [json.dumps(v, ensure_ascii=False)]: separators [", "] and [": "]. *)
Fixpoint dumps (v : json) : string :=
  match v with
  | JNull => "null"
  | JBool true => "true"
  | JBool false => "false"
  | JInt z => int_repr z
  | JStr s => quote s
  | JArr l => "[" ++ join ", " (map dumps l) ++ "]"
  | JObj kvs =>
      "{" ++ join ", "
               (map (fun kv : string * json =>
                       let '(k, v) := kv in (quote k ++ ": " ++ dumps v)%string)
                  kvs)
      ++ "}"
  end.

End RefJson.

Definition py_json : Codec :=
  {| loads := RefJson.loads; dumps := RefJson.dumps |}.


(** Transcript lines are written below with an apostrophe where the file
    has a double quote. *)
Fixpoint jtext (s : string) : string :=
  match s with
  | EmptyString => EmptyString
  | String c s' =>
      String (if Ascii.eqb c "'"%char then RefJson.dq else c) (jtext s')
  end.


(* ===================================================================== *)
(** * Vocabulary of the statements *)
(* ===================================================================== *)

(** The two classification rules of the cleanup planner. *)
Definition invalid_candidate (st : status) : bool :=
  has_invalid_api_key st && negb (has_messages st).

Definition empty_candidate (st : status) : bool :=
  is_empty st || (file_size st =? 0).

(** The status a file keeps when nothing in it could be read. *)
Definition default_status (f : file) : status :=
  {| is_empty := true; has_invalid_api_key := false; has_messages := false;
     file_size := st_size f |}.

Section Vocabulary.

Context `{Codec}.

(** A line the scans pass over: blank, or not decodable. *)
Definition skipped (line : string) : Prop :=
  strip line = EmptyString \/ loads (strip line) = None.

(** The files the planner scans, each with the name of its project. *)
Definition scanned_files (t : tree) (project_name : option string)
  : list (string * (string * file)) :=
  flat_map
    (fun d =>
       map (pair (fst d))
         (List.filter (fun e => negb (startswith "agent-" (fst e))) (snd d)))
    (project_dirs t project_name).

Definition status_of (e : string * (string * file)) : status :=
  check_session_status (Some (snd (snd e))).

Definition info_of (e : string * (string * file)) : session_info :=
  {| si_project_name := fst e;
     si_session_id := stem (fst (snd e));
     si_file_size := file_size (status_of e) |}.

(** A text item whose text, stripped, starts with an IDE tag. *)
Definition ide_text_item (item : json) : bool :=
  Py.is_text_item item &&
  match Py.get item "text" (JStr EmptyString) with
  | Return (JStr t) => startswith "<ide_" (strip t)
  | _ => false
  end.

(** The index of the last item that is a text item starting with an IDE
    tag. *)
Fixpoint last_ide (items : list json) : option nat :=
  match items with
  | [] => None
  | item :: rest =>
      match last_ide rest with
      | Some j => Some (S j)
      | None => if ide_text_item item then Some 0%nat else None
      end
  end.

(** The text of a content item as the summarizer cleans it. *)
Definition cleaned (t : string) : string := strip (remove_ide (strip t)).

(** The cleaned text of a text item, when the item has a text and the
    cleaned text is not empty. *)
Definition eligible_text (item : json) : option string :=
  if Py.is_text_item item then
    match Py.get item "text" (JStr EmptyString) with
    | Return (JStr t) =>
        if String.eqb (cleaned t) EmptyString then None else Some (cleaned t)
    | _ => None
    end
  else None.

Fixpoint texts_of_items (items : list json) : list string :=
  match items with
  | [] => []
  | item :: rest =>
      match eligible_text item with
      | Some t => t :: texts_of_items rest
      | None => texts_of_items rest
      end
  end.

(** The type of the record on a line, when the line decodes to a dict. *)
Definition record_type (line : string) : option json :=
  if String.eqb (strip line) EmptyString then None
  else
    match loads (strip line) with
    | Some (JObj members) =>
        Some (match Py.dict_get "type" members with
              | Some ty => ty
              | None => JNull
              end)
    | _ => None
    end.

Definition is_user_line (line : string) : bool :=
  match record_type line with
  | Some ty => Py.eq_str ty "user"
  | None => false
  end.

(** The index of the first line that holds a user record. *)
Fixpoint first_user_line (lines : list string) : option nat :=
  match lines with
  | [] => None
  | line :: rest =>
      if is_user_line line then Some 0%nat
      else option_map S (first_user_line rest)
  end.

(** The scan of [rename_session] over a whole file. *)
Definition scan_of (f : file) : result scan :=
  match for_line_in f scan_body
          (0, {| first_user_idx := -1; original_message := None |}) with
  | ((_, sc), None) => Return sc
  | (_, Some e) => Raise e
  end.

(** The content items of the user record on a line; no items when the
    line holds no user record or the record has no content to iterate. *)
Definition user_items (line : string) : list json :=
  if is_user_line line then
    match loads (strip line) with
    | Some entry =>
        match (let* message := Py.get entry "message" (JObj []) in
               let* content_list := Py.get message "content" (JArr []) in
               Py.iter content_list) with
        | Return items => items
        | Raise _ => []
        end
    | None => []
    end
  else [].

(** The eligible texts of a transcript: over the user records in file
    order and, within a record, over its items in order. *)
Definition eligible_texts (lines : list string) : list string :=
  flat_map (fun line => texts_of_items (user_items line)) lines.

(** The title rule of the summarizer in the words of its description: the
    first user record whose content holds a text item is inspected once;
    when the cleaned text of that item is empty the title is the default
    one. *)
Fixpoint described_first_text (lines : list string) : option string :=
  match lines with
  | [] => None
  | line :: rest =>
      match List.find Py.is_text_item (user_items line) with
      | Some item =>
          match Py.get item "text" (JStr EmptyString) with
          | Return (JStr t) => Some t
          | _ => None
          end
      | None => described_first_text rest
      end
  end.

Definition described_title (sid : string) (lines : list string) : string :=
  match described_first_text lines with
  | Some t =>
      if String.eqb (cleaned t) EmptyString then default_title sid
      else title_of_text (cleaned t)
  | None => default_title sid
  end.

End Vocabulary.

(* ===================================================================== *)
(** * Concrete transcripts *)
(* ===================================================================== *)

(** A readable file with the given lines, each ended by a line feed. *)
Definition transcript (ls : list string) : file :=
  {| f_chars := writelines (map (fun l => (jtext l ++ nl)%string) ls);
     f_fault := None |}.

Module Ex.

(** One summary record that reports the credential failure. *)
Definition invalid_key_line : string :=
  "{'type':'summary','summary':'Invalid API key detected'}".

Definition invalid_key_file : file := transcript [invalid_key_line].

(** A file whose two lines are not JSON. *)
Definition garbled_file : file :=
  transcript ["not json at all"; "{'type':"].

(** A file that cannot be opened for reading. *)
Definition locked_file : file :=
  {| f_chars := "whatever it holds"; f_fault := Some 0%nat |}.

Definition one_project (name : string) (f : file) : tree :=
  [("proj", [(name, f)])].

Definition base : string := "/home/u/.claude/projects".

(** The first user record holds only IDE context, the second one the
    question. *)
Definition ide_first_file : file :=
  transcript
    ["{'type':'user','message':{'content':[{'type':'text','text':'<ide_opened_file>main.py</ide_opened_file>'}]}}";
     "{'type':'user','message':{'content':[{'type':'text','text':'Real question'}]}}"].

Definition ide_first_summary : summary :=
  {| session_id := "0123456789abcdef"; title := "Real question";
     message_count := 2; created_at := JNull; updated_at := JNull |}.

(** An enqueue record with the message, and a user record whose only
    text item is IDE context, between an image and a tool result. *)
Definition enqueue_file : file :=
  transcript
    ["{'type':'queue-operation','operation':'enqueue','content':[{'type':'text','text':'<ide_selection>x</ide_selection>'},{'type':'text','text':'real message'}]}";
     "{'type':'queue-operation','operation':'enqueue','content':[{'type':'text','text':'a later message'}]}";
     "{'type':'user','message':{'content':[{'type':'image'},{'type':'text','text':'<ide_opened_file>f</ide_opened_file>'},{'type':'tool_result'}]}}"].

Definition image_item : json := JObj [("type", JStr "image")].
Definition tool_item : json := JObj [("type", JStr "tool_result")].
Definition ide_item : json :=
  JObj [("type", JStr "text");
        ("text", JStr "<ide_opened_file>f</ide_opened_file>")].






(** A user record without a [message]. *)
Definition no_message_fs : fs :=
  <[session_file base "proj" "s1" := File (transcript ["{'type':'user'}"])]> ∅.

(** A session with one user record that says hello. *)
Definition hello_file : file :=
  transcript ["{'type':'user','message':{'content':[{'type':'text','text':'hello'}]}}"].

Definition hello_entry : json :=
  JObj [("type", JStr "user");
        ("message",
         JObj [("content",
                JArr [JObj [("type", JStr "text"); ("text", JStr "hello")]])])].

(** The file system that holds [hello_file] as session [s1] of [proj]. *)
Definition hello_fs : fs := <[session_file base "proj" "s1" := File hello_file]> ∅.

(** [hello_entry] with another text. *)
Definition hello_with (text : string) : json :=
  JObj [("type", JStr "user");
        ("message",
         JObj [("content",
                JArr [JObj [("type", JStr "text"); ("text", JStr text)]])])].

(** A session whose only user record carries no timestamp. *)
Definition untimed_file : file :=
  transcript ["{'type':'user','message':{'content':'hello'}}"].

Definition timed_file : file :=
  transcript
    ["{'type':'user','timestamp':'2024-05-01T10:00:00Z','message':{'content':'hi'}}";
     "{'type':'assistant','timestamp':'2024-05-01T10:00:09Z'}"].

Definition two_sessions : tree :=
  [("proj", [("a.jsonl", timed_file); ("b.jsonl", untimed_file)])].

(** The session file exists, and [.bak] exists as a regular file. *)
Definition bak_is_a_file : fs :=
  <[session_file base "proj" "s1" := File timed_file]>
    (<[backup_dir base := File untimed_file]> ∅).

End Ex.

(* ===================================================================== *)
(** * Vocabulary of the further properties *)
(* ===================================================================== *)

(** The two timestamps of a summary: both absent, or both present with
    [created_at] not after [updated_at] when they are strings. *)
Definition stamps_ordered (info : summary) : Prop :=
  match created_at info, updated_at info with
  | JNull, JNull => True
  | JNull, _ => False
  | _, JNull => False
  | JStr a, JStr b => String.ltb b a = false
  | JStr _, _ => False
  | _, JStr _ => False
  | _, _ => True
  end.

Section MoreVocabulary.

Context `{Codec}.

(** A line that holds a user or an assistant record. *)
Definition is_dialogue_line (line : string) : bool :=
  match record_type line with
  | Some ty => Py.eq_str ty "user" || Py.eq_str ty "assistant"
  | None => false
  end.

(** A line that holds a summary record in which the phrase of the
    credential failure is found. *)
Definition is_invalid_key_line (line : string) : bool :=
  if String.eqb (strip line) EmptyString then false
  else
    match loads (strip line) with
    | Some (JObj members) =>
        match Py.dict_get "type" members with
        | Some ty =>
            Py.eq_str ty "summary" &&
            match Py.contains "Invalid API key"
                    (match Py.dict_get "summary" members with
                     | Some v => v
                     | None => JStr EmptyString
                     end) with
            | Return found => found
            | Raise _ => false
            end
        | None => false
        end
    | _ => false
    end.

(** A line on which the status scan does not raise: blank, undecodable,
    or a dict whose [summary], when its type is [summary], can be searched
    for the phrase. *)
Definition status_scans (line : string) : bool :=
  if String.eqb (strip line) EmptyString then true
  else
    match loads (strip line) with
    | None => true
    | Some (JObj members) =>
        match Py.dict_get "type" members with
        | Some ty =>
            if Py.eq_str ty "summary" then
              match Py.contains "Invalid API key"
                      (match Py.dict_get "summary" members with
                       | Some v => v
                       | None => JStr EmptyString
                       end) with
              | Return _ => true
              | Raise _ => false
              end
            else true
        | None => true
        end
    | Some _ => false
    end.

(** The content items of the enqueue record on a line; no items when the
    line holds no such record or its content cannot be iterated. *)
Definition enqueue_items (line : string) : list json :=
  match record_type line with
  | Some ty =>
      if Py.eq_str ty "queue-operation" then
        match loads (strip line) with
        | Some entry =>
            match (let* operation := Py.get entry "operation" JNull in
                   if Py.eq_str operation "enqueue" then
                     let* content_arr := Py.get entry "content" (JArr []) in
                     Py.iter content_arr
                   else Return []) with
            | Return items => items
            | Raise _ => []
            end
        | None => []
        end
      else []
  | None => []
  end.

(** A message that may be captured: the text [t] of a text item of an
    enqueue record of the file, not empty and not starting with an IDE
    tag. *)
Definition capturable (lines : list string) (t : string) : Prop :=
  t <> EmptyString
  /\ startswith "<ide_" (strip t) = false
  /\ exists line item,
       In line lines
       /\ In item (enqueue_items line)
       /\ Py.is_text_item item = true
       /\ Py.get item "text" (JStr EmptyString) = Return (JStr t).

(** The summaries [get_sessions] collects for a project, before they are
    sorted. *)
Definition collected (t : tree) (project_name : string) : list summary :=
  match lookup_dir project_name t with
  | Some entries => collect_sessions entries
  | None => []
  end.

End MoreVocabulary.

(** [a] may stand before [b] in ascending order of the strings [k]. *)
Definition ascending_by {A : Type} (k : A -> string) (a b : A) : Prop :=
  String.ltb (k b) (k a) = false.

(** The [updated_at] of a summary when it is a string. *)
Definition stamp_of (s : summary) : string :=
  match updated_at s with
  | JStr u => u
  | _ => EmptyString
  end.

(** [a] is listed before [b] only if it is not older. *)
Definition not_older (a b : summary) : Prop :=
  String.leb (stamp_of b) (stamp_of a) = true.

Module More.

(** Only a summary and a queue operation: no dialogue. *)
Definition no_dialogue_file : file :=
  transcript
    ["{'type':'summary','summary':'About parsers'}";
     "{'type':'queue-operation','operation':'enqueue','content':[{'type':'text','text':'hi'}]}";
     EmptyString;
     "not json"].

(** Three dialogue records whose timestamps are not in order. *)
Definition unordered_file : file :=
  transcript
    ["{'type':'user','timestamp':'2024-03-02T10:00:00Z','message':{'content':'b'}}";
     "{'type':'assistant','timestamp':'2024-03-01T09:00:00Z'}";
     "{'type':'summary','summary':'s'}";
     "{'type':'user','timestamp':'2024-03-05T08:00:00Z','message':{'content':'c'}}"].

(** A credential failure and, later, real messages. *)
Definition recovered_file : file :=
  transcript
    ["{'type':'summary','summary':'Invalid API key detected'}";
     "garbage";
     "{'type':'user','message':{'content':'retry'}}";
     "{'type':'summary','summary':'Fixed'}"].

(** A session file, with no [.bak] directory yet. *)
Definition fresh_fs : fs :=
  <[session_file Ex.base "proj" "s1" := File recovered_file]>
    (<[session_file Ex.base "proj" "s2" := File Ex.hello_file]> ∅).

(** Session [s1] is a directory, [s2] cannot be read, [s3] has no user
    record. *)
Definition awkward_fs : fs :=
  <[session_file Ex.base "proj" "s1" := Dir]>
    (<[session_file Ex.base "proj" "s2" := File Ex.locked_file]>
       (<[session_file Ex.base "proj" "s3" := File no_dialogue_file]> ∅)).

(** A user record with IDE context, then the text, then an image. *)
Definition plain_item : json :=
  JObj [("type", JStr "text"); ("text", JStr "old words"); ("cache", JBool true)].

(** A hidden directory beside two projects; one project holds an agent
    transcript. *)
Definition mixed_tree : tree :=
  [(".bak", [("proj_s0.jsonl", Ex.garbled_file)]);
   ("proj", [("agent-3.jsonl", Ex.garbled_file);
             ("s2.jsonl", Ex.garbled_file);
             ("s1.jsonl", recovered_file)]);
   ("other", [("s4.jsonl", Ex.invalid_key_file)])].

Definition newest_file : file :=
  transcript
    ["{'type':'user','timestamp':'2024-04-01T00:00:00Z','message':{'content':'z'}}"].

Definition oldest_file : file :=
  transcript
    ["{'type':'user','timestamp':'2023-12-31T23:59:59Z','message':{'content':'a'}}"].

(** Three sessions with timestamps, an agent transcript and a file
    without dialogue. *)
Definition listed_project : tree :=
  [("proj",
    [("mid.jsonl", unordered_file); ("agent-7.jsonl", newest_file);
     ("old.jsonl", oldest_file); ("none.jsonl", no_dialogue_file);
     ("new.jsonl", newest_file)])].

Definition unordered_summary : summary :=
  {| session_id := "s9"; title := "Session s9"; message_count := 3;
     created_at := JStr "2024-03-01T09:00:00Z";
     updated_at := JStr "2024-03-05T08:00:00Z" |}.

End More.

(* ===================================================================== *)
(** * Project listing and bulk cleanup *)
(* ===================================================================== *)

Module PyText.

(** [s.replace(old, new)] for a non-empty [old]: the occurrences are taken
    from left to right and do not overlap; [skip] counts the characters of
    the occurrence just replaced that are still to be passed. *)
Fixpoint replace_from (skip : nat) (old new s : string) : string :=
  match s with
  | EmptyString => EmptyString
  | String c rest =>
      match skip with
      | S k => replace_from k old new rest
      | O =>
          if String.prefix old s then
            (new ++ replace_from (String.length old - 1) old new rest)%string
          else String c (replace_from 0 old new rest)
      end
  end.

Definition replace (old new s : string) : string := replace_from 0 old new s.

(** [s.split(sep)] for a one-character [sep]. *)
Fixpoint split (sep : ascii) (s : string) : list string :=
  match s with
  | EmptyString => [EmptyString]
  | String c rest =>
      if Ascii.eqb c sep then EmptyString :: split sep rest
      else
        match split sep rest with
        | part :: parts => String c part :: parts
        | [] => [String c EmptyString]
        end
  end.

(** [sep.join(parts)] *)
Fixpoint join (sep : string) (parts : list string) : string :=
  match parts with
  | [] => EmptyString
  | [part] => part
  | part :: rest => (part ++ sep ++ join sep rest)%string
  end.

(** [c in s] for a character [c] *)
Fixpoint has_char (c : ascii) (s : string) : bool :=
  match s with
  | EmptyString => false
  | String c' rest => Ascii.eqb c' c || has_char c rest
  end.

End PyText.

(** The endings [format_project_name] takes for a file extension or a
    domain. *)
Definition dotted_endings : list string :=
  ["com"; "org"; "net"; "io"; "dev"; "md"; "txt"; "py"; "js"; "ts"].

(** The [if len(parts) > 1] block of [format_project_name]: [parts[-2]]
    is updated in place, then the last part is cut off. *)
Definition merge_ending (parts : list string) : list string :=
  if (1 <? length parts)%nat then
    let last := List.last parts EmptyString in
    if existsb (String.eqb last) dotted_endings then
      take (length parts - 1)
        (<[(length parts - 2)%nat :=
             (nth (length parts - 2) parts EmptyString ++ "." ++ last)%string]>
           parts)
    else parts
  else parts.

(** [format_project_name(name)] *)
Definition format_project_name (name : string) : string :=
  let name := if startswith "-" name then slice_from 1 name else name in
  let name := PyText.replace "--" "/." name in
  let parts := PyText.split "-" name in
  let parts := merge_ending parts in
  let name := ("/" ++ PyText.join "/" parts)%string in
  if startswith "/Users/young" name then
    ("~" ++ slice_from (String.length "/Users/young") name)%string
  else name.

(** [{name, display_name, session_count}] *)
Record project : Type := {
  p_name : string;
  p_display_name : string;
  p_session_count : Z
}.

(** The loop of [get_projects] over [base_path.iterdir()]; the tree holds
    the entries that are directories, [glob("*.jsonl")] counts every
    transcript of a directory. *)
Fixpoint collect_projects (t : tree) : list project :=
  match t with
  | [] => []
  | (name, entries) :: rest =>
      if negb (startswith "." name) then
        {| p_name := name;
           p_display_name := format_project_name name;
           p_session_count := Z.of_nat (length entries) |}
        :: collect_projects rest
      else collect_projects rest
  end.

(** [get_projects()]; a base path that does not exist lists like an empty
    one. *)
Definition get_projects (t : tree) : result (list project) :=
  Py.sorted (fun p => JStr (p_name p)) false (collect_projects t).

(** The dictionary [clear_sessions] returns; an entry of [errors] keeps the
    exception where the code keeps its text. *)
Record cleared : Type := {
  deleted_empty_sessions : list session_info;
  deleted_invalid_api_key_sessions : list session_info;
  total_deleted : Z;
  errors : list (session_info * exn)
}.

(** The body of the loop of [clear_sessions] over [sessions_to_delete]. *)
Definition clear_body (base : string) (st : cleared * fs)
  (job : session_info * string) : cleared * fs :=
  let '(deleted, m) := st in
  let '(session_info, reason) := job in
  match delete_session base (si_project_name session_info)
          (si_session_id session_info) m with
  | (Return success, m') =>
      if success then
        if String.eqb reason "empty" then
          ({| deleted_empty_sessions :=
                deleted_empty_sessions deleted ++ [session_info];
              deleted_invalid_api_key_sessions :=
                deleted_invalid_api_key_sessions deleted;
              total_deleted := total_deleted deleted + 1;
              errors := errors deleted |}, m')
        else
          ({| deleted_empty_sessions := deleted_empty_sessions deleted;
              deleted_invalid_api_key_sessions :=
                deleted_invalid_api_key_sessions deleted ++ [session_info];
              total_deleted := total_deleted deleted + 1;
              errors := errors deleted |}, m')
      else (deleted, m')
  | (Raise e, m') =>
      ({| deleted_empty_sessions := deleted_empty_sessions deleted;
          deleted_invalid_api_key_sessions :=
            deleted_invalid_api_key_sessions deleted;
          total_deleted := total_deleted deleted;
          errors := errors deleted ++ [(session_info, e)] |}, m')
  end.

(** [sessions_to_delete] of [clear_sessions] *)
Definition sessions_to_delete (cleanable0 : cleanable)
  (clear_empty clear_invalid : bool) : list (session_info * string) :=
  (if clear_empty then
     map (fun s => (s, "empty")) (empty_sessions cleanable0)
   else [])
  ++ (if clear_invalid then
        map (fun s => (s, "invalid_api_key"))
          (invalid_api_key_sessions cleanable0)
      else []).

Definition nothing_cleared : cleared :=
  {| deleted_empty_sessions := []; deleted_invalid_api_key_sessions := [];
     total_deleted := 0; errors := [] |}.

Section Cleanup.

Context `{Codec}.

(** [clear_sessions(project_name, clear_empty, clear_invalid)]: the
    candidates are read off the enumeration [t], the files are moved in
    [m]; the result and the file system left behind. *)
Definition clear_sessions (base : string) (t : tree)
  (project_name : option string) (clear_empty clear_invalid : bool) (m : fs)
  : cleared * fs :=
  let cleanable0 := find_cleanable_sessions t project_name in
  fold_left (clear_body base)
    (sessions_to_delete cleanable0 clear_empty clear_invalid)
    (nothing_cleared, m).

End Cleanup.

(** ** Vocabulary *)

(** The directory name Claude gives the project at an absolute path with
    the components [comps]. *)
Definition dir_name_of (comps : list string) : string :=
  ("-" ++ PyText.join "-" comps)%string.

(** The last step of [format_project_name]. *)
Definition home_shortened (path : string) : string :=
  if startswith "/Users/young" path then ("~" ++ slice_from 12 path)%string
  else path.

(** A path component the encoding keeps apart: not empty, without a
    hyphen. *)
Definition plain_component (c : string) : Prop :=
  c <> EmptyString /\ PyText.has_char "-" c = false.

(** The paths [clear_sessions] may touch for a candidate. *)
Definition touched_by (base : string) (info : session_info) (path : string)
  : Prop :=
  path = session_file base (si_project_name info) (si_session_id info)
  \/ path = backup_file base (si_project_name info) (si_session_id info).

(** The candidates [clear_sessions] works through, in its order. *)
Definition planned (plan : cleanable) (clear_empty clear_invalid : bool)
  : list session_info :=
  (if clear_empty then empty_sessions plan else [])
  ++ (if clear_invalid then invalid_api_key_sessions plan else []).

(** The session file and the backup file of a candidate. *)
Definition session_path (base : string) (info : session_info) : string :=
  session_file base (si_project_name info) (si_session_id info).

Definition backup_path (base : string) (info : session_info) : string :=
  backup_file base (si_project_name info) (si_session_id info).

(** The jobs of [clear_sessions] that stand for an empty session. *)
Definition for_empty (job : session_info * string) : bool :=
  String.eqb (snd job) "empty".

Module Shown.

Definition projects_tree : tree :=
  [("-Users-young-work-site", [("a.jsonl", Ex.hello_file)]);
   (".bak", [("x.jsonl", Ex.hello_file)]);
   ("-Users-me-example-com",
    [("agent-1.jsonl", Ex.hello_file); ("b.jsonl", Ex.hello_file);
     ("c.jsonl", Ex.garbled_file)])].

(** Two candidates of More.mixed_tree as files, with other files beside
    them. *)
Definition cleanup_fs : fs :=
  <[session_file Ex.base "proj" "s2" := File Ex.garbled_file]>
    (<[session_file Ex.base "proj" "s1" := File More.recovered_file]>
       (<[session_file Ex.base "other" "s4" := File Ex.invalid_key_file]> ∅)).

(** Two sessions whose backup names coincide. *)
Definition collide_fs : fs :=
  <[session_file Ex.base "a_b" "c" := File Ex.hello_file]>
    (<[session_file Ex.base "a" "b_c" := File Ex.garbled_file]> ∅).

End Shown.

(** ** Vocabulary of the rename and summary round trip *)

(** A title the summarizer hands back as it is: not empty, of 100
    characters at most, without white space at either end, without a line
    feed and without an opening angle bracket. *)
Definition plain_title (t : string) : Prop :=
  t <> EmptyString
  /\ (String.length t <= 100)%nat
  /\ strip t = t
  /\ PyText.has_char LF t = false
  /\ PyText.has_char "<" t = false.

(** A summary with another title. *)
Definition with_title (info : summary) (t : string) : summary :=
  {| session_id := session_id info; title := t;
     message_count := message_count info;
     created_at := created_at info; updated_at := updated_at info |}.

(** A line as a text stream yields it before the end of the file: some
    characters other than a line feed, then one line feed. *)
Definition terminated (line : string) : Prop :=
  exists body, line = (body ++ nl)%string /\ PyText.has_char LF body = false.

(** The lines of a text: every line is terminated, except that the last
    one may lack its line feed. *)
Fixpoint lines_ok (lines : list string) : Prop :=
  match lines with
  | [] => True
  | line :: rest =>
      match rest with
      | [] =>
          terminated line
          \/ (line <> EmptyString /\ PyText.has_char LF line = false)
      | _ :: _ => terminated line /\ lines_ok rest
      end
  end.

Section RoundTripVocabulary.

Context `{Codec}.

(** The record [v] is written as one line, without a line feed or a
    carriage return in it, that is not blank and decodes to [v] again. *)
Definition reads_back (v : json) : Prop :=
  PyText.has_char LF (dumps v) = false
  /\ PyText.has_char CR (dumps v) = false
  /\ strip (dumps v ++ nl) <> EmptyString
  /\ loads (strip (dumps v ++ nl)) = Some v.

End RoundTripVocabulary.

Module Renamed.

(** A summary record, a user record with an image and a titled text, and
    an answer. *)
Definition titled_file : file :=
  transcript
    ["{'type':'summary','summary':'notes'}";
     "{'type':'user','timestamp':'2024-01-02T00:00:00Z','message':{'content':[{'type':'image'},{'type':'text','text':'Old title\n\nhello there'}]}}";
     "{'type':'assistant','timestamp':'2024-01-03T00:00:00Z'}"].

Definition titled_fs : fs :=
  <[session_file Ex.base "proj" "s1" := File titled_file]> ∅.

Definition titled_summary : summary :=
  {| session_id := "s1"; title := "Old title"; message_count := 2;
     created_at := JStr "2024-01-02T00:00:00Z";
     updated_at := JStr "2024-01-03T00:00:00Z" |}.

End Renamed.

Module RenamedMore.

(** A summary record whose summary is a number, then a message. *)
Definition odd_summary_file : file :=
  transcript
    ["{'type':'summary','summary':5}";
     "{'type':'user','message':{'content':[{'type':'text','text':'hello'}]}}"].

(** A user record with IDE context only, before and after a rename that
    carries the enqueue message. *)
Definition ide_entry : json :=
  JObj [("type", JStr "user");
        ("message",
         JObj [("content", JArr [Ex.image_item; Ex.ide_item; Ex.tool_item])])].

Definition ide_renamed : json :=
  JObj [("type", JStr "user");
        ("message",
         JObj [("content",
                JArr [Ex.image_item; Ex.ide_item;
                      new_text_item "First" "real message";
                      Ex.tool_item])])].

End RenamedMore.

(** ** Vocabulary of the capture *)

Section CaptureVocabulary.

Context `{Codec}.




End CaptureVocabulary.

Module OnDisk.





(** A file with a character that takes two bytes. *)
Definition accent_file : file :=
  {| f_chars := String (ascii_of_nat 233) nl; f_fault := None |}.


End OnDisk.

Module Queued.



(** A first user record whose content is [null]. *)
Definition null_content_fs : fs :=
  <[session_file Ex.base "proj" "s1" :=
      File (transcript ["{'type':'user','message':{'content':null}}"])]> ∅.


End Queued.

Module Twice.



Definition intro_fields : list (string * json) :=
  [("type", JStr "user");
   ("message",
    JObj [("content",
           JArr [JObj [("type", JStr "text");
                       ("text", JStr ("Intro" ++ nlnl ++ "Details"))]])])].

End Twice.

(* ===================================================================== *)
(** * Properties of the string operations *)
(* ===================================================================== *)

Lemma append_nil_r (s : string) : (s ++ EmptyString)%string = s.
Proof. induction s as [|c s IH]; simpl; congruence. Qed.

Lemma append_assoc (a b c : string) :
  ((a ++ b) ++ c)%string = (a ++ (b ++ c))%string.
Proof. induction a as [|x a IH]; simpl; congruence. Qed.

Lemma length_append (a b : string) :
  String.length (a ++ b) = (String.length a + String.length b)%nat.
Proof. induction a as [|x a IH]; simpl; congruence. Qed.

(** ** The text layer *)


Lemma utf8_encode_empty (s : string) :
  utf8_encode s = EmptyString -> s = EmptyString.
Proof.
  destruct s as [|c s]; [reflexivity |]. cbn [utf8_encode]. unfold utf8_char.
  destruct (nat_of_ascii c <? 128)%nat; discriminate.
Qed.

Lemma universal_newlines_empty (s : string) :
  universal_newlines s = EmptyString -> s = EmptyString.
Proof.
  destruct s as [|c s]; [reflexivity |]. cbn [universal_newlines].
  destruct (Ascii.eqb c CR); [|discriminate].
  destruct s as [|d s]; [discriminate |].
  destruct (Ascii.eqb d LF); discriminate.
Qed.

(** A file has no byte exactly when its text is empty. *)
Lemma st_size_zero (f : file) : st_size f = 0 <-> f_data f = EmptyString.
Proof.
  unfold st_size, on_disk, f_data. split.
  - intros Hsize.
    destruct (utf8_encode (f_chars f)) eqn:Hbytes;
      [|cbn [String.length] in Hsize; lia].
    now rewrite (utf8_encode_empty _ Hbytes).
  - intros Htext. now rewrite (universal_newlines_empty _ Htext).
Qed.

(** A text without a carriage return is read as it is. *)
Lemma universal_newlines_plain (s : string) :
  PyText.has_char CR s = false -> universal_newlines s = s.
Proof.
  induction s as [|c s IH]; cbn [PyText.has_char universal_newlines];
    [reflexivity |].
  intros Hfree. apply orb_false_iff in Hfree as [Hc Hfree].
  now rewrite Hc, (IH Hfree).
Qed.



Lemma slice_to_length (n : nat) (s : string) :
  (String.length (slice_to n s) <= n)%nat.
Proof.
  revert s. induction n as [|n IH]; intros [|c s]; simpl; try lia.
  specialize (IH s). lia.
Qed.

Lemma prefix_empty (s : string) : String.prefix EmptyString s = true.
Proof. destruct s; reflexivity. Qed.

Lemma prefix_cons (c d : ascii) (p s : string) :
  String.prefix (String c p) (String d s)
  = Ascii.eqb c d && String.prefix p s.
Proof.
  cbn [String.prefix]. destruct (ascii_dec c d) as [->|Hne].
  - now rewrite Ascii.eqb_refl.
  - apply Ascii.eqb_neq in Hne. now rewrite Hne.
Qed.

(** A text is free of line feeds when [nl] does not occur in it. *)
Lemma contains_nl_cons (c : ascii) (s : string) :
  contains nl (String c s) = false ->
  Ascii.eqb c LF = false /\ contains nl s = false.
Proof.
  unfold nl. cbn [contains]. rewrite prefix_cons, prefix_empty.
  rewrite andb_true_r, Ascii.eqb_sym. intros Hc.
  apply orb_false_iff in Hc. exact Hc.
Qed.

Lemma skip_line_append (t r : string) :
  contains nl t = false ->
  skip_line (t ++ String LF r) = String LF r.
Proof.
  induction t as [|c t IH]; intros Hfree.
  - reflexivity.
  - apply contains_nl_cons in Hfree as [Hc Ht].
    simpl. rewrite Hc. now apply IH.
Qed.

(** The pattern takes off exactly a title that was put in front. *)
Lemma strip_title_prefix_titled (t body : string) :
  t <> EmptyString -> contains nl t = false ->
  strip_title_prefix (t ++ nlnl ++ body) = body.
Proof.
  intros Hne Hfree. destruct t as [|c t]; [congruence |].
  pose proof (contains_nl_cons _ _ Hfree) as [Hc _].
  unfold strip_title_prefix. cbn [String.append]. rewrite Hc.
  change (String c (t ++ nlnl ++ body))%string
    with (String c t ++ String LF (String LF body))%string.
  rewrite skip_line_append by exact Hfree.
  unfold nlnl. rewrite !prefix_cons, prefix_empty, Ascii.eqb_refl.
  reflexivity.
Qed.

(* ===================================================================== *)
(** * Status Inspector and Cleanup Planner *)
(* ===================================================================== *)

Section StatusProofs.

Context `{Codec}.

Lemma status_body_skipped (st : status) (line : string) :
  skipped line -> status_body st line = Return st.
Proof.
  unfold skipped, status_body. intros [Hblank | Hbad].
  - rewrite Hblank. reflexivity.
  - destruct (String.eqb (strip line) EmptyString); [reflexivity |].
    now rewrite Hbad.
Qed.

Lemma run_status_skipped (st : status) (ls : list string) :
  Forall skipped ls -> run_lines status_body st ls = (st, None).
Proof.
  induction 1 as [|l ls Hl _ IH]; [reflexivity |].
  cbn [run_lines]. now rewrite status_body_skipped.
Qed.

(** Nothing readable in the file: the status is the initial one. *)
Lemma check_session_status_skipped (f : file) :
  Forall skipped (delivered f) ->
  check_session_status (Some f) = default_status f.
Proof.
  intros Hall. unfold check_session_status, default_status.
  cbn [file_size]. destruct (st_size f =? 0); [reflexivity |].
  unfold for_line_in. rewrite run_status_skipped by exact Hall.
  destruct (f_fault f); reflexivity.
Qed.

Lemma classify_body_spec (project : string)
  (acc : list session_info * list session_info) (name : string) (f : file) :
  classify_body project acc (name, f)
  = if startswith "agent-" name then acc
    else
      let e := (project, (name, f)) in
      (fst acc ++
         (if empty_candidate (status_of e)
             && negb (invalid_candidate (status_of e))
          then [info_of e] else []),
       snd acc ++
         (if invalid_candidate (status_of e) then [info_of e] else [])).
Proof.
  unfold classify_body, status_of, info_of, invalid_candidate,
    empty_candidate.
  cbn [fst snd]. destruct acc as [em inv]. cbn [fst snd].
  destruct (startswith "agent-" name); [reflexivity |].
  destruct (has_invalid_api_key _ && negb (has_messages _));
    cbn [negb andb].
  - now rewrite andb_false_r, app_nil_r.
  - rewrite andb_true_r.
    destruct (is_empty _ || (file_size _ =? 0));
      now rewrite ?app_nil_r.
Qed.

Lemma fold_classify (project : string) (entries : list (string * file))
  (acc : list session_info * list session_info) :
  let es :=
    map (pair project)
      (List.filter (fun e => negb (startswith "agent-" (fst e))) entries) in
  fold_left (classify_body project) entries acc
  = (fst acc ++
       map info_of
         (List.filter
            (fun e => empty_candidate (status_of e)
                      && negb (invalid_candidate (status_of e))) es),
     snd acc ++
       map info_of
         (List.filter (fun e => invalid_candidate (status_of e)) es)).
Proof.
  revert acc. induction entries as [|[name f] entries IH]; intros acc.
  - cbn. rewrite !app_nil_r. now destruct acc.
  - cbn [fold_left]. rewrite IH, classify_body_spec. cbn zeta.
    cbn [List.filter fst]. destruct (startswith "agent-" name);
      cbn [negb]; [reflexivity |].
    cbn [map List.filter fst snd].
    destruct (empty_candidate _ && negb (invalid_candidate _));
      destruct (invalid_candidate (status_of (project, (name, f))));
      cbn [map]; rewrite <- ?app_assoc, ?app_nil_r; reflexivity.
Qed.

Lemma fold_dirs (dirs : tree)
  (acc : list session_info * list session_info) :
  let es :=
    flat_map
      (fun d =>
         map (pair (fst d))
           (List.filter (fun e => negb (startswith "agent-" (fst e)))
              (snd d))) dirs in
  fold_left (fun acc d => fold_left (classify_body (fst d)) (snd d) acc)
    dirs acc
  = (fst acc ++
       map info_of
         (List.filter
            (fun e => empty_candidate (status_of e)
                      && negb (invalid_candidate (status_of e))) es),
     snd acc ++
       map info_of
         (List.filter (fun e => invalid_candidate (status_of e)) es)).
Proof.
  revert acc. induction dirs as [|d dirs IH]; intros acc.
  - cbn. rewrite !app_nil_r. now destruct acc.
  - cbn [fold_left flat_map]. rewrite IH, fold_classify. cbn zeta.
    cbn [fst snd]. rewrite !List.filter_app, !map_app, <- !app_assoc.
    reflexivity.
Qed.

(** The two result lists are two disjoint selections from the scanned
    files, in scan order. *)
Lemma find_cleanable_sessions_spec (t : tree)
  (project_name : option string) :
  let r := find_cleanable_sessions t project_name in
  let files := scanned_files t project_name in
  invalid_api_key_sessions r
  = map info_of
      (List.filter (fun e => invalid_candidate (status_of e)) files)
  /\ empty_sessions r
     = map info_of
         (List.filter
            (fun e => empty_candidate (status_of e)
                      && negb (invalid_candidate (status_of e))) files).
Proof.
  cbn zeta. unfold find_cleanable_sessions, scanned_files.
  rewrite fold_dirs. cbn zeta. cbn [fst snd app].
  split; reflexivity.
Qed.

Lemma disjoint_filters_length {A : Type} (p q : A -> bool) (l : list A) :
  (forall x, p x = true -> q x = true -> False) ->
  (length (List.filter p l) + length (List.filter q l) <= length l)%nat.
Proof.
  intros Hpq. induction l as [|x l IH]; [cbn; lia |].
  cbn [List.filter]. specialize (Hpq x).
  destruct (p x), (q x); cbn [length];
    first [lia | exfalso; now apply Hpq].
Qed.

(** A file that holds one summary record with the credential failure
    phrase and nothing else. *)
Lemma status_invalid_key_only (f : file) (line text : string)
  (members : list (string * json)) :
  f_fault f = None ->
  readlines (f_data f) = [line] ->
  strip line <> EmptyString ->
  loads (strip line) = Some (JObj members) ->
  Py.dict_get "type" members = Some (JStr "summary") ->
  Py.dict_get "summary" members = Some (JStr text) ->
  contains "Invalid API key" text = true ->
  check_session_status (Some f)
  = {| is_empty := true; has_invalid_api_key := true;
       has_messages := false; file_size := st_size f |}.
Proof.
  intros Hfault Hlines Hblank Hload Htype Hsum Hphrase.
  unfold check_session_status. cbn [file_size].
  assert (Hsize : (st_size f =? 0) = false).
  { apply Z.eqb_neq. rewrite st_size_zero. intros Hempty.
    now rewrite Hempty in Hlines. }
  rewrite Hsize. unfold for_line_in, delivered.
  rewrite Hfault, Hlines. cbn [run_lines]. unfold status_body.
  apply String.eqb_neq in Hblank. rewrite Hblank, Hload.
  cbn [Py.get bind]. rewrite Htype. cbn [Py.eq_str].
  replace (String.eqb "summary" "summary") with true by reflexivity.
  cbn [bind]. rewrite Hsum. cbn [Py.contains bind]. rewrite Hphrase.
  replace (String.eqb "summary" "user") with false by reflexivity.
  replace (String.eqb "summary" "assistant") with false by reflexivity.
  reflexivity.
Qed.

(** C7.  The cleanup planner puts every scanned session file in at most
    one bucket: the invalid_api_key bucket holds exactly the scanned files
    with [has_invalid_api_key] and without [has_messages]; the empty
    bucket holds exactly the scanned files with [is_empty] or
    [file_size = 0] that are not in the invalid_api_key bucket.  A file
    that holds only a summary record whose text contains the phrase
    [Invalid API key] satisfies the first rule and not the second. *)
Theorem cleanup_buckets_exclusive (t : tree) (project_name : option string) :
  let r := find_cleanable_sessions t project_name in
  let files := scanned_files t project_name in
  let invalid := fun e => invalid_candidate (status_of e) in
  let empty := fun e =>
    empty_candidate (status_of e) && negb (invalid_candidate (status_of e)) in
  invalid_api_key_sessions r = map info_of (List.filter invalid files)
  /\ empty_sessions r = map info_of (List.filter empty files)
  /\ (forall e, invalid e = true -> empty e = true -> False)
  /\ 0 <= total_count r <= Z.of_nat (length files)
  /\ (forall (f : file) (line text : string)
             (members : list (string * json)) (project name : string),
        f_fault f = None ->
        readlines (f_data f) = [line] ->
        strip line <> EmptyString ->
        loads (strip line) = Some (JObj members) ->
        Py.dict_get "type" members = Some (JStr "summary") ->
        Py.dict_get "summary" members = Some (JStr text) ->
        contains "Invalid API key" text = true ->
        invalid (project, (name, f)) = true
        /\ empty (project, (name, f)) = false).
Proof.
  cbn zeta.
  destruct (find_cleanable_sessions_spec t project_name) as [Hinv Hemp].
  assert (Hdisj : forall e : string * (string * file),
             invalid_candidate (status_of e) = true ->
             empty_candidate (status_of e)
             && negb (invalid_candidate (status_of e)) = true -> False).
  { intros e Hi He. rewrite Hi, andb_false_r in He. discriminate. }
  split; [exact Hinv |]. split; [exact Hemp |]. split; [exact Hdisj |].
  split.
  - assert (Htotal : total_count (find_cleanable_sessions t project_name)
                     = Z.of_nat (length (empty_sessions
                                   (find_cleanable_sessions t project_name)))
                       + Z.of_nat (length (invalid_api_key_sessions
                                   (find_cleanable_sessions t project_name)))).
    { unfold find_cleanable_sessions.
      destruct (fold_left _ _ _) as [em inv]. reflexivity. }
    rewrite Htotal, Hinv, Hemp, !length_map.
    pose proof (disjoint_filters_length _ _
                  (scanned_files t project_name) Hdisj).
    lia.
  - intros f line text members project name Hfault Hlines Hblank Hload
      Htype Hsum Hphrase.
    unfold status_of. cbn [snd].
    rewrite (status_invalid_key_only f line text members) by assumption.
    split; reflexivity.
Qed.

End StatusProofs.

(* ===================================================================== *)
(** * The statements at concrete transcripts *)
(* ===================================================================== *)

Lemma cleanup_buckets_exclusive_witness :
  invalid_candidate
    (@status_of py_json ("proj", ("s1.jsonl", Ex.invalid_key_file))) = true
  /\ empty_candidate
       (@status_of py_json ("proj", ("s1.jsonl", Ex.invalid_key_file)))
     && negb (invalid_candidate
                (@status_of py_json ("proj", ("s1.jsonl", Ex.invalid_key_file))))
     = false.
Proof.
  pose proof (@cleanup_buckets_exclusive py_json
                (Ex.one_project "s1.jsonl" Ex.invalid_key_file) None)
    as (_ & _ & _ & _ & Hone).
  apply (Hone Ex.invalid_key_file
           (jtext Ex.invalid_key_line ++ nl)%string
           "Invalid API key detected"
           [("type", JStr "summary");
            ("summary", JStr "Invalid API key detected")]
           "proj" "s1.jsonl");
    solve [ vm_compute; reflexivity | vm_compute; discriminate ].
Defined.

(* ===================================================================== *)
(** * Soft delete *)
(* ===================================================================== *)

Lemma session_backup_paths_differ (base project_name session_id : string) :
  session_file base project_name session_id
  <> backup_file base project_name session_id.
Proof.
  intros Heq. apply (f_equal String.length) in Heq.
  unfold session_file, backup_file, backup_dir in Heq.
  rewrite !length_append in Heq. cbn [String.length] in Heq. lia.
Qed.

(** A missing session file: [False], and nothing is created. *)
Lemma delete_session_missing (base project_name session_id : string)
  (m : fs) :
  m !! session_file base project_name session_id = None ->
  delete_session base project_name session_id m = (Return false, m).
Proof. intros Hnone. unfold delete_session. now rewrite Hnone. Qed.

(** C10.  When [.bak] already holds a file with the backup name of the
    session, deleting the session again replaces that backup with the file
    just deleted, the earlier backup is gone, and the result is [True]. *)
Theorem delete_session_overwrites_backup
  (base project_name session_id : string) (m : fs) (current earlier : file) :
  m !! session_file base project_name session_id = Some (File current) ->
  m !! backup_dir base = Some Dir ->
  m !! backup_file base project_name session_id = Some (File earlier) ->
  exists m' : fs,
    delete_session base project_name session_id m = (Return true, m')
    /\ m' !! backup_file base project_name session_id = Some (File current)
    /\ m' !! session_file base project_name session_id = None
    /\ (forall path,
          path <> session_file base project_name session_id ->
          path <> backup_file base project_name session_id ->
          m' !! path = m !! path).
Proof.
  intros Hsrc Hdir Hdst.
  exists (<[backup_file base project_name session_id := File current]>
            (delete (session_file base project_name session_id) m)).
  pose proof (session_backup_paths_differ base project_name session_id)
    as Hne.
  split; [| split; [| split]].
  - unfold delete_session, mkdir_exist_ok, rename_path.
    now rewrite Hsrc, Hdir, Hsrc, Hdst.
  - apply lookup_insert_eq.
  - rewrite lookup_insert_ne by congruence. apply lookup_delete_eq.
  - intros path Hp1 Hp2.
    rewrite lookup_insert_ne by congruence.
    now rewrite lookup_delete_ne by congruence.
Qed.

Lemma delete_session_overwrites_backup_witness :
  let m : fs :=
    <[session_file Ex.base "proj" "s1" := File Ex.timed_file]>
      (<[backup_file Ex.base "proj" "s1" := File Ex.untimed_file]>
         (<[backup_dir Ex.base := Dir]> ∅)) in
  exists m' : fs,
    delete_session Ex.base "proj" "s1" m = (Return true, m')
    /\ m' !! backup_file Ex.base "proj" "s1" = Some (File Ex.timed_file)
    /\ m' !! session_file Ex.base "proj" "s1" = None
    /\ (forall path,
          path <> session_file Ex.base "proj" "s1" ->
          path <> backup_file Ex.base "proj" "s1" ->
          m' !! path = m !! path).
Proof.
  cbn zeta.
  apply (delete_session_overwrites_backup Ex.base "proj" "s1" _
           Ex.timed_file Ex.untimed_file).
  - apply lookup_insert_eq.
  - rewrite lookup_insert_ne by (vm_compute; discriminate).
    rewrite lookup_insert_ne by (vm_compute; discriminate).
    apply lookup_insert_eq.
  - rewrite lookup_insert_ne by (vm_compute; discriminate).
    apply lookup_insert_eq.
Defined.

(** C8.  The session file exists and [.bak] exists as a regular file:
    [mkdir(exist_ok=True)] raises [FileExistsError], [delete_session] has no
    handler for it, and neither has the tool call around it; the exception
    reaches the caller and no [success] flag is produced. *)
Theorem delete_session_raises :
  Ex.bak_is_a_file !! session_file Ex.base "proj" "s1"
  = Some (File Ex.timed_file)
  /\ call_tool_delete_session Ex.base "proj" "s1" Ex.bak_is_a_file
     = (Raise FileExistsError, Ex.bak_is_a_file).
Proof.
  assert (Hsrc : Ex.bak_is_a_file !! session_file Ex.base "proj" "s1"
                 = Some (File Ex.timed_file)).
  { apply lookup_insert_eq. }
  assert (Hbak : Ex.bak_is_a_file !! backup_dir Ex.base
                 = Some (File Ex.untimed_file)).
  { unfold Ex.bak_is_a_file.
    rewrite lookup_insert_ne by (vm_compute; discriminate).
    apply lookup_insert_eq. }
  split; [exact Hsrc |].
  unfold call_tool_delete_session, delete_session, mkdir_exist_ok.
  now rewrite Hsrc, Hbak.
Qed.

(* ===================================================================== *)
(** * Listing *)
(* ===================================================================== *)

(** C2.  A project with two sessions, one of which has no timestamp: the
    summary always carries the key [updated_at], here with [None], so the
    default of the sort key is never used, the sort compares [None] with a
    string, and [get_sessions] raises [TypeError] instead of returning the
    list with the session without timestamp last. *)
Theorem get_sessions_raises_without_timestamp :
  @parse_session_summary py_json "b" Ex.untimed_file
  = Some {| session_id := "b"; title := "Session b"; message_count := 1;
            created_at := JNull; updated_at := JNull |}
  /\ sort_key {| session_id := "b"; title := "Session b"; message_count := 1;
                 created_at := JNull; updated_at := JNull |} = JNull
  /\ @get_sessions py_json Ex.two_sessions "proj" = Raise TypeError.
Proof. repeat split; vm_compute; reflexivity. Qed.

(* ===================================================================== *)
(** * Dicts *)
(* ===================================================================== *)

Lemma dict_get_set_eq (k : string) (v : json) (kvs : list (string * json)) :
  Py.dict_get k (Py.dict_set k v kvs) = Some v.
Proof.
  induction kvs as [|[k' v'] kvs IH]; cbn [Py.dict_set Py.dict_get].
  - now rewrite String.eqb_refl.
  - destruct (String.eqb k' k) eqn:Hk; cbn [Py.dict_get]; now rewrite Hk.
Qed.

Lemma dict_get_set_ne (k k' : string) (v : json)
  (kvs : list (string * json)) :
  k <> k' -> Py.dict_get k' (Py.dict_set k v kvs) = Py.dict_get k' kvs.
Proof.
  intros Hne. induction kvs as [|[k0 v0] kvs IH];
    cbn [Py.dict_set Py.dict_get].
  - apply String.eqb_neq in Hne. now rewrite Hne.
  - destruct (String.eqb k0 k) eqn:Hk; cbn [Py.dict_get].
    + apply String.eqb_eq in Hk. subst k0.
      apply String.eqb_neq in Hne. now rewrite Hne.
    + now rewrite IH.
Qed.

Lemma dict_set_idem (k : string) (v w : json) (kvs : list (string * json)) :
  Py.dict_set k v (Py.dict_set k w kvs) = Py.dict_set k v kvs.
Proof.
  induction kvs as [|[k' v'] kvs IH]; cbn [Py.dict_set].
  - now rewrite String.eqb_refl.
  - destruct (String.eqb k' k) eqn:Hk; cbn [Py.dict_set]; rewrite Hk;
      congruence.
Qed.


Lemma is_text_item_set_text (kvs : list (string * json)) (v : json) :
  Py.is_text_item (JObj (Py.dict_set "text" v kvs))
  = Py.is_text_item (JObj kvs).
Proof.
  unfold Py.is_text_item. now rewrite dict_get_set_ne by discriminate.
Qed.

Lemma chars_not_text (s : string) (item : json) :
  In item (Py.chars s) -> Py.is_text_item item = false.
Proof.
  induction s as [|c s IH]; cbn [Py.chars In]; [tauto |].
  intros [<- | Hin]; [reflexivity | now apply IH].
Qed.

Lemma keys_not_text (kvs : list (string * json)) (item : json) :
  In item (map (fun kv : string * json => JStr (fst kv)) kvs) ->
  Py.is_text_item item = false.
Proof.
  intros Hin. apply in_map_iff in Hin as (kv & <- & _). reflexivity.
Qed.

(* ===================================================================== *)
(** * Session Rewriter: the branch without an enqueue message *)
(* ===================================================================== *)






(* ===================================================================== *)
(** * Session Summarizer *)
(* ===================================================================== *)

Section SummaryProofs.

Context `{Codec}.

Lemma texts_of_items_nonempty (items : list json) (t : string) :
  In t (texts_of_items items) -> String.eqb t EmptyString = false.
Proof.
  induction items as [|item items IH]; cbn [texts_of_items];
    [intros [] |].
  unfold eligible_text at 1.
  destruct (Py.is_text_item item); [|exact IH].
  destruct (Py.get item "text" (JStr EmptyString)) as [[| | |s| |]|];
    try exact IH.
  destruct (String.eqb (cleaned s) EmptyString) eqn:Hs; [exact IH |].
  intros [<- | Hin]; [exact Hs | now apply IH].
Qed.

(** The loop over the items stops at the first eligible text. *)
Lemma first_text_spec (items : list json) (found : option string) :
  first_text items = Return found ->
  found = List.hd_error (texts_of_items items).
Proof.
  induction items as [|item items IH]; cbn [first_text texts_of_items].
  - now intros [= <-].
  - unfold eligible_text. destruct (Py.is_text_item item); [|exact IH].
    destruct (Py.get item "text" (JStr EmptyString)) as [raw|];
      [|discriminate].
    cbn [bind]. destruct raw as [| | |s| |]; try discriminate.
    cbn [Py.str_receiver bind]. fold (cleaned s).
    destruct (String.eqb (cleaned s) EmptyString); cbn [negb].
    + exact IH.
    + now intros [= <-].
Qed.

Lemma fold_timestamp_keeps (timestamp : json) (info info' : summary) :
  fold_timestamp timestamp info = Return info' ->
  title info' = title info /\ session_id info' = session_id info
  /\ message_count info' = message_count info.
Proof.
  unfold fold_timestamp. destruct (Py.truthy timestamp).
  2:{ now intros [= <-]. }
  destruct (if negb (Py.truthy (created_at info)) then Return true
            else Py.lt timestamp (created_at info)) as [lo|];
    [|discriminate].
  cbn [bind].
  match goal with
  | |- bind ?c _ = _ -> _ => destruct c as [hi|]; [|discriminate]
  end.
  cbn [bind]. intros [= <-]. destruct lo, hi; cbn; auto.
Qed.

Lemma not_user_line_no_items (line : string) :
  is_user_line line = false -> user_items line = [].
Proof. unfold user_items. now intros ->. Qed.

(** One turn of the loop: the title and the identifier are not touched,
    and the first user text, once found, is kept. *)
Lemma summary_body_spec (info info' : summary)
  (fuc fuc' : option string) (line : string) :
  summary_body (info, fuc) line = Return (info', fuc') ->
  title info' = title info
  /\ session_id info' = session_id info
  /\ fuc' = match fuc with
            | Some c => Some c
            | None => List.hd_error (texts_of_items (user_items line))
            end.
Proof.
  unfold summary_body.
  destruct (String.eqb (strip line) EmptyString) eqn:Hblank.
  { intros [= <- <-]. repeat split; [].
    destruct fuc; [reflexivity |].
    rewrite not_user_line_no_items; [reflexivity |].
    unfold is_user_line, record_type. now rewrite Hblank. }
  destruct (loads (strip line)) as [entry|] eqn:Hload.
  2:{ intros [= <- <-]. repeat split; [].
      destruct fuc; [reflexivity |].
      rewrite not_user_line_no_items; [reflexivity |].
      unfold is_user_line, record_type. now rewrite Hblank, Hload. }
  destruct entry as [| | | | |members]; try discriminate.
  cbn [Py.get bind].
  set (ty := match Py.dict_get "type" members with
             | Some v => v
             | None => JNull
             end).
  assert (Huser : is_user_line line = Py.eq_str ty "user").
  { unfold is_user_line, record_type. now rewrite Hblank, Hload. }
  destruct (Py.eq_str ty "user" || Py.eq_str ty "assistant") eqn:Hdialogue.
  2:{ intros [= <- <-]. repeat split; [].
      destruct fuc; [reflexivity |].
      rewrite not_user_line_no_items; [reflexivity |].
      rewrite Huser. now apply orb_false_iff in Hdialogue. }
  match goal with
  | |- bind (fold_timestamp ?ts ?i) _ = _ -> _ =>
      destruct (fold_timestamp ts i) as [info1|] eqn:Hfold; [|discriminate]
  end.
  apply fold_timestamp_keeps in Hfold as (Ht & Hs & _).
  cbn [title session_id] in Ht, Hs. cbn [bind].
  destruct fuc as [c|].
  { intros [= <- <-]. auto. }
  destruct (Py.eq_str ty "user") eqn:Hty.
  2:{ intros [= <- <-]. repeat split; auto.
      rewrite not_user_line_no_items; [reflexivity | exact Huser]. }
  unfold user_items. rewrite Huser, Hload. cbn [Py.get bind].
  match goal with
  | |- bind ?c _ = _ -> _ => destruct c as [content_list|]; [|discriminate]
  end.
  cbn [bind].
  destruct (Py.iter content_list) as [items|]; [|discriminate].
  cbn [bind].
  destruct (first_text items) as [found|] eqn:Hfound; [|discriminate].
  cbn [bind]. intros [= <- <-].
  repeat split; auto. now apply first_text_spec.
Qed.

Lemma hd_error_app {A : Type} (xs ys : list A) :
  List.hd_error (xs ++ ys)
  = match List.hd_error xs with
    | Some x => Some x
    | None => List.hd_error ys
    end.
Proof. destruct xs; reflexivity. Qed.

Lemma run_summary_spec (ls : list string) (info info' : summary)
  (fuc fuc' : option string) :
  run_lines summary_body (info, fuc) ls = ((info', fuc'), None) ->
  title info' = title info
  /\ session_id info' = session_id info
  /\ fuc' = match fuc with
            | Some c => Some c
            | None => List.hd_error (eligible_texts ls)
            end.
Proof.
  revert info fuc. induction ls as [|l ls IH]; intros info fuc.
  - cbn. intros [= <- <-]. now destruct fuc.
  - cbn [run_lines].
    destruct (summary_body (info, fuc) l) as [[info1 fuc1]|e] eqn:Hstep;
      [|discriminate].
    intros Hrun. apply summary_body_spec in Hstep as (Ht1 & Hs1 & Hf1).
    apply IH in Hrun as (Ht & Hs & Hf).
    split; [congruence |]. split; [congruence |].
    subst fuc' fuc1. destruct fuc as [c|]; [reflexivity |].
    unfold eligible_texts. cbn [flat_map]. rewrite hd_error_app.
    now destruct (List.hd_error (texts_of_items (user_items l))).
Qed.

Lemma eligible_texts_nonempty (ls : list string) (t : string) :
  In t (eligible_texts ls) -> String.eqb t EmptyString = false.
Proof.
  unfold eligible_texts. intros Hin.
  apply in_flat_map in Hin as (l & _ & Hin).
  now apply texts_of_items_nonempty in Hin.
Qed.

Lemma title_of_text_length (t : string) :
  (String.length (title_of_text t) <= 100)%nat.
Proof.
  unfold title_of_text.
  destruct (contains nlnl t); [apply slice_to_length |].
  destruct (contains nl t); apply slice_to_length.
Qed.

Lemma default_title_length (sid : string) :
  (String.length (default_title sid) <= 100)%nat.
Proof.
  unfold default_title. rewrite length_append.
  pose proof (slice_to_length 8 sid). cbn [String.length]. lia.
Qed.

(** C3, as amended.  The title of a summary comes from the first text
    item, over the user records in file order and the items of a record in
    order, whose text is not empty once it is stripped, freed of the IDE tag
    blocks and stripped again; records and items whose cleaned text is
    empty are passed over.  That text is cut before the first blank line if
    it has one, else at the first line feed if it has one, else taken
    whole, and then cut to 100 characters.  Without such a text the title
    is the word Session, a blank and the first 8 characters of the session
    identifier. *)
Theorem summary_title_rule (sid : string) (f : file) (info : summary) :
  parse_session_summary sid f = Some info ->
  session_id info = sid
  /\ title info
     = match eligible_texts (delivered f) with
       | t :: _ =>
           slice_to 100
             (if contains nlnl t then split_head nlnl t
              else if contains nl t then split_head nl t
              else t)
       | [] => ("Session " ++ slice_to 8 sid)%string
       end
  /\ (String.length (title info) <= 100)%nat.
Proof.
  unfold parse_session_summary, for_line_in.
  destruct (run_lines summary_body _ (delivered f))
    as [[info1 fuc1] [e|]] eqn:Hrun; [discriminate |].
  destruct (f_fault f); [discriminate |].
  apply run_summary_spec in Hrun as (Ht & Hs & Hf).
  cbn [title session_id] in Ht, Hs.
  assert (Hne : forall c, fuc1 = Some c -> String.eqb c EmptyString = false).
  { intros c Hc. apply (eligible_texts_nonempty (delivered f)).
    rewrite Hf in Hc. destruct (eligible_texts (delivered f)) as [|x xs];
      [discriminate |]. injection Hc as ->. now left. }
  destruct fuc1 as [c|].
  - rewrite (Hne c eq_refl). cbn [negb message_count].
    destruct (message_count info1 >? 0); [|discriminate].
    intros [= <-]. cbn [session_id title].
    destruct (eligible_texts (delivered f)) as [|x xs]; [discriminate |].
    injection Hf as <-.
    split; [exact Hs |]. split.
    + unfold title_of_text.
      destruct (contains nlnl c); [reflexivity |].
      now destruct (contains nl c).
    + apply title_of_text_length.
  - destruct (message_count info1 >? 0); [|discriminate].
    intros [= <-].
    destruct (eligible_texts (delivered f)) as [|x xs]; [|discriminate].
    split; [exact Hs |]. rewrite Ht. split.
    + reflexivity.
    + apply default_title_length.
Qed.

End SummaryProofs.

Lemma summary_title_rule_witness :
  @parse_session_summary py_json "0123456789abcdef" Ex.ide_first_file
  = Some Ex.ide_first_summary
  /\ session_id Ex.ide_first_summary = "0123456789abcdef"
  /\ title Ex.ide_first_summary
     = match @eligible_texts py_json (delivered Ex.ide_first_file) with
       | t :: _ =>
           slice_to 100
             (if contains nlnl t then split_head nlnl t
              else if contains nl t then split_head nl t
              else t)
       | [] => ("Session " ++ slice_to 8 "0123456789abcdef")%string
       end
  /\ (String.length (title Ex.ide_first_summary) <= 100)%nat.
Proof.
  assert (Hrun : @parse_session_summary py_json "0123456789abcdef"
                   Ex.ide_first_file = Some Ex.ide_first_summary).
  { vm_compute. reflexivity. }
  split; [exact Hrun |].
  exact (@summary_title_rule py_json "0123456789abcdef" Ex.ide_first_file
           Ex.ide_first_summary Hrun).
Defined.

(** The first user record with a text item holds only an IDE tag block,
    the second one holds the question.  The summarizer goes on to the
    second record and takes the title from it; the rule that inspects only
    the first record gives the default title. *)
Lemma title_taken_from_second_record :
  option_map title
    (@parse_session_summary py_json "0123456789abcdef" Ex.ide_first_file)
  = Some "Real question"
  /\ @described_title py_json "0123456789abcdef" (delivered Ex.ide_first_file)
     = "Session 01234567".
Proof. split; vm_compute; reflexivity. Qed.

(* ===================================================================== *)
(** * Session Rewriter: the branch with an enqueue message *)
(* ===================================================================== *)

Section EnqueueProofs.

Context `{Codec}.

Lemma ide_text_item_text (item : json) :
  ide_text_item item = true ->
  Py.is_text_item item = true
  /\ exists t, Py.get item "text" (JStr EmptyString) = Return (JStr t)
             /\ startswith "<ide_" (strip t) = true.
Proof.
  unfold ide_text_item. intros Hide.
  apply andb_true_iff in Hide as [Htext Hstart]. split; [exact Htext |].
  destruct (Py.get item "text" (JStr EmptyString)) as [[| | |t| |]|];
    try discriminate.
  now exists t.
Qed.

(** When every text item starts with an IDE tag, the search for a plain
    text item finds none. *)
Lemma find_text_idx_none (idx : Z) (items : list json) :
  (forall item, In item items ->
                Py.is_text_item item = true -> ide_text_item item = true) ->
  find_text_idx idx items = Return (-1).
Proof.
  revert idx. induction items as [|item items IH]; intros idx Hall;
    [reflexivity |].
  cbn [find_text_idx].
  destruct (Py.is_text_item item) eqn:Htext.
  - destruct (ide_text_item_text item (Hall item (or_introl eq_refl) Htext))
      as (_ & t & Hget & Hstart).
    rewrite Hget. cbn [bind Py.str_receiver]. rewrite Hstart.
    apply IH. intros x Hx. apply Hall. now right.
  - apply IH. intros x Hx. apply Hall. now right.
Qed.

Lemma find_insert_pos_spec (k : nat) (insert_pos : Z) (items : list json) :
  (forall item, In item items ->
                Py.is_text_item item = true -> ide_text_item item = true) ->
  find_insert_pos (Z.of_nat k) insert_pos items
  = Return (match last_ide items with
            | Some j => Z.of_nat (k + S j)
            | None => insert_pos
            end).
Proof.
  revert k insert_pos.
  induction items as [|item items IH]; intros k insert_pos Hall;
    [reflexivity |].
  assert (Hrest : forall x, In x items ->
                    Py.is_text_item x = true -> ide_text_item x = true).
  { intros x Hx. apply Hall. now right. }
  cbn [find_insert_pos last_ide].
  replace (Z.of_nat k + 1) with (Z.of_nat (S k)) by lia.
  destruct (Py.is_text_item item) eqn:Htext.
  - pose proof (Hall item (or_introl eq_refl) Htext) as Hide.
    destruct (ide_text_item_text item Hide) as (_ & t & Hget & Hstart).
    rewrite Hget. cbn [bind Py.str_receiver]. rewrite Hstart, Hide.
    rewrite IH by exact Hrest.
    destruct (last_ide items) as [j|]; f_equal; lia.
  - assert (Hide : ide_text_item item = false).
    { unfold ide_text_item. now rewrite Htext. }
    rewrite Hide, IH by exact Hrest.
    destruct (last_ide items) as [j|]; f_equal; lia.
Qed.




(** The position the new item is put at. *)
Lemma merge_enqueue_spec (new_title original : string) (items : list json) :
  (forall item, In item items ->
                Py.is_text_item item = true -> ide_text_item item = true) ->
  let p := match last_ide items with Some j => S j | None => 0%nat end in
  merge_content new_title (Some original) (JArr items)
  = Return (JArr (firstn p items
                  ++ new_text_item new_title original :: skipn p items)).
Proof.
  intros Hall. cbn zeta. unfold merge_content. cbn [Py.iter bind].
  rewrite find_text_idx_none by exact Hall. cbn [bind].
  replace (-1 >=? 0) with false by reflexivity.
  pose proof (find_insert_pos_spec 0 0 items Hall) as Hpos.
  change (Z.of_nat 0) with 0 in Hpos. rewrite Hpos.
  cbn [bind Py.list_insert].
  destruct (last_ide items) as [j|].
  - now rewrite Nat2Z.id.
  - reflexivity.
Qed.

(** An enqueue message that has been captured is kept. *)
Lemma scan_body_keeps_message (i : Z) (sc : scan) (line m : string)
  (st : Z * scan) :
  original_message sc = Some m ->
  scan_body (i, sc) line = Return st ->
  original_message (snd st) = Some m.
Proof.
  intros Hm. unfold scan_body. rewrite Hm.
  destruct (negb (String.eqb (strip line) EmptyString)).
  2:{ intros [= <-]. exact Hm. }
  destruct (loads (strip line)) as [entry|].
  2:{ intros [= <-]. exact Hm. }
  destruct (Py.get entry "type" JNull); [|discriminate].
  cbn [bind]. intros [= <-]. reflexivity.
Qed.

End EnqueueProofs.

(* ===================================================================== *)
(** * Session Rewriter: the scan and the write *)
(* ===================================================================== *)

Section RenameProofs.

Context `{Codec}.

Lemma scan_body_spec (i i' : Z) (sc sc' : scan) (line : string) :
  scan_body (i, sc) line = Return (i', sc') ->
  i' = i + 1
  /\ first_user_idx sc'
     = if is_user_line line && (first_user_idx sc =? -1) then i
       else first_user_idx sc.
Proof.
  unfold scan_body, is_user_line, record_type.
  destruct (String.eqb (strip line) EmptyString); cbn [negb].
  { now intros [= <- <-]. }
  destruct (loads (strip line)) as [entry|].
  2:{ now intros [= <- <-]. }
  destruct entry as [| | | | |members]; try discriminate.
  cbn [Py.get bind].
  match goal with
  | |- bind ?c _ = _ -> _ => destruct c as [om|]; [|discriminate]
  end.
  cbn [bind]. now intros [= <- <-].
Qed.

Lemma run_scan_spec (ls : list string) (i i' : Z) (sc sc' : scan) :
  0 <= i ->
  run_lines scan_body (i, sc) ls = ((i', sc'), None) ->
  first_user_idx sc'
  = if first_user_idx sc =? -1 then
      match first_user_line ls with
      | Some k => i + Z.of_nat k
      | None => -1
      end
    else first_user_idx sc.
Proof.
  revert i sc. induction ls as [|l ls IH]; intros i sc Hi.
  - cbn. intros [= <- <-]. destruct (first_user_idx sc =? -1) eqn:Hidx;
      [|reflexivity]. now apply Z.eqb_eq in Hidx.
  - cbn [run_lines first_user_line].
    destruct (scan_body (i, sc) l) as [[i1 sc1]|] eqn:Hstep; [|discriminate].
    apply scan_body_spec in Hstep as [-> Hidx1].
    intros Hrun. apply IH in Hrun; [|lia]. rewrite Hrun, Hidx1.
    destruct (first_user_idx sc =? -1) eqn:Hidx.
    + destruct (is_user_line l); cbn [andb].
      * replace (i =? -1) with false by (symmetry; apply Z.eqb_neq; lia).
        lia.
      * apply Z.eqb_eq in Hidx. rewrite Hidx, Z.eqb_refl.
        destruct (first_user_line ls); cbn [option_map]; lia.
    + rewrite andb_false_r. now rewrite Hidx.
Qed.

Lemma first_user_line_some (ls : list string) (k : nat) :
  first_user_line ls = Some k ->
  (exists l, nth_error ls k = Some l /\ is_user_line l = true)
  /\ (forall j l, (j < k)%nat -> nth_error ls j = Some l ->
                  is_user_line l = false).
Proof.
  revert k. induction ls as [|x ls IH]; intros k; cbn [first_user_line];
    [discriminate |].
  destruct (is_user_line x) eqn:Hx.
  - intros [= <-]. split; [now exists x | intros j l Hj; lia].
  - destruct (first_user_line ls) as [k'|]; [|discriminate].
    cbn [option_map]. intros [= <-].
    destruct (IH k' eq_refl) as [Hat Hbefore]. split; [exact Hat |].
    intros [|j] l Hj; cbn [nth_error].
    + now intros [= <-].
    + apply Hbefore. lia.
Qed.

(** The scan of a whole file finds the first line with a user record. *)
Lemma scan_of_first_user (f : file) (sc : scan) :
  scan_of f = Return sc ->
  f_fault f = None
  /\ first_user_idx sc
     = match first_user_line (readlines (f_data f)) with
       | Some k => Z.of_nat k
       | None => -1
       end.
Proof.
  unfold scan_of, for_line_in, delivered.
  destruct (f_fault f).
  { destruct (run_lines _ _ _) as [[i sc1] [e|]]; discriminate. }
  destruct (run_lines _ _ _) as [[i sc1] [e|]] eqn:Hrun; [discriminate |].
  intros [= <-]. split; [reflexivity |].
  apply run_scan_spec in Hrun; [|lia]. cbn [first_user_idx Z.eqb] in Hrun.
  rewrite Hrun. now destruct (first_user_line _).
Qed.

(** What a successful [try] block has done. *)
Lemma rewrite_lines_spec (t : string) (f : file) (lines' : list string) :
  rewrite_lines t f = Return (Some lines') ->
  exists (sc : scan) (k : nat) (line : string) (entry entry' : json),
    scan_of f = Return sc
    /\ first_user_line (readlines (f_data f)) = Some k
    /\ nth_error (readlines (f_data f)) k = Some line
    /\ loads (strip line) = Some entry
    /\ rewrite_entry t (original_message sc) entry = Return entry'
    /\ lines' = <[k := (dumps entry' ++ nl)%string]> (readlines (f_data f)).
Proof.
  unfold rewrite_lines. intros Hrun.
  destruct (for_line_in f scan_body _) as [[i sc] [e|]] eqn:Hscan;
    [discriminate |].
  assert (Hof : scan_of f = Return sc).
  { unfold scan_of. now rewrite Hscan. }
  destruct (scan_of_first_user f sc Hof) as [Hfault Hidx].
  destruct (first_user_idx sc =? -1) eqn:Hnone; [discriminate |].
  apply Z.eqb_neq in Hnone.
  destruct (first_user_line (readlines (f_data f))) as [k|] eqn:Hk;
    [|congruence].
  rewrite Hidx, Nat2Z.id in Hrun. unfold delivered in Hrun.
  rewrite Hfault in Hrun.
  destruct (nth_error (readlines (f_data f)) k) as [line|] eqn:Hline;
    [|discriminate].
  destruct (loads (strip line)) as [entry|] eqn:Hload; [|discriminate].
  destruct (rewrite_entry t (original_message sc) entry) as [entry'|] eqn:He;
    [|discriminate].
  cbn [bind] in Hrun. injection Hrun as <-.
  now exists sc, k, line, entry, entry'.
Qed.

(** The conditions under which the [try] block succeeds. *)
Lemma rewrite_lines_ok (t : string) (f : file) (sc : scan) (k : nat)
  (line : string) (entry entry' : json) :
  scan_of f = Return sc ->
  first_user_line (readlines (f_data f)) = Some k ->
  nth_error (readlines (f_data f)) k = Some line ->
  loads (strip line) = Some entry ->
  rewrite_entry t (original_message sc) entry = Return entry' ->
  rewrite_lines t f
  = Return (Some (<[k := (dumps entry' ++ nl)%string]>
                    (readlines (f_data f)))).
Proof.
  intros Hof Hk Hline Hload He.
  destruct (scan_of_first_user f sc Hof) as [Hfault Hidx].
  rewrite Hk in Hidx. unfold rewrite_lines. unfold scan_of in Hof.
  destruct (for_line_in f scan_body _) as [[i sc1] [e|]]; [discriminate |].
  injection Hof as ->. rewrite Hidx.
  replace (Z.of_nat k =? -1) with false by (symmetry; apply Z.eqb_neq; lia).
  rewrite Nat2Z.id. unfold delivered. rewrite Hfault, Hline, Hload, He.
  reflexivity.
Qed.

Lemma insert_split {A : Type} (l : list A) (k : nat) (old new : A) :
  nth_error l k = Some old ->
  l = firstn k l ++ old :: skipn (S k) l
  /\ <[k := new]> l = firstn k l ++ new :: skipn (S k) l.
Proof.
  revert k. induction l as [|x l IH]; intros [|k]; cbn; try discriminate.
  - now intros [= ->].
  - intros Hk. destruct (IH k Hk) as [H1 H2].
    split; f_equal; assumption.
Qed.



(** A successful [try] block is a successful rename. *)
Lemma rename_session_ok (base project_name session_id t : string) (m : fs)
  (f : file) (lines' : list string) :
  m !! session_file base project_name session_id = Some (File f) ->
  rewrite_lines t f = Return (Some lines') ->
  rename_session base project_name session_id t m
  = (true,
     <[session_file base project_name session_id :=
         File {| f_chars := writelines lines'; f_fault := None |}]> m).
Proof.
  intros Hm Hrun. unfold rename_session, rename_session_on. rewrite Hm.
  cbn [open_read bind]. now rewrite Hrun.
Qed.


End RenameProofs.



(** The branch that finds a text item, at the file that says hello. *)
Lemma rename_prefixes_first_text :
  @rename_session py_json Ex.base "proj" "s1" "Title" Ex.hello_fs
  = (true,
     <[session_file Ex.base "proj" "s1" :=
         File {| f_chars :=
                   (RefJson.dumps (Ex.hello_with ("Title" ++ nlnl ++ "hello"))
                    ++ nl)%string;
                 f_fault := None |}]> Ex.hello_fs).
Proof. vm_compute. reflexivity. Qed.


(** A first user record whose content is [null]: the loop over the
    content raises [TypeError] and the rename reports failure. *)
Lemma rename_fails_on_null_content :
  rewrite_entry "Title" None
    (JObj [("type", JStr "user"); ("message", JObj [("content", JNull)])])
  = Raise TypeError
  /\ @rename_session py_json Ex.base "proj" "s1" "Title"
       Queued.null_content_fs
     = (false, Queued.null_content_fs).
Proof. split; vm_compute; reflexivity. Qed.

(** A first user record without a [message]: storing the content raises
    [KeyError] and the rename reports failure. *)
Lemma rename_without_message_fails :
  rewrite_entry "Title" None (JObj [("type", JStr "user")]) = Raise KeyError
  /\ @rename_session py_json Ex.base "proj" "s1" "Title" Ex.no_message_fs
     = (false, Ex.no_message_fs).
Proof. split; vm_compute; reflexivity. Qed.

(** A file whose [open] fails: the status keeps its initial values and the
    size of the file. *)
Lemma locked_file_status :
  @check_session_status py_json (Some Ex.locked_file)
  = {| is_empty := true; has_invalid_api_key := false;
       has_messages := false; file_size := 17 |}.
Proof. vm_compute. reflexivity. Qed.

(* ===================================================================== *)
(** * Listing: the sort key and the comparison with [None] *)
(* ===================================================================== *)

(** The key [updated_at] is always present: the default of the sort key is
    never used. *)
Lemma sort_key_updated_at (s : summary) : sort_key s = updated_at s.
Proof. reflexivity. Qed.

Lemma lt_none_left (b : json) (r : bool) : Py.lt JNull b <> Return r.
Proof. destruct b; discriminate. Qed.

Lemma lt_none_right (a : json) (r : bool) : Py.lt a JNull <> Return r.
Proof. destruct a; discriminate. Qed.

Lemma insert_by_nonempty {A : Type} (key : A -> json) (x : A)
  (run run' : list A) :
  Py.insert_by key x run = Return run' -> run' <> [].
Proof.
  destruct run as [|y ys]; cbn [Py.insert_by].
  - now intros [= <-].
  - destruct (Py.lt (key x) (key y)) as [[|]|]; cbn [bind].
    + now intros [= <-].
    + destruct (Py.insert_by key x ys); cbn [bind]; [|discriminate].
      now intros [= <-].
    + discriminate.
Qed.

(** Once the run is not empty, an element whose key is [None] cannot be
    inserted. *)
Lemma sort_into_none_pending {A : Type} (key : A -> json)
  (run l r : list A) (x : A) :
  run <> [] -> In x l -> key x = JNull ->
  Py.sort_into key run l <> Return r.
Proof.
  revert run. induction l as [|h l IH]; intros run Hrun Hin Hkey;
    [destruct Hin |].
  cbn [Py.sort_into].
  destruct (Py.insert_by key h run) as [run'|] eqn:Hins; cbn [bind];
    [|discriminate].
  destruct Hin as [-> | Hin].
  - exfalso. destruct run as [|y ys]; [congruence |].
    cbn [Py.insert_by] in Hins. rewrite Hkey in Hins.
    destruct (Py.lt JNull (key y)) as [c|] eqn:Hlt;
      [now apply lt_none_left in Hlt | discriminate].
  - apply IH; [|exact Hin | exact Hkey].
    now apply insert_by_nonempty in Hins.
Qed.

(** Two or more elements, one of them with the key [None]: the sort does
    not return. *)
Lemma sort_into_none {A : Type} (key : A -> json) (l r : list A) (x : A) :
  (2 <= length l)%nat -> In x l -> key x = JNull ->
  Py.sort_into key [] l <> Return r.
Proof.
  destruct l as [|h [|h' l]]; cbn [length]; try lia.
  intros _ Hin Hkey. cbn [Py.sort_into Py.insert_by bind].
  destruct Hin as [-> | Hin].
  - cbn [Py.insert_by]. rewrite Hkey.
    destruct (Py.lt (key h') JNull) as [c|] eqn:Hlt;
      [now apply lt_none_right in Hlt | discriminate].
  - change (Py.sort_into key [h] (h' :: l) <> Return r).
    now apply (sort_into_none_pending key [h] (h' :: l) r x).
Qed.

Lemma sorted_none {A : Type} (key : A -> json) (reverse : bool)
  (l r : list A) (x : A) :
  (2 <= length l)%nat -> In x l -> key x = JNull ->
  Py.sorted key reverse l <> Return r.
Proof.
  intros Hlen Hin Hkey. unfold Py.sorted. destruct reverse.
  - destruct (Py.sort_into key [] (rev l)) as [r'|] eqn:Hsort;
      [|discriminate].
    exfalso. apply (sort_into_none key (rev l) r' x); try assumption.
    + now rewrite length_rev.
    + now apply in_rev in Hin.
  - now apply (sort_into_none key l r x).
Qed.

(** In a project with two or more sessions, one session without a
    timestamp is enough for the listing not to return. *)
Lemma get_sessions_none_key `{Codec} (t : tree) (project_name : string)
  (entries : list (string * file)) (s : summary) (r : list summary) :
  lookup_dir project_name t = Some entries ->
  (2 <= length (collect_sessions entries))%nat ->
  In s (collect_sessions entries) ->
  updated_at s = JNull ->
  get_sessions t project_name <> Return r.
Proof.
  intros Hdir Hlen Hin Hnone. unfold get_sessions. rewrite Hdir.
  apply (sorted_none sort_key true _ r s); try assumption.
Qed.

(* ===================================================================== *)
(** * The order of strings *)
(* ===================================================================== *)

Lemma ascii_compare_refl (c : ascii) : Ascii.compare c c = Eq.
Proof. unfold Ascii.compare. apply N.compare_refl. Qed.

Lemma string_compare_refl (s : string) : String.compare s s = Eq.
Proof.
  induction s as [|c s IH]; [reflexivity |].
  cbn [String.compare]. now rewrite ascii_compare_refl.
Qed.

Lemma string_compare_lt_trans (a b c : string) :
  String.compare a b = Lt -> String.compare b c = Lt ->
  String.compare a c = Lt.
Proof.
  revert b c. induction a as [|x a IH]; intros [|y b] [|z c];
    cbn [String.compare]; try congruence.
  destruct (Ascii.compare x y) eqn:Hxy; try discriminate;
    destruct (Ascii.compare y z) eqn:Hyz; try discriminate.
  - apply Ascii.compare_eq_iff in Hxy, Hyz. subst.
    rewrite ascii_compare_refl. apply IH.
  - apply Ascii.compare_eq_iff in Hxy. subst. now rewrite Hyz.
  - apply Ascii.compare_eq_iff in Hyz. subst. now rewrite Hxy.
  - intros _ _. unfold Ascii.compare in *.
    rewrite N.compare_lt_iff in Hxy, Hyz.
    assert (Hxz : (N_of_ascii x < N_of_ascii z)%N) by lia.
    apply N.compare_lt_iff in Hxz. now rewrite Hxz.
Qed.

Lemma ltb_irrefl (s : string) : String.ltb s s = false.
Proof. unfold String.ltb. now rewrite string_compare_refl. Qed.

Lemma ltb_trans (a b c : string) :
  String.ltb a b = true -> String.ltb b c = true -> String.ltb a c = true.
Proof.
  unfold String.ltb. intros Hab Hbc.
  destruct (String.compare a b) eqn:H1; try discriminate.
  destruct (String.compare b c) eqn:H2; try discriminate.
  now rewrite (string_compare_lt_trans a b c H1 H2).
Qed.

Lemma ltb_asym (a b : string) :
  String.ltb a b = true -> String.ltb b a = false.
Proof.
  intros Hab. destruct (String.ltb b a) eqn:Hba; [|reflexivity].
  pose proof (ltb_trans a b a Hab Hba) as Haa.
  now rewrite ltb_irrefl in Haa.
Qed.

Lemma leb_not_ltb (a b : string) :
  String.leb a b = negb (String.ltb b a).
Proof.
  unfold String.leb, String.ltb. rewrite (String.compare_antisym b a).
  now destruct (String.compare a b).
Qed.

(* ===================================================================== *)
(** * Session Summarizer: count and timestamps *)
(* ===================================================================== *)

Section SummaryCountProofs.

Context `{Codec}.

(** One turn of the loop: a line without a dialogue record leaves the
    state alone; a dialogue record counts one and folds its timestamp. *)
Lemma summary_body_cases (info info' : summary) (fuc fuc' : option string)
  (line : string) :
  summary_body (info, fuc) line = Return (info', fuc') ->
  (is_dialogue_line line = false /\ info' = info /\ fuc' = fuc)
  \/ (is_dialogue_line line = true
      /\ exists timestamp,
          fold_timestamp timestamp
            {| session_id := session_id info; title := title info;
               message_count := message_count info + 1;
               created_at := created_at info;
               updated_at := updated_at info |} = Return info').
Proof.
  unfold summary_body, is_dialogue_line, record_type.
  destruct (String.eqb (strip line) EmptyString).
  { intros [= <- <-]. left. repeat split; reflexivity. }
  destruct (loads (strip line)) as [entry|].
  2:{ intros [= <- <-]. left. repeat split; reflexivity. }
  destruct entry as [| | | | |members]; try discriminate.
  cbn [Py.get bind].
  destruct (Py.eq_str _ "user" || Py.eq_str _ "assistant").
  2:{ intros [= <- <-]. left. repeat split; reflexivity. }
  match goal with
  | |- bind (fold_timestamp ?ts ?i) _ = _ -> _ =>
      destruct (fold_timestamp ts i) as [info1|] eqn:Hfold; [|discriminate];
      intros Hrest; right; split; [reflexivity |]; exists ts
  end.
  cbn [bind] in Hrest.
  assert (info1 = info') as <-; [|exact Hfold].
  destruct fuc; [now injection Hrest |].
  destruct (Py.eq_str _ "user"); [|now injection Hrest].
  repeat match type of Hrest with
         | bind ?c _ = _ => destruct c; cbn [bind] in Hrest;
                            [|discriminate Hrest]
         end.
  now injection Hrest.
Qed.

Lemma run_summary_count (ls : list string) (info info' : summary)
  (fuc fuc' : option string) :
  run_lines summary_body (info, fuc) ls = ((info', fuc'), None) ->
  message_count info'
  = message_count info
    + Z.of_nat (length (List.filter is_dialogue_line ls)).
Proof.
  revert info fuc. induction ls as [|l ls IH]; intros info fuc.
  - cbn. intros [= <- <-]. lia.
  - cbn [run_lines List.filter].
    destruct (summary_body (info, fuc) l) as [[info1 fuc1]|] eqn:Hstep;
      [|discriminate].
    intros Hrun. apply IH in Hrun. rewrite Hrun.
    apply summary_body_cases in Hstep
      as [(-> & -> & _) | (-> & ts & Hfold)].
    + reflexivity.
    + apply fold_timestamp_keeps in Hfold as (_ & _ & ->).
      cbn [message_count length]. lia.
Qed.

Lemma filter_none {A : Type} (p : A -> bool) (l : list A) :
  (forall x, In x l -> p x = false) -> List.filter p l = [].
Proof.
  induction l as [|x l IH]; intros Hnone; [reflexivity |].
  cbn [List.filter]. rewrite (Hnone x) by now left.
  apply IH. intros y Hy. apply Hnone. now right.
Qed.

(** X1.  The message count of a summary is the number of lines that
    hold a user or an assistant record, and a summary is only returned
    when there is at least one. *)
Theorem summary_counts_dialogue_records (sid : string) (f : file)
  (info : summary) :
  parse_session_summary sid f = Some info ->
  message_count info
  = Z.of_nat (length (List.filter is_dialogue_line (readlines (f_data f))))
  /\ 0 < message_count info.
Proof.
  unfold parse_session_summary, for_line_in, delivered.
  destruct (f_fault f).
  { destruct (run_lines _ _ _) as [[info1 fuc1] [e|]]; discriminate. }
  destruct (run_lines summary_body _ _) as [[info1 fuc1] [e|]] eqn:Hrun;
    [discriminate |].
  apply run_summary_count in Hrun. cbn [message_count] in Hrun.
  assert (Hcount : forall i : summary,
             message_count i = message_count info1 ->
             (if message_count i >? 0 then Some i else None) = Some info ->
             message_count info
             = Z.of_nat (length (List.filter is_dialogue_line
                                   (readlines (f_data f))))
               /\ 0 < message_count info).
  { intros i Hi. destruct (message_count i >? 0) eqn:Hpos; [|discriminate].
    intros [= <-]. split; lia. }
  destruct fuc1 as [c|]; [destruct (negb (String.eqb c EmptyString)) |];
    now apply Hcount.
Qed.

(** X2.  A file without a user or an assistant record yields no
    summary, whatever else it holds and whether or not reading it
    fails. *)
Theorem no_dialogue_no_summary (sid : string) (f : file) :
  (forall line, In line (readlines (f_data f)) ->
                is_dialogue_line line = false) ->
  parse_session_summary sid f = None.
Proof.
  intros Hnone.
  destruct (parse_session_summary sid f) as [info|] eqn:Hrun;
    [|reflexivity].
  apply summary_counts_dialogue_records in Hrun as [Hcount Hpos].
  exfalso.
  rewrite (filter_none is_dialogue_line _ Hnone) in Hcount.
  cbn in Hcount. lia.
Qed.

Lemma lt_str_left (t : string) (c : json) (r : bool) :
  Py.lt (JStr t) c = Return r -> exists a, c = JStr a /\ r = String.ltb t a.
Proof.
  destruct c as [| | |a| |]; try discriminate. intros [= <-]. now exists a.
Qed.

Lemma lt_str_right (t : string) (c : json) (r : bool) :
  Py.lt c (JStr t) = Return r -> exists a, c = JStr a /\ r = String.ltb a t.
Proof.
  destruct c as [| | |a| |]; try discriminate. intros [= <-]. now exists a.
Qed.

Lemma truthy_not_none (v : json) : Py.truthy v = true -> v <> JNull.
Proof. now destruct v. Qed.

(** Folding one more timestamp keeps the two timestamps in order. *)
Lemma fold_timestamp_ordered (timestamp : json) (info info' : summary) :
  stamps_ordered info ->
  fold_timestamp timestamp info = Return info' ->
  stamps_ordered info'.
Proof.
  unfold fold_timestamp, stamps_ordered.
  destruct (Py.truthy timestamp) eqn:Htruthy.
  2:{ now intros Hord [= <-]. }
  destruct info as [sid ti n c u].
  cbn [created_at updated_at session_id title message_count].
  destruct c as [|cb|cz|ca|cl|co], u as [|ub|uz|ua|ul|uo];
    intros Hord; try contradiction;
    destruct timestamp as [|tb|tz|ta|tl|to]; try discriminate Htruthy;
    cbn [Py.truthy Py.lt Py.as_int negb bind created_at updated_at];
    repeat match goal with
      | |- context [if ?b then _ else _] =>
          let Hb := fresh "Hb" in
          destruct b eqn:Hb;
          cbn [Py.truthy Py.lt Py.as_int negb bind created_at updated_at]
      | |- bind ?c _ = _ -> _ =>
          let r := fresh "r" in
          destruct c as [r|];
          cbn [Py.truthy Py.lt Py.as_int negb bind created_at updated_at];
          [|discriminate]
      end;
    try discriminate;
    try (intros [= <-]; cbn [created_at updated_at]);
    try exact I; try assumption; try apply ltb_irrefl.
Qed.

Lemma run_summary_ordered (ls : list string) (info info' : summary)
  (fuc fuc' : option string) :
  stamps_ordered info ->
  run_lines summary_body (info, fuc) ls = ((info', fuc'), None) ->
  stamps_ordered info'.
Proof.
  revert info fuc. induction ls as [|l ls IH]; intros info fuc Hord.
  - cbn. now intros [= <- <-].
  - cbn [run_lines].
    destruct (summary_body (info, fuc) l) as [[info1 fuc1]|] eqn:Hstep;
      [|discriminate].
    intros Hrun. apply (IH info1 fuc1); [|exact Hrun].
    apply summary_body_cases in Hstep
      as [(_ & -> & _) | (_ & ts & Hfold)]; [exact Hord |].
    eapply fold_timestamp_ordered; [|exact Hfold].
    exact Hord.
Qed.

(** X3.  In a summary the two timestamps are absent together or present
    together, and when they are strings [created_at] is not after
    [updated_at] in the order of strings. *)
Theorem summary_timestamps_ordered (sid : string) (f : file)
  (info : summary) :
  parse_session_summary sid f = Some info ->
  (created_at info = JNull <-> updated_at info = JNull)
  /\ (forall a b, created_at info = JStr a -> updated_at info = JStr b ->
                  String.leb a b = true).
Proof.
  intros Hrun.
  assert (Hord : stamps_ordered info).
  { unfold parse_session_summary, for_line_in in Hrun.
    destruct (run_lines summary_body _ (delivered f))
      as [[info1 fuc1] [e|]] eqn:Hloop; [discriminate |].
    destruct (f_fault f); [discriminate |].
    apply run_summary_ordered in Hloop; [|exact I].
    destruct fuc1 as [c|]; [destruct (negb (String.eqb c EmptyString)) |];
      cbn [message_count] in Hrun;
      destruct (message_count info1 >? 0); try discriminate;
      injection Hrun as <-; exact Hloop. }
  unfold stamps_ordered in Hord. split.
  - destruct (created_at info), (updated_at info); try contradiction;
      split; congruence.
  - intros a b Ha Hb. rewrite Ha, Hb in Hord.
    now rewrite leb_not_ltb, Hord.
Qed.

End SummaryCountProofs.

Lemma no_dialogue_no_summary_witness :
  @parse_session_summary py_json "s9" More.no_dialogue_file = None.
Proof.
  apply (@no_dialogue_no_summary py_json "s9" More.no_dialogue_file).
  intros line Hin. vm_compute in Hin.
  repeat destruct Hin as [<- | Hin]; try (vm_compute; reflexivity).
  destruct Hin.
Defined.

Lemma summary_counts_dialogue_records_witness :
  message_count More.unordered_summary
  = Z.of_nat (length (List.filter (@is_dialogue_line py_json)
                        (readlines (f_data More.unordered_file))))
  /\ 0 < message_count More.unordered_summary.
Proof.
  apply (@summary_counts_dialogue_records py_json "s9" More.unordered_file).
  vm_compute. reflexivity.
Defined.

Lemma summary_timestamps_ordered_witness :
  (created_at More.unordered_summary = JNull
   <-> updated_at More.unordered_summary = JNull)
  /\ (forall a b, created_at More.unordered_summary = JStr a ->
                  updated_at More.unordered_summary = JStr b ->
                  String.leb a b = true).
Proof.
  apply (@summary_timestamps_ordered py_json "s9" More.unordered_file).
  vm_compute. reflexivity.
Defined.

(* ===================================================================== *)
(** * Sorting *)
(* ===================================================================== *)

Section SortProofs.

Context {A : Type} (key : A -> json).

Lemma insert_by_perm (x : A) (run r : list A) :
  Py.insert_by key x run = Return r -> Permutation r (x :: run).
Proof.
  revert r. induction run as [|y ys IH]; intros r; cbn [Py.insert_by].
  - now intros [= <-].
  - destruct (Py.lt (key x) (key y)) as [[|]|]; cbn [bind];
      [now intros [= <-] | | discriminate].
    destruct (Py.insert_by key x ys) as [r'|]; cbn [bind]; [|discriminate].
    intros [= <-]. rewrite (IH r' eq_refl). apply perm_swap.
Qed.

Lemma sort_into_perm (run l r : list A) :
  Py.sort_into key run l = Return r -> Permutation r (run ++ l).
Proof.
  revert run. induction l as [|x l IH]; intros run; cbn [Py.sort_into].
  - intros [= <-]. now rewrite app_nil_r.
  - destruct (Py.insert_by key x run) as [run'|] eqn:Hins; cbn [bind];
      [|discriminate].
    intros Hsort. apply IH in Hsort. rewrite Hsort.
    apply insert_by_perm in Hins. rewrite Hins.
    apply Permutation_middle.
Qed.

(** What [sorted] returns is a rearrangement of its argument. *)
Lemma sorted_perm (reverse : bool) (l r : list A) :
  Py.sorted key reverse l = Return r -> Permutation r l.
Proof.
  unfold Py.sorted. destruct reverse.
  - destruct (Py.sort_into key [] (rev l)) as [r'|] eqn:Hsort;
      cbn [bind]; [|discriminate].
    intros [= <-]. apply sort_into_perm in Hsort. cbn [app] in Hsort.
    rewrite <- (Permutation_rev r'), Hsort. symmetry. apply Permutation_rev.
  - intros Hsort. now apply sort_into_perm in Hsort.
Qed.

(** Keys that are strings: [k] reads the string of a key. *)
Variable k : A -> string.

#[local] Abbreviation ascending := (ascending_by k).

Lemma insert_by_sorted (x : A) (run : list A) :
  (forall y, In y (x :: run) -> key y = JStr (k y)) ->
  StronglySorted ascending run ->
  exists r, Py.insert_by key x run = Return r
            /\ StronglySorted ascending r.
Proof.
  induction run as [|y ys IH]; intros Hkeys Hsorted.
  - exists [x]. split; [reflexivity |]. repeat constructor.
  - cbn [Py.insert_by].
    rewrite (Hkeys x) by now left.
    rewrite (Hkeys y) by (right; now left).
    cbn [Py.lt bind]. inversion Hsorted as [|? ? Hys Hall]; subst.
    destruct (String.ltb (k x) (k y)) eqn:Hxy.
    + exists (x :: y :: ys). split; [reflexivity |].
      constructor; [exact Hsorted |]. constructor.
      * now apply ltb_asym.
      * rewrite List.Forall_forall in Hall |- *. intros z Hz.
        specialize (Hall z Hz). unfold ascending in *.
        destruct (String.ltb (k z) (k x)) eqn:Hzx; [|reflexivity].
        now rewrite (ltb_trans (k z) (k x) (k y) Hzx Hxy) in Hall.
    + destruct IH as (r' & Hins & Hr'); [|exact Hys |].
      { intros z [<- | Hz]; apply Hkeys; [now left | right; now right]. }
      rewrite Hins. cbn [bind]. exists (y :: r'). split; [reflexivity |].
      constructor; [exact Hr' |].
      apply insert_by_perm in Hins.
      rewrite List.Forall_forall in Hall |- *. intros z Hz.
      apply (Permutation_in _ Hins) in Hz as [<- | Hz];
        [exact Hxy | now apply Hall].
Qed.

Lemma sort_into_sorted (run l : list A) :
  (forall y, In y (run ++ l) -> key y = JStr (k y)) ->
  StronglySorted ascending run ->
  exists r, Py.sort_into key run l = Return r
            /\ StronglySorted ascending r.
Proof.
  revert run. induction l as [|x l IH]; intros run Hkeys Hsorted.
  - now exists run.
  - cbn [Py.sort_into].
    destruct (insert_by_sorted x run) as (run' & Hins & Hrun');
      [|exact Hsorted |].
    { intros y [<- | Hy]; apply Hkeys; apply in_or_app;
        [right; now left | now left]. }
    rewrite Hins. cbn [bind]. apply IH; [|exact Hrun'].
    intros y Hy. apply Hkeys. apply insert_by_perm in Hins.
    apply in_app_or in Hy as [Hy | Hy].
    + apply (Permutation_in _ Hins) in Hy as [<- | Hy];
        apply in_or_app; [right; now left | now left].
    + apply in_or_app. right. now right.
Qed.

Lemma strongly_sorted_snoc (R : A -> A -> Prop) (l : list A) (x : A) :
  StronglySorted R l -> Forall (fun y => R y x) l ->
  StronglySorted R (l ++ [x]).
Proof.
  induction 1 as [|y l Hl IH Hall]; intros Hx; cbn [app].
  - repeat constructor.
  - inversion Hx; subst. constructor; [now apply IH |].
    apply List.Forall_app. split; [exact Hall | now constructor].
Qed.

Lemma strongly_sorted_rev (R : A -> A -> Prop) (l : list A) :
  StronglySorted R l -> StronglySorted (fun a b => R b a) (rev l).
Proof.
  induction 1 as [|y l Hl IH Hall]; cbn [rev]; [constructor |].
  apply strongly_sorted_snoc; [exact IH |].
  apply List.Forall_forall. intros z Hz. apply in_rev in Hz.
  rewrite List.Forall_forall in Hall. now apply Hall.
Qed.

(** With string keys [sorted] returns, in ascending order of the keys, or
    in descending order with [reverse=True]. *)
Lemma sorted_strings (reverse : bool) (l : list A) :
  (forall y, In y l -> key y = JStr (k y)) ->
  exists r, Py.sorted key reverse l = Return r
            /\ StronglySorted
                 (fun a b => if reverse then ascending b a else ascending a b)
                 r.
Proof.
  intros Hkeys. unfold Py.sorted. destruct reverse.
  - destruct (sort_into_sorted [] (rev l)) as (r & Hsort & Hr);
      [| constructor |].
    { intros y Hy. apply Hkeys. cbn [app] in Hy. now apply in_rev. }
    rewrite Hsort. cbn [bind]. exists (rev r). split; [reflexivity |].
    now apply strongly_sorted_rev.
  - apply sort_into_sorted; [exact Hkeys | constructor].
Qed.

End SortProofs.

Lemma strongly_sorted_weaken {A : Type} (R R' : A -> A -> Prop)
  (l : list A) :
  (forall a b, R a b -> R' a b) ->
  StronglySorted R l -> StronglySorted R' l.
Proof.
  intros Himp. induction 1 as [|x l Hl IH Hall]; constructor;
    [exact IH |].
  eapply List.Forall_impl; [|exact Hall]. intros y. apply Himp.
Qed.

(* ===================================================================== *)
(** * Listing: which sessions, in which order *)
(* ===================================================================== *)

Section ListingProofs.

Context `{Codec}.

Lemma collect_sessions_in (entries : list (string * file)) (s : summary) :
  In s (collect_sessions entries)
  <-> exists name f,
        In (name, f) entries
        /\ startswith "agent-" name = false
        /\ parse_session_summary (stem name) f = Some s.
Proof.
  induction entries as [|[name f] entries IH]; cbn [collect_sessions].
  - split; [intros [] | intros (? & ? & [] & _)].
  - split.
    + intros Hin.
      destruct (startswith "agent-" name) eqn:Hagent.
      * apply IH in Hin as (n & g & Hin & Hrest).
        exists n, g. split; [now right | exact Hrest].
      * destruct (parse_session_summary (stem name) f) as [s'|] eqn:Hparse.
        -- destruct Hin as [<- | Hin].
           ++ exists name, f. split; [now left | now split].
           ++ apply IH in Hin as (n & g & Hin & Hrest).
              exists n, g. split; [now right | exact Hrest].
        -- apply IH in Hin as (n & g & Hin & Hrest).
           exists n, g. split; [now right | exact Hrest].
    + intros (n & g & [Heq | Hin] & Hagent & Hparse).
      * injection Heq as -> ->. rewrite Hagent, Hparse. now left.
      * assert (Hrest : In s (collect_sessions entries)).
        { apply IH. now exists n, g. }
        destruct (startswith "agent-" name); [exact Hrest |].
        destruct (parse_session_summary (stem name) f);
          [now right | exact Hrest].
Qed.

(** X4.  What [get_sessions] returns is a rearrangement of the summaries
    of the project: a summary is listed exactly when it is the summary of
    a file of the project whose name does not start with [agent-]; files
    without a summary and agent transcripts are never listed. *)
Theorem get_sessions_lists_summaries (t : tree) (project_name : string)
  (r : list summary) :
  get_sessions t project_name = Return r ->
  Permutation r (collected t project_name)
  /\ (forall s,
        In s r
        <-> exists entries name f,
              lookup_dir project_name t = Some entries
              /\ In (name, f) entries
              /\ startswith "agent-" name = false
              /\ parse_session_summary (stem name) f = Some s).
Proof.
  unfold get_sessions, collected.
  destruct (lookup_dir project_name t) as [entries|].
  - intros Hsort. apply sorted_perm in Hsort. split; [exact Hsort |].
    intros s. split.
    + intros Hin. apply (Permutation_in _ Hsort) in Hin.
      apply collect_sessions_in in Hin as (name & f & Hrest).
      now exists entries, name, f.
    + intros (entries' & name & f & [= <-] & Hrest).
      apply (Permutation_in _ (Permutation_sym Hsort)).
      apply collect_sessions_in. now exists name, f.
  - intros [= <-]. split; [constructor |].
    intros s. split; [intros [] | intros (? & ? & ? & [=] & _)].
Qed.

(** X5.  When every summary of the project has a string [updated_at],
    [get_sessions] returns, and in the list no summary stands before one
    with a greater [updated_at]. *)
Theorem get_sessions_newest_first (t : tree) (project_name : string) :
  (forall s, In s (collected t project_name) ->
             exists u, updated_at s = JStr u) ->
  exists r,
    get_sessions t project_name = Return r
    /\ Permutation r (collected t project_name)
    /\ StronglySorted not_older r.
Proof.
  intros Hstr. unfold get_sessions, collected in *.
  destruct (lookup_dir project_name t) as [entries|].
  2:{ exists []. repeat split; constructor. }
  destruct (sorted_strings sort_key stamp_of true (collect_sessions entries))
    as (r & Hsort & Hsorted).
  { intros s Hs. destruct (Hstr s Hs) as [u Hu].
    rewrite sort_key_updated_at. unfold stamp_of. now rewrite Hu. }
  exists r. split; [exact Hsort |]. split; [now apply sorted_perm in Hsort |].
  eapply strongly_sorted_weaken; [|exact Hsorted].
  intros a b Hab. unfold not_older, ascending_by in *.
  now rewrite leb_not_ltb, Hab.
Qed.

End ListingProofs.

Lemma get_sessions_lists_summaries_witness :
  Permutation
    [More.unordered_summary]
    (@collected py_json [("p", [("s9.jsonl", More.unordered_file);
                                ("agent-1.jsonl", More.newest_file)])] "p").
Proof.
  apply (@get_sessions_lists_summaries py_json
           [("p", [("s9.jsonl", More.unordered_file);
                   ("agent-1.jsonl", More.newest_file)])] "p"
           [More.unordered_summary]).
  vm_compute. reflexivity.
Defined.

Lemma get_sessions_newest_first_witness :
  exists r,
    @get_sessions py_json More.listed_project "proj" = Return r
    /\ Permutation r (@collected py_json More.listed_project "proj")
    /\ StronglySorted not_older r.
Proof.
  apply (@get_sessions_newest_first py_json More.listed_project "proj").
  intros s Hin. vm_compute in Hin.
  repeat destruct Hin as [<- | Hin]; try (eexists; reflexivity).
  destruct Hin.
Defined.

(** The project of the example, listed. *)
Lemma listed_project_order :
  option_map (map session_id)
    (match @get_sessions py_json More.listed_project "proj" with
     | Return r => Some r
     | Raise _ => None
     end)
  = Some ["new"; "mid"; "old"].
Proof. vm_compute. reflexivity. Qed.

(* ===================================================================== *)
(** * Status Inspector: what the flags mean *)
(* ===================================================================== *)

Section StatusMeaning.

Context `{Codec}.

(** One turn of the status loop, by the kind of the line. *)
Lemma status_body_cases (st st' : status) (line : string) :
  status_body st line = Return st' ->
  file_size st' = file_size st
  /\ has_messages st' = has_messages st || is_dialogue_line line
  /\ is_empty st' = is_empty st && negb (is_dialogue_line line)
  /\ has_invalid_api_key st'
     = has_invalid_api_key st || is_invalid_key_line line.
Proof.
  unfold status_body, is_dialogue_line, is_invalid_key_line, record_type.
  destruct (String.eqb (strip line) EmptyString).
  { intros [= <-]. now rewrite !orb_false_r, andb_true_r. }
  destruct (loads (strip line)) as [entry|].
  2:{ intros [= <-]. now rewrite !orb_false_r, andb_true_r. }
  destruct entry as [| | | | |members]; try discriminate.
  cbn [Py.get bind].
  destruct (Py.dict_get "type" members) as [ty|].
  2:{ cbn [Py.eq_str bind orb]. intros [= <-].
      now rewrite !orb_false_r, andb_true_r. }
  destruct ty as [| | |s| |]; cbn [Py.eq_str bind orb andb];
    try (intros [= <-]; now rewrite !orb_false_r, andb_true_r).
  destruct (String.eqb s "summary") eqn:Hsum.
  - apply String.eqb_eq in Hsum. subst s.
    replace (String.eqb "summary" "user") with false by reflexivity.
    replace (String.eqb "summary" "assistant") with false by reflexivity.
    cbn [orb andb negb].
    destruct (Py.contains "Invalid API key" _) as [found|];
      cbn [bind]; [|discriminate].
    intros [= <-]. rewrite !orb_false_r, andb_true_r.
    destruct found; cbn; now rewrite ?orb_true_r, ?orb_false_r.
  - cbn [bind andb]. intros [= <-]. rewrite orb_false_r.
    destruct (String.eqb s "user" || String.eqb s "assistant"); cbn;
      now rewrite ?orb_true_r, ?orb_false_r, ?andb_false_r, ?andb_true_r.
Qed.

Lemma status_body_scans (st : status) (line : string) :
  status_scans line = true -> exists st', status_body st line = Return st'.
Proof.
  unfold status_scans, status_body.
  destruct (String.eqb (strip line) EmptyString); [now eexists |].
  destruct (loads (strip line)) as [entry|]; [|now eexists].
  destruct entry as [| | | | |members]; try discriminate.
  cbn [Py.get bind].
  destruct (Py.dict_get "type" members) as [ty|];
    [|cbn [Py.eq_str bind]; now eexists].
  destruct (Py.eq_str ty "summary"); cbn [bind]; [|now eexists].
  destruct (Py.contains "Invalid API key" _); [|discriminate].
  cbn [bind]. now eexists.
Qed.

(** The flags after a run of the loop: the lines [seen] are those that
    were processed before the loop ended. *)
Lemma run_status_seen (ls : list string) (st st' : status)
  (e : option exn) :
  run_lines status_body st ls = (st', e) ->
  exists seen rest,
    ls = seen ++ rest
    /\ (e = None -> rest = [])
    /\ file_size st' = file_size st
    /\ has_messages st' = has_messages st || existsb is_dialogue_line seen
    /\ is_empty st' = is_empty st && negb (existsb is_dialogue_line seen)
    /\ has_invalid_api_key st'
       = has_invalid_api_key st || existsb is_invalid_key_line seen.
Proof.
  revert st. induction ls as [|l ls IH]; intros st.
  - cbn. intros [= <- <-]. exists [], []. cbn.
    now rewrite !orb_false_r, andb_true_r.
  - cbn [run_lines].
    destruct (status_body st l) as [st1|e1] eqn:Hstep.
    + intros Hrun. apply IH in Hrun
        as (seen & rest & -> & Hrest & Hsize & Hmsg & Hemp & Hinv).
      apply status_body_cases in Hstep as (Hsize1 & Hmsg1 & Hemp1 & Hinv1).
      exists (l :: seen), rest. cbn [app existsb].
      rewrite Hsize, Hmsg, Hemp, Hinv, Hsize1, Hmsg1, Hemp1, Hinv1.
      repeat split; try assumption.
      * now rewrite orb_assoc.
      * now rewrite negb_orb, andb_assoc.
      * now rewrite orb_assoc.
    + intros [= <- <-]. exists [], (l :: ls). cbn.
      rewrite !orb_false_r, andb_true_r. repeat split; discriminate.
Qed.

Lemma status_invariant (file_path : option file) :
  let st := check_session_status file_path in
  is_empty st = negb (has_messages st)
  /\ (has_messages st = true -> file_size st <> 0)
  /\ (has_invalid_api_key st = true -> file_size st <> 0)
  /\ file_size st = match file_path with
                    | Some f => st_size f
                    | None => 0
                    end.
Proof.
  cbn zeta. unfold check_session_status.
  destruct file_path as [f|]; cbn [file_size];
    [|repeat split; discriminate].
  destruct (st_size f =? 0) eqn:Hsize; cbn [is_empty has_messages
    has_invalid_api_key file_size]; [repeat split; discriminate |].
  unfold for_line_in.
  destruct (run_lines status_body _ (delivered f)) as [st e] eqn:Hrun.
  apply run_status_seen in Hrun
    as (seen & rest & _ & _ & Hsz & Hmsg & Hemp & Hinv).
  cbn [is_empty has_messages has_invalid_api_key file_size orb andb]
    in Hsz, Hmsg, Hemp, Hinv.
  apply Z.eqb_neq in Hsize.
  assert (Hfst : fst (match e with
                      | Some e0 => (st, Some e0)
                      | None => match f_fault f with
                                | Some _ => (st, Some OSError)
                                | None => (st, None)
                                end
                      end) = st).
  { destruct e; [reflexivity |]. now destruct (f_fault f). }
  rewrite Hfst, Hsz, Hmsg, Hemp. repeat split; congruence.
Qed.

(** X6.  For every path, whatever the file holds: [is_empty] is the
    negation of [has_messages], a status with [has_messages] or
    [has_invalid_api_key] belongs to a file that is not empty, and the size
    reported is the number of bytes of the file on disk, 0 for a path that
    does not exist. *)
Theorem status_flags_consistent (file_path : option file) :
  let st := check_session_status file_path in
  is_empty st = negb (has_messages st)
  /\ (has_messages st = true -> file_size st <> 0)
  /\ (has_invalid_api_key st = true -> file_size st <> 0)
  /\ file_size st = match file_path with
                    | Some f => st_size f
                    | None => 0
                    end.
Proof. exact (status_invariant file_path). Qed.

(** X7.  A flag is never raised without a record for it: [has_messages]
    needs a line with a user or an assistant record, and
    [has_invalid_api_key] a line with a summary record in which the phrase
    is found. *)
Theorem status_flags_sound (f : file) :
  let st := check_session_status (Some f) in
  (has_messages st = true ->
   exists line, In line (readlines (f_data f))
                /\ is_dialogue_line line = true)
  /\ (has_invalid_api_key st = true ->
      exists line, In line (readlines (f_data f))
                   /\ is_invalid_key_line line = true).
Proof.
  cbn zeta. unfold check_session_status. cbn [file_size].
  destruct (st_size f =? 0);
    cbn [has_messages has_invalid_api_key]; [split; discriminate |].
  unfold for_line_in.
  destruct (run_lines status_body _ (delivered f)) as [st e] eqn:Hrun.
  apply run_status_seen in Hrun
    as (seen & rest & Hsplit & _ & _ & Hmsg & _ & Hinv).
  cbn [has_messages has_invalid_api_key orb] in Hmsg, Hinv.
  assert (Hfst : fst (match e with
                      | Some e0 => (st, Some e0)
                      | None => match f_fault f with
                                | Some _ => (st, Some OSError)
                                | None => (st, None)
                                end
                      end) = st).
  { destruct e; [reflexivity |]. now destruct (f_fault f). }
  rewrite Hfst, Hmsg, Hinv.
  assert (Hseen : forall line, In line seen ->
                               In line (readlines (f_data f))).
  { intros line Hin. assert (Hd : In line (delivered f)).
    { rewrite Hsplit. apply in_or_app. now left. }
    unfold delivered in Hd. destruct (f_fault f) as [n|]; [|exact Hd].
    rewrite <- (firstn_skipn n (readlines (f_data f))).
    apply in_or_app. now left. }
  split; intros Hex; apply existsb_exists in Hex as (line & Hin & Hline);
    exists line; split; auto.
Qed.

(** X8.  The scan does not stop early.  When reading does not fail and
    no line makes the scan raise, [has_messages] says whether some line
    holds a user or an assistant record and [has_invalid_api_key] whether
    some line holds a summary record with the phrase, wherever in the file
    these lines are. *)
Theorem status_flags_complete (f : file) :
  st_size f <> 0 ->
  f_fault f = None ->
  forallb status_scans (readlines (f_data f)) = true ->
  let st := check_session_status (Some f) in
  has_messages st = existsb is_dialogue_line (readlines (f_data f))
  /\ has_invalid_api_key st
     = existsb is_invalid_key_line (readlines (f_data f)).
Proof.
  intros Hsize Hfault Hscans. cbn zeta.
  unfold check_session_status. cbn [file_size].
  apply Z.eqb_neq in Hsize. rewrite Hsize.
  unfold for_line_in, delivered. rewrite Hfault.
  destruct (run_lines status_body _ (readlines (f_data f)))
    as [st e] eqn:Hrun.
  assert (He : e = None).
  { clear Hsize Hfault. revert Hrun Hscans.
    generalize {| is_empty := true; has_invalid_api_key := false;
                  has_messages := false; file_size := st_size f |}.
    induction (readlines (f_data f)) as [|l ls IH]; intros st0;
      cbn [run_lines forallb].
    - now intros [= _ <-].
    - intros Hrun Hall. apply andb_true_iff in Hall as [Hl Hls].
      destruct (status_body_scans st0 l Hl) as [st1 Hst1].
      rewrite Hst1 in Hrun. now apply (IH st1). }
  subst e. apply run_status_seen in Hrun
    as (seen & rest & Hsplit & Hrest & _ & Hmsg & _ & Hinv).
  rewrite (Hrest eq_refl), app_nil_r in Hsplit. subst seen.
  cbn [fst]. now rewrite Hmsg, Hinv.
Qed.

(** X9.  A session in which the scan has seen a message is never a
    cleanup candidate, neither as empty nor as invalid. *)
Theorem messages_never_cleaned (file_path : option file) :
  has_messages (check_session_status file_path) = true ->
  invalid_candidate (check_session_status file_path) = false
  /\ empty_candidate (check_session_status file_path) = false.
Proof.
  intros Hmsg.
  destruct (status_invariant file_path) as (Hemp & Hsize & _).
  unfold invalid_candidate, empty_candidate.
  rewrite Hemp, Hmsg. cbn [negb orb]. rewrite andb_false_r.
  split; [reflexivity |]. apply Z.eqb_neq. now apply Hsize.
Qed.

End StatusMeaning.

Lemma status_flags_consistent_witness :
  let st := @check_session_status py_json (Some More.recovered_file) in
  is_empty st = negb (has_messages st)
  /\ (has_messages st = true -> file_size st <> 0)
  /\ (has_invalid_api_key st = true -> file_size st <> 0)
  /\ file_size st = st_size More.recovered_file.
Proof.
  exact (@status_flags_consistent py_json (Some More.recovered_file)).
Defined.

Lemma status_flags_sound_witness :
  (exists line, In line (readlines (f_data More.recovered_file))
                /\ @is_dialogue_line py_json line = true)
  /\ (exists line, In line (readlines (f_data More.recovered_file))
                   /\ @is_invalid_key_line py_json line = true).
Proof.
  destruct (@status_flags_sound py_json More.recovered_file) as [Hmsg Hinv].
  split; [apply Hmsg | apply Hinv]; vm_compute; reflexivity.
Defined.

Lemma status_flags_complete_witness :
  let st := @check_session_status py_json (Some More.recovered_file) in
  has_messages st
  = existsb (@is_dialogue_line py_json)
      (readlines (f_data More.recovered_file))
  /\ has_invalid_api_key st
     = existsb (@is_invalid_key_line py_json)
         (readlines (f_data More.recovered_file)).
Proof.
  apply (@status_flags_complete py_json More.recovered_file).
  - vm_compute. discriminate.
  - reflexivity.
  - vm_compute. reflexivity.
Defined.

Lemma messages_never_cleaned_witness :
  invalid_candidate (@check_session_status py_json (Some More.recovered_file))
  = false
  /\ empty_candidate (@check_session_status py_json (Some More.recovered_file))
     = false.
Proof.
  apply (@messages_never_cleaned py_json (Some More.recovered_file)).
  vm_compute. reflexivity.
Defined.

(* ===================================================================== *)
(** * Soft delete: what is kept, what is touched *)
(* ===================================================================== *)

Lemma session_not_backup_dir (base project_name session_id : string) :
  session_file base project_name session_id <> backup_dir base.
Proof.
  intros Heq. apply (f_equal String.length) in Heq.
  unfold session_file, backup_dir in Heq.
  rewrite !length_append in Heq. cbn [String.length] in Heq. lia.
Qed.

Lemma backup_not_backup_dir (base project_name session_id : string) :
  backup_file base project_name session_id <> backup_dir base.
Proof.
  intros Heq. apply (f_equal String.length) in Heq.
  unfold backup_file, backup_dir in Heq.
  rewrite !length_append in Heq. cbn [String.length] in Heq. lia.
Qed.

(** The outcomes of [delete_session] on a session that exists. *)
Lemma delete_session_outcome (base project_name session_id : string)
  (m : fs) (n : node) :
  m !! session_file base project_name session_id = Some n ->
  let r := delete_session base project_name session_id m in
  ((fst r = Return true
    /\ snd r !! backup_file base project_name session_id = Some n
    /\ snd r !! session_file base project_name session_id = None
    /\ snd r !! backup_dir base = Some Dir)
   \/ (exists e, fst r = Raise e
                 /\ snd r !! session_file base project_name session_id
                    = Some n))
  /\ (forall path,
        path <> session_file base project_name session_id ->
        path <> backup_file base project_name session_id ->
        path <> backup_dir base ->
        snd r !! path = m !! path).
Proof.
  intros Hsrc. cbn zeta.
  pose proof (session_backup_paths_differ base project_name session_id)
    as Hsb.
  pose proof (session_not_backup_dir base project_name session_id) as Hsd.
  pose proof (backup_not_backup_dir base project_name session_id) as Hbd.
  unfold delete_session. rewrite Hsrc. unfold mkdir_exist_ok.
  destruct (m !! backup_dir base) as [[g|]|] eqn:Hdir; cbn [fst snd].
  - (* .bak is a regular file *)
    split; [right; now exists FileExistsError | reflexivity].
  - (* .bak is a directory *)
    unfold rename_path. rewrite Hsrc.
    destruct n as [f|];
      destruct (m !! backup_file base project_name session_id)
        as [[g|]|] eqn:Hdst; cbn [fst snd];
      try (split; [right; eexists; split; [reflexivity | exact Hsrc]
                  | reflexivity]).
    all: split;
      [ left; split; [reflexivity |]; split; [apply lookup_insert_eq |];
        split;
        [ rewrite lookup_insert_ne by congruence; apply lookup_delete_eq
        | rewrite lookup_insert_ne by congruence;
          now rewrite lookup_delete_ne by congruence ]
      | intros path H1 H2 H3; rewrite lookup_insert_ne by congruence;
        now rewrite lookup_delete_ne by congruence ].
  - (* .bak is created *)
    unfold rename_path.
    rewrite (lookup_insert_ne m (backup_dir base)) by congruence.
    rewrite Hsrc.
    rewrite (lookup_insert_ne m (backup_dir base)
               (backup_file base project_name session_id)) by congruence.
    destruct n as [f|];
      destruct (m !! backup_file base project_name session_id)
        as [[g|]|] eqn:Hdst; cbn [fst snd];
      try (split;
           [ right; eexists; split; [reflexivity |];
             now rewrite lookup_insert_ne by congruence
           | intros path H1 H2 H3;
             now rewrite lookup_insert_ne by congruence ]).
    all: split;
      [ left; split; [reflexivity |]; split; [apply lookup_insert_eq |];
        split;
        [ rewrite lookup_insert_ne by congruence; apply lookup_delete_eq
        | rewrite lookup_insert_ne by congruence;
          rewrite lookup_delete_ne by congruence; apply lookup_insert_eq ]
      | intros path H1 H2 H3; rewrite lookup_insert_ne by congruence;
        rewrite lookup_delete_ne by congruence;
        now rewrite lookup_insert_ne by congruence ].
Qed.

(** X10.  [delete_session] never destroys a session: whether it returns
    or raises, the node that was at the session path is afterwards at the
    backup path (result [True]) or still at the session path (exception);
    and no path other than the session file, its backup and the [.bak]
    directory is touched. *)
Theorem delete_session_keeps_content (base project_name session_id : string)
  (m : fs) (n : node) :
  m !! session_file base project_name session_id = Some n ->
  let r := delete_session base project_name session_id m in
  ((fst r = Return true
    /\ snd r !! backup_file base project_name session_id = Some n
    /\ snd r !! session_file base project_name session_id = None)
   \/ (exists e, fst r = Raise e
                 /\ snd r !! session_file base project_name session_id
                    = Some n))
  /\ (forall path,
        path <> session_file base project_name session_id ->
        path <> backup_file base project_name session_id ->
        path <> backup_dir base ->
        snd r !! path = m !! path).
Proof.
  intros Hsrc. cbn zeta.
  destruct (delete_session_outcome base project_name session_id m n Hsrc)
    as [[(Hr & Hb & Hs & _) | Hraise] Hframe].
  - split; [left; auto | exact Hframe].
  - split; [right; exact Hraise | exact Hframe].
Qed.

(** X11.  A regular session file is moved whenever [.bak] is absent or a
    directory and the backup path is free or holds a regular file: the
    result is [True], [.bak] is a directory afterwards (created if it was
    absent), the backup holds the file and the session path is free. *)
Theorem delete_session_moves_file (base project_name session_id : string)
  (m : fs) (f : file) :
  m !! session_file base project_name session_id = Some (File f) ->
  (m !! backup_dir base = None \/ m !! backup_dir base = Some Dir) ->
  m !! backup_file base project_name session_id <> Some Dir ->
  let r := delete_session base project_name session_id m in
  fst r = Return true
  /\ snd r !! backup_dir base = Some Dir
  /\ snd r !! backup_file base project_name session_id = Some (File f)
  /\ snd r !! session_file base project_name session_id = None.
Proof.
  intros Hsrc Hdir Hdst. cbn zeta.
  destruct (delete_session_outcome base project_name session_id m _ Hsrc)
    as [[(Hr & Hb & Hs & Hd) | (e & He & _)] _]; [auto |].
  exfalso. revert He. unfold delete_session. rewrite Hsrc.
  pose proof (session_not_backup_dir base project_name session_id) as Hsd.
  pose proof (backup_not_backup_dir base project_name session_id) as Hbd.
  unfold mkdir_exist_ok, rename_path.
  destruct Hdir as [Hdir | Hdir]; rewrite Hdir.
  - rewrite (lookup_insert_ne m (backup_dir base)) by congruence.
    rewrite Hsrc.
    rewrite (lookup_insert_ne m (backup_dir base)
               (backup_file base project_name session_id)) by congruence.
    destruct (m !! backup_file base project_name session_id)
      as [[g|]|] eqn:Hb; cbn [fst]; try discriminate.
    congruence.
  - rewrite Hsrc.
    destruct (m !! backup_file base project_name session_id)
      as [[g|]|] eqn:Hb; cbn [fst]; try discriminate.
    congruence.
Qed.

Lemma delete_session_keeps_content_witness :
  let r := delete_session Ex.base "proj" "s1" More.fresh_fs in
  ((fst r = Return true
    /\ snd r !! backup_file Ex.base "proj" "s1"
       = Some (File More.recovered_file)
    /\ snd r !! session_file Ex.base "proj" "s1" = None)
   \/ (exists e, fst r = Raise e
                 /\ snd r !! session_file Ex.base "proj" "s1"
                    = Some (File More.recovered_file)))
  /\ (forall path,
        path <> session_file Ex.base "proj" "s1" ->
        path <> backup_file Ex.base "proj" "s1" ->
        path <> backup_dir Ex.base ->
        snd r !! path = More.fresh_fs !! path).
Proof.
  apply (delete_session_keeps_content Ex.base "proj" "s1" More.fresh_fs).
  apply lookup_insert_eq.
Defined.

Lemma delete_session_moves_file_witness :
  let r := delete_session Ex.base "proj" "s1" More.fresh_fs in
  fst r = Return true
  /\ snd r !! backup_dir Ex.base = Some Dir
  /\ snd r !! backup_file Ex.base "proj" "s1"
     = Some (File More.recovered_file)
  /\ snd r !! session_file Ex.base "proj" "s1" = None.
Proof.
  apply (delete_session_moves_file Ex.base "proj" "s1" More.fresh_fs).
  - apply lookup_insert_eq.
  - left. vm_compute. reflexivity.
  - vm_compute. discriminate.
Defined.

(* ===================================================================== *)
(** * Rename and delete: failures and composition *)
(* ===================================================================== *)

Section RenameFrame.

Context `{Codec}.

(** X12.  A session that has been deleted is gone for the operations:
    deleting it again returns [False] and renaming it returns [False],
    and neither changes the file system. *)
Theorem deleted_session_is_gone (base project_name session_id t : string)
  (m : fs) :
  fst (delete_session base project_name session_id m) = Return true ->
  let m' := snd (delete_session base project_name session_id m) in
  delete_session base project_name session_id m' = (Return false, m')
  /\ rename_session base project_name session_id t m' = (false, m').
Proof.
  intros Hok. cbn zeta.
  assert (Hgone : snd (delete_session base project_name session_id m)
                    !! session_file base project_name session_id = None).
  { destruct (m !! session_file base project_name session_id) as [n|]
      eqn:Hsrc.
    - destruct (delete_session_outcome base project_name session_id m n Hsrc)
        as [[(_ & _ & Hs & _) | (e & He & _)] _]; [exact Hs |].
      rewrite He in Hok. discriminate.
    - unfold delete_session in Hok. rewrite Hsrc in Hok. discriminate. }
  split.
  - now apply delete_session_missing.
  - unfold rename_session, rename_session_on. now rewrite Hgone.
Qed.

(** The paths a rename leaves alone, and what it does to the session
    file. *)
Lemma rename_session_on_frame (w : write_outcome)
  (base project_name session_id t : string) (m m' : fs) (b : bool) :
  rename_session_on w base project_name session_id t m = (b, m') ->
  (forall path, path <> session_file base project_name session_id ->
                m' !! path = m !! path)
  /\ (b = false ->
      m' = m
      \/ exists kept f lines',
           w = WriteFails kept
           /\ m !! session_file base project_name session_id = Some (File f)
           /\ f_fault f = None
           /\ rewrite_lines t f = Return (Some lines')
           /\ m' = <[session_file base project_name session_id :=
                       File {| f_chars := slice_to kept (writelines lines');
                               f_fault := None |}]> m)
  /\ (b = false -> (forall kept, w <> WriteFails kept) -> m' = m)
  /\ (b = true ->
      w = Written
      /\ exists f f',
           m !! session_file base project_name session_id = Some (File f)
           /\ f_fault f = None
           /\ m' !! session_file base project_name session_id
              = Some (File f')).
Proof.
  unfold rename_session_on.
  destruct (m !! session_file base project_name session_id) as [n|] eqn:Hm.
  2:{ intros [= <- <-]. repeat split; auto; discriminate. }
  destruct n as [f|]; cbn [open_read bind].
  2:{ intros [= <- <-]. repeat split; auto; discriminate. }
  destruct (rewrite_lines t f) as [[lines'|]|] eqn:Hrun;
    try (intros [= <- <-]; repeat split; auto; discriminate).
  assert (Hfault : f_fault f = None).
  { apply rewrite_lines_spec in Hrun
      as (sc & k & line & entry & entry' & Hscan & _).
    now apply scan_of_first_user in Hscan as [Hfault _]. }
  destruct w as [| |kept]; intros [= <- <-].
  - split; [intros path Hp; now rewrite lookup_insert_ne by congruence |].
    split; [discriminate |]. split; [discriminate |].
    intros _. split; [reflexivity |]. eexists f, _.
    split; [reflexivity |]. split; [exact Hfault |]. apply lookup_insert_eq.
  - repeat split; auto; discriminate.
  - split; [intros path Hp; now rewrite lookup_insert_ne by congruence |].
    split; [|split; [|discriminate]].
    + intros _. right. now exists kept, f, lines'.
    + intros _ Hw. now destruct (Hw kept).
Qed.

(** X13.  [rename_session] touches nothing but the session file, however
    the write ends.  A failed rename leaves the file system as it was,
    unless the write itself failed after [open] had emptied the file: then,
    and always then, the rename reports [False] and the session file holds
    what had been written of the new text, and nothing of the old one.  A
    successful rename took the write and replaces the readable regular
    file at the session path by a regular file. *)
Theorem rename_session_frame (w : write_outcome)
  (base project_name session_id t : string) (m m' : fs) (b : bool) :
  rename_session_on w base project_name session_id t m = (b, m') ->
  (forall path, path <> session_file base project_name session_id ->
                m' !! path = m !! path)
  /\ (b = false ->
      m' = m
      \/ exists kept f lines',
           w = WriteFails kept
           /\ m !! session_file base project_name session_id = Some (File f)
           /\ f_fault f = None
           /\ rewrite_lines t f = Return (Some lines')
           /\ m' = <[session_file base project_name session_id :=
                       File {| f_chars := slice_to kept (writelines lines');
                               f_fault := None |}]> m)
  /\ (b = false -> (forall kept, w <> WriteFails kept) -> m' = m)
  /\ (b = true ->
      w = Written
      /\ exists f f',
           m !! session_file base project_name session_id = Some (File f)
           /\ f_fault f = None
           /\ m' !! session_file base project_name session_id
              = Some (File f'))
  /\ (forall kept f lines',
        w = WriteFails kept ->
        m !! session_file base project_name session_id = Some (File f) ->
        rewrite_lines t f = Return (Some lines') ->
        b = false
        /\ m' = <[session_file base project_name session_id :=
                    File {| f_chars := slice_to kept (writelines lines');
                            f_fault := None |}]> m).
Proof.
  intros Hrename.
  destruct (rename_session_on_frame w base project_name session_id t m m' b
              Hrename) as (Hframe & Hfailed & Hkept & Hdone).
  refine (conj Hframe (conj Hfailed (conj Hkept (conj Hdone _)))).
  intros kept f lines' -> Hm Hrun. unfold rename_session_on in Hrename.
  rewrite Hm in Hrename. cbn [open_read bind] in Hrename.
  rewrite Hrun in Hrename. injection Hrename as <- <-. now split.
Qed.

(** X14.  [rename_session] returns [False] and changes nothing when the
    session path is absent or a directory, when the file cannot be read
    to its end, or when no line of it holds a user record. *)
Theorem rename_session_fails (base project_name session_id t : string)
  (m : fs) :
  (m !! session_file base project_name session_id = None
   \/ m !! session_file base project_name session_id = Some Dir
   \/ exists f,
        m !! session_file base project_name session_id = Some (File f)
        /\ (f_fault f <> None
            \/ first_user_line (readlines (f_data f)) = None)) ->
  rename_session base project_name session_id t m = (false, m).
Proof.
  unfold rename_session, rename_session_on.
  intros [Hm | [Hm | (f & Hm & Hbad)]]; rewrite Hm; try reflexivity.
  cbn [open_read bind].
  destruct (rewrite_lines t f) as [[lines'|]|] eqn:Hrun; try reflexivity.
  exfalso. apply rewrite_lines_spec in Hrun
    as (sc & k & line & entry & entry' & Hscan & Hk & _).
  apply scan_of_first_user in Hscan as [Hfault _].
  destruct Hbad as [Hbad | Hbad]; congruence.
Qed.

End RenameFrame.

Lemma deleted_session_is_gone_witness :
  let m' := snd (delete_session Ex.base "proj" "s1" More.fresh_fs) in
  delete_session Ex.base "proj" "s1" m' = (Return false, m')
  /\ @rename_session py_json Ex.base "proj" "s1" "Title" m' = (false, m').
Proof.
  apply (@deleted_session_is_gone py_json Ex.base "proj" "s1" "Title"
           More.fresh_fs).
  vm_compute. reflexivity.
Defined.

Lemma rename_session_frame_witness :
  let r := @rename_session_on py_json (WriteFails 9) Ex.base "proj" "s2"
             "Title" More.fresh_fs in
  (forall path, path <> session_file Ex.base "proj" "s2" ->
     snd r !! path = More.fresh_fs !! path)
  /\ (snd r = More.fresh_fs
      \/ exists kept f lines',
           WriteFails 9 = WriteFails kept
           /\ More.fresh_fs !! session_file Ex.base "proj" "s2"
              = Some (File f)
           /\ f_fault f = None
           /\ @rewrite_lines py_json "Title" f = Return (Some lines')
           /\ snd r
              = <[session_file Ex.base "proj" "s2" :=
                    File {| f_chars := slice_to kept (writelines lines');
                            f_fault := None |}]> More.fresh_fs).
Proof.
  cbn zeta.
  destruct (@rename_session_frame py_json (WriteFails 9) Ex.base "proj" "s2"
              "Title" More.fresh_fs
              (snd (@rename_session_on py_json (WriteFails 9) Ex.base "proj"
                      "s2" "Title" More.fresh_fs)) false)
    as (Hframe & Hfailed & _).
  - vm_compute. reflexivity.
  - split; [exact Hframe | now apply Hfailed].
Defined.

(** A write that fails after nine characters: the rename reports
    [False] and the session file is left with those nine characters. *)
Lemma rename_write_failure_truncates :
  let r := @rename_session_on py_json (WriteFails 9) Ex.base "proj" "s2"
             "Title" More.fresh_fs in
  fst r = false
  /\ snd r !! session_file Ex.base "proj" "s2"
     = Some (File {| f_chars := jtext "{'type': ";
                     f_fault := None |})
  /\ snd r <> More.fresh_fs.
Proof.
  cbn zeta. split; [vm_compute; reflexivity |].
  assert (Hfile : snd (@rename_session_on py_json (WriteFails 9) Ex.base
                         "proj" "s2" "Title" More.fresh_fs)
                    !! session_file Ex.base "proj" "s2"
                  = Some (File {| f_chars := jtext "{'type': ";
                                  f_fault := None |})).
  { vm_compute. reflexivity. }
  split; [exact Hfile |]. intros Heq. rewrite Heq in Hfile.
  vm_compute in Hfile. discriminate.
Qed.

Lemma rename_session_fails_witness :
  @rename_session py_json Ex.base "proj" "s3" "Title" More.awkward_fs
  = (false, More.awkward_fs).
Proof.
  apply (@rename_session_fails py_json Ex.base "proj" "s3" "Title"
           More.awkward_fs).
  right. right. exists More.no_dialogue_file. split.
  - vm_compute. reflexivity.
  - right. vm_compute. reflexivity.
Defined.

(** The other two sessions of the example: a directory, and a file that
    cannot be read. *)
Lemma rename_awkward_sessions :
  @rename_session py_json Ex.base "proj" "s1" "Title" More.awkward_fs
  = (false, More.awkward_fs)
  /\ @rename_session py_json Ex.base "proj" "s2" "Title" More.awkward_fs
     = (false, More.awkward_fs).
Proof. split; vm_compute; reflexivity. Qed.

(* ===================================================================== *)
(** * Session Rewriter: replacing a text, capturing a message *)
(* ===================================================================== *)

Section EnqueueReplace.

Context `{Codec}.

Lemma find_text_idx_at (k : nat) (pre post : list json)
  (item : list (string * json)) (old : string) :
  (forall x, In x pre ->
             Py.is_text_item x = true -> ide_text_item x = true) ->
  Py.is_text_item (JObj item) = true ->
  Py.get (JObj item) "text" (JStr EmptyString) = Return (JStr old) ->
  startswith "<ide_" (strip old) = false ->
  find_text_idx (Z.of_nat k) (pre ++ JObj item :: post)
  = Return (Z.of_nat (k + length pre)).
Proof.
  intros Hpre Htext Hold Hplain. revert k.
  induction pre as [|x pre IH]; intros k.
  - cbn [app find_text_idx length]. rewrite Htext, Hold.
    cbn [bind Py.str_receiver]. rewrite Hplain. f_equal. f_equal. lia.
  - cbn [app find_text_idx length].
    replace (Z.of_nat k + 1) with (Z.of_nat (S k)) by lia.
    assert (Hrest : forall y, In y pre ->
                      Py.is_text_item y = true -> ide_text_item y = true).
    { intros y Hy. apply Hpre. now right. }
    destruct (Py.is_text_item x) eqn:Hx.
    + destruct (ide_text_item_text x (Hpre x (or_introl eq_refl) Hx))
        as (_ & s & Hget & Hstart).
      rewrite Hget. cbn [bind Py.str_receiver]. rewrite Hstart.
      rewrite (IH Hrest (S k)). f_equal. f_equal. lia.
    + rewrite (IH Hrest (S k)). f_equal. f_equal. lia.
Qed.

(** The replacement of the text of the first plain text item. *)
Lemma merge_enqueue_at (new_title original old : string)
  (pre post : list json) (item : list (string * json)) :
  (forall x, In x pre ->
             Py.is_text_item x = true -> ide_text_item x = true) ->
  Py.is_text_item (JObj item) = true ->
  Py.get (JObj item) "text" (JStr EmptyString) = Return (JStr old) ->
  startswith "<ide_" (strip old) = false ->
  merge_content new_title (Some original) (JArr (pre ++ JObj item :: post))
  = Return
      (JArr (pre ++
             JObj (Py.dict_set "text" (JStr (titled new_title original)) item)
             :: post)).
Proof.
  intros Hpre Htext Hold Hplain. unfold merge_content. cbn [Py.iter bind].
  pose proof (find_text_idx_at 0 pre post item old Hpre Htext Hold Hplain)
    as Hidx.
  change (Z.of_nat 0) with 0 in Hidx. rewrite Hidx. cbn [bind Nat.add].
  replace (Z.of_nat (length pre) >=? 0) with true
    by (symmetry; apply Z.geb_le; lia).
  unfold Py.setitem_at. rewrite Nat2Z.id.
  replace (nth_error (pre ++ JObj item :: post) (length pre))
    with (Some (JObj item)).
  2:{ symmetry. rewrite nth_error_app2 by lia.
      now rewrite Nat.sub_diag. }
  rewrite take_app_length.
  replace (pre ++ JObj item :: post) with ((pre ++ [JObj item]) ++ post)
    by now rewrite <- app_assoc.
  replace (S (length pre)) with (length (pre ++ [JObj item]))
    by (rewrite length_app; cbn; lia).
  now rewrite drop_app_length.
Qed.

(** X15.  With a captured enqueue message, the first text item that does
    not start with an IDE tag gets the title, a blank line and the
    captured message as its text: the text it had is dropped, its other
    keys and all other items are kept. *)
Theorem enqueue_text_replaces_plain_text (new_title original old : string)
  (pre post : list json) (item : list (string * json)) :
  (forall x, In x pre ->
             Py.is_text_item x = true -> ide_text_item x = true) ->
  Py.is_text_item (JObj item) = true ->
  Py.get (JObj item) "text" (JStr EmptyString) = Return (JStr old) ->
  startswith "<ide_" (strip old) = false ->
  merge_content new_title (Some original) (JArr (pre ++ JObj item :: post))
  = Return
      (JArr (pre ++
             JObj (Py.dict_set "text" (JStr (titled new_title original)) item)
             :: post)).
Proof.
  exact (merge_enqueue_at new_title original old pre post item).
Qed.

(** The loop over the content of an enqueue record. *)
Lemma find_enqueue_text_spec (items : list json) (t : string) :
  find_enqueue_text items = Return (Some t) ->
  t <> EmptyString
  /\ startswith "<ide_" (strip t) = false
  /\ exists item, In item items
                  /\ Py.is_text_item item = true
                  /\ Py.get item "text" (JStr EmptyString)
                     = Return (JStr t).
Proof.
  induction items as [|item items IH]; cbn [find_enqueue_text];
    [discriminate |].
  assert (Hrest : find_enqueue_text items = Return (Some t) ->
            t <> EmptyString
            /\ startswith "<ide_" (strip t) = false
            /\ exists item0, In item0 (item :: items)
                             /\ Py.is_text_item item0 = true
                             /\ Py.get item0 "text" (JStr EmptyString)
                                = Return (JStr t)).
  { intros Hrun. destruct (IH Hrun) as (Hne & Hplain & x & Hx & Hrest).
    split; [exact Hne |]. split; [exact Hplain |].
    exists x. split; [now right | exact Hrest]. }
  destruct (Py.is_text_item item) eqn:Htext; [|exact Hrest].
  destruct (Py.get item "text" (JStr EmptyString)) as [txt|] eqn:Hget;
    [|discriminate].
  cbn [bind]. destruct (Py.truthy txt) eqn:Htruthy; [|exact Hrest].
  destruct txt as [| | |s| |]; try discriminate.
  cbn [Py.str_receiver bind].
  destruct (startswith "<ide_" (strip s)) eqn:Hstart; cbn [negb];
    [exact Hrest |].
  intros [= <-]. split.
  - intros ->. discriminate Htruthy.
  - split; [exact Hstart |]. exists item. split; [now left | now split].
Qed.

Lemma scan_body_message (i : Z) (sc : scan) (line : string)
  (st : Z * scan) :
  scan_body (i, sc) line = Return st ->
  original_message (snd st) = original_message sc
  \/ exists t, original_message (snd st) = Some t /\ capturable [line] t.
Proof.
  unfold scan_body.
  destruct (String.eqb (strip line) EmptyString) eqn:Hblank; cbn [negb].
  { intros [= <-]. now left. }
  destruct (loads (strip line)) as [entry|] eqn:Hload.
  2:{ intros [= <-]. now left. }
  destruct entry as [| | | | |members]; try discriminate.
  cbn [Py.get bind]. destruct (original_message sc) as [m|] eqn:Hm.
  { cbn [bind]. intros [= <-]. cbn [snd original_message]. now left. }
  destruct (Py.eq_str _ "queue-operation") eqn:Hqueue.
  2:{ cbn [bind]. intros [= <-]. now left. }
  destruct (Py.eq_str _ "enqueue") eqn:Henqueue.
  2:{ cbn [bind]. intros [= <-]. now left. }
  destruct (Py.iter _) as [items|] eqn:Hiter; cbn [bind]; [|discriminate].
  destruct (find_enqueue_text items) as [[t|]|] eqn:Hfind; cbn [bind];
    try discriminate.
  - intros [= <-]. cbn [snd original_message]. right. exists t.
    split; [reflexivity |].
    apply find_enqueue_text_spec in Hfind
      as (Hne & Hplain & item & Hin & Htext & Hget).
    split; [exact Hne |]. split; [exact Hplain |].
    exists line, item. split; [now left |]. split; [|now split].
    unfold enqueue_items, record_type.
    rewrite Hblank, Hload, Hqueue. cbn [Py.get bind].
    now rewrite Henqueue, Hiter.
  - intros [= <-]. now left.
Qed.

Lemma capturable_mono (ls ls' : list string) (t : string) :
  (forall l, In l ls -> In l ls') -> capturable ls t -> capturable ls' t.
Proof.
  intros Hsub (Hne & Hplain & line & item & Hin & Hrest).
  split; [exact Hne |]. split; [exact Hplain |].
  exists line, item. split; [now apply Hsub | exact Hrest].
Qed.

Lemma run_scan_message (ls : list string) (i i' : Z) (sc sc' : scan) :
  run_lines scan_body (i, sc) ls = ((i', sc'), None) ->
  original_message sc' = original_message sc
  \/ exists t, original_message sc' = Some t /\ capturable ls t.
Proof.
  revert i sc. induction ls as [|l ls IH]; intros i sc.
  - cbn. intros [= <- <-]. now left.
  - cbn [run_lines].
    destruct (scan_body (i, sc) l) as [[i1 sc1]|] eqn:Hstep; [|discriminate].
    intros Hrun. apply IH in Hrun as [Hsame | (t & Ht & Hcap)].
    + apply scan_body_message in Hstep as [Hsame1 | (t & Ht & Hcap)];
        cbn [snd] in *.
      * left. congruence.
      * right. exists t. split; [congruence |].
        apply (capturable_mono [l]); [|exact Hcap].
        intros x [<- | []]. now left.
    + right. exists t. split; [exact Ht |].
      apply (capturable_mono ls); [|exact Hcap]. intros x Hx. now right.
Qed.

(** X16.  The message the scan captures is always the text of a text
    item of an enqueue record of the file, and it is never empty and never
    starts with an IDE tag. *)
Theorem captured_message_is_real (f : file) (sc : scan) (t : string) :
  scan_of f = Return sc ->
  original_message sc = Some t ->
  capturable (readlines (f_data f)) t.
Proof.
  unfold scan_of, for_line_in, delivered. intros Hscan Ht.
  destruct (f_fault f).
  { destruct (run_lines _ _ _) as [[i sc1] [e|]]; discriminate. }
  destruct (run_lines _ _ _) as [[i sc1] [e|]] eqn:Hrun; [discriminate |].
  injection Hscan as ->.
  apply run_scan_message in Hrun as [Hsame | (t' & Ht' & Hcap)].
  - cbn [original_message] in Hsame. congruence.
  - congruence.
Qed.

End EnqueueReplace.

Lemma enqueue_text_replaces_plain_text_witness :
  merge_content "New title" (Some "real message")
    (JArr ([Ex.image_item; Ex.ide_item] ++ More.plain_item :: [Ex.tool_item]))
  = Return
      (JArr [Ex.image_item; Ex.ide_item;
             JObj [("type", JStr "text");
                   ("text", JStr (titled "New title" "real message"));
                   ("cache", JBool true)];
             Ex.tool_item]).
Proof.
  apply (enqueue_text_replaces_plain_text "New title" "real message"
           "old words" [Ex.image_item; Ex.ide_item] [Ex.tool_item]
           [("type", JStr "text"); ("text", JStr "old words");
            ("cache", JBool true)]).
  - intros x [<- | [<- | []]]; vm_compute; congruence.
  - reflexivity.
  - reflexivity.
  - reflexivity.
Defined.

Lemma captured_message_is_real_witness :
  @capturable py_json (readlines (f_data Ex.enqueue_file)) "real message".
Proof.
  apply (@captured_message_is_real py_json Ex.enqueue_file
           {| first_user_idx := 2; original_message := Some "real message" |}).
  - vm_compute. reflexivity.
  - reflexivity.
Defined.

(* ===================================================================== *)
(** * Cleanup Planner: where the candidates come from *)
(* ===================================================================== *)

Section PlannerProvenance.

Context `{Codec}.

Lemma lookup_dir_in (name : string) (t : tree)
  (entries : list (string * file)) :
  lookup_dir name t = Some entries -> In (name, entries) t.
Proof.
  induction t as [|[d es] t IH]; cbn [lookup_dir]; [discriminate |].
  destruct (String.eqb d name) eqn:Hd.
  - apply String.eqb_eq in Hd. subst d. intros [= <-]. now left.
  - intros Hrest. right. now apply IH.
Qed.

(** The directories the planner visits. *)
Lemma project_dirs_in (t : tree) (project_name : option string)
  (d : string) (entries : list (string * file)) :
  In (d, entries) (project_dirs t project_name) ->
  In (d, entries) t
  /\ match project_name with
     | Some p =>
         if String.eqb p EmptyString then startswith "." d = false
         else d = p
     | None => startswith "." d = false
     end.
Proof.
  unfold project_dirs.
  assert (Hall : In (d, entries)
                   (List.filter
                      (fun d0 : string * list (string * file) =>
                         negb (startswith "." (fst d0))) t) ->
                 In (d, entries) t /\ startswith "." d = false).
  { intros Hin. apply filter_In in Hin as [Hin Hdot]. split; [exact Hin |].
    cbn [fst] in Hdot. now apply negb_true_iff in Hdot. }
  destruct project_name as [p|]; [|exact Hall].
  destruct (String.eqb p EmptyString); cbn [negb]; [exact Hall |].
  destruct (lookup_dir p t) as [es|] eqn:Hdir; [|intros []].
  intros [[= <- <-] | []]. split; [now apply lookup_dir_in | reflexivity].
Qed.

(** X17.  Every cleanup candidate, empty or invalid, stands for a
    [*.jsonl] file of a visited directory whose name does not start with
    [agent-], and carries the name of that directory, the stem of the file
    name and the size of the file in bytes.  With a project name only that
    project
    is visited; without one, no directory whose name starts with a dot. *)
Theorem cleanup_candidates_provenance (t : tree)
  (project_name : option string) (info : session_info) :
  In info (empty_sessions (find_cleanable_sessions t project_name)
           ++ invalid_api_key_sessions
                (find_cleanable_sessions t project_name)) ->
  exists d entries name f,
    In (d, entries) t
    /\ In (name, f) entries
    /\ startswith "agent-" name = false
    /\ info = {| si_project_name := d; si_session_id := stem name;
                 si_file_size := st_size f |}
    /\ match project_name with
       | Some p =>
           if String.eqb p EmptyString then startswith "." d = false
           else d = p
       | None => startswith "." d = false
       end.
Proof.
  destruct (find_cleanable_sessions_spec t project_name) as [Hinv Hemp].
  rewrite Hinv, Hemp. intros Hin.
  assert (Hscanned : exists e, In e (scanned_files t project_name)
                               /\ info = info_of e).
  { apply in_app_or in Hin as [Hin | Hin];
      apply in_map_iff in Hin as (e & <- & Hin);
      apply filter_In in Hin as [Hin _]; now exists e. }
  destruct Hscanned as ([d [name f]] & Hin' & ->).
  unfold scanned_files in Hin'. apply in_flat_map in Hin'
    as ([d' entries] & Hdir & Hfile).
  cbn [fst snd] in Hfile. apply in_map_iff in Hfile
    as ([name' f'] & [= <- <- <-] & Hfile).
  apply filter_In in Hfile as [Hfile Hagent]. cbn [fst] in Hagent.
  apply project_dirs_in in Hdir as [Hdir Hvisit].
  exists d', entries, name', f'.
  split; [exact Hdir |]. split; [exact Hfile |].
  split; [now apply negb_true_iff in Hagent |]. split; [|exact Hvisit].
  unfold info_of, status_of. cbn [fst snd]. f_equal.
  now destruct (status_invariant (Some f')) as (_ & _ & _ & ->).
Qed.

End PlannerProvenance.

Lemma cleanup_candidates_provenance_witness :
  exists d entries name f,
    In (d, entries) More.mixed_tree
    /\ In (name, f) entries
    /\ startswith "agent-" name = false
    /\ {| si_project_name := "proj"; si_session_id := "s2";
          si_file_size := st_size Ex.garbled_file |}
       = {| si_project_name := d; si_session_id := stem name;
            si_file_size := st_size f |}
    /\ startswith "." d = false.
Proof.
  apply (@cleanup_candidates_provenance py_json More.mixed_tree None).
  vm_compute. left. reflexivity.
Defined.

(** The plan for the example: the hidden directory and the agent
    transcript are passed over, the session with messages is kept. *)
Lemma mixed_tree_plan :
  @find_cleanable_sessions py_json More.mixed_tree None
  = {| empty_sessions :=
         [{| si_project_name := "proj"; si_session_id := "s2";
             si_file_size := st_size Ex.garbled_file |}];
       invalid_api_key_sessions :=
         [{| si_project_name := "other"; si_session_id := "s4";
             si_file_size := st_size Ex.invalid_key_file |}];
       total_count := 2 |}.
Proof. vm_compute. reflexivity. Qed.

(* ===================================================================== *)
(** * Display names *)
(* ===================================================================== *)

Lemma has_char_app (c : ascii) (a b : string) :
  PyText.has_char c (a ++ b) = PyText.has_char c a || PyText.has_char c b.
Proof.
  induction a as [|x a IH]; cbn [String.append PyText.has_char orb];
    [reflexivity |].
  now rewrite IH, orb_assoc.
Qed.

Lemma split_parts_free (sep : ascii) (s : string) :
  PyText.split sep s <> []
  /\ Forall (fun part => PyText.has_char sep part = false)
       (PyText.split sep s).
Proof.
  induction s as [|c s [Hne IH]]; cbn [PyText.split].
  - split; [discriminate | now repeat constructor].
  - destruct (Ascii.eqb c sep) eqn:Hc.
    + split; [discriminate |]. now constructor.
    + destruct (PyText.split sep s) as [|part parts]; [now destruct Hne |].
      split; [discriminate |]. inversion IH; subst.
      constructor; [|assumption]. cbn [PyText.has_char]. now rewrite Hc.
Qed.

Lemma join_free (c : ascii) (sep : string) (parts : list string) :
  PyText.has_char c sep = false ->
  Forall (fun part => PyText.has_char c part = false) parts ->
  PyText.has_char c (PyText.join sep parts) = false.
Proof.
  intros Hsep. induction 1 as [|part rest Hpart Hrest IH];
    cbn [PyText.join]; [reflexivity |].
  destruct rest as [|next rest]; [exact Hpart |].
  now rewrite !has_char_app, Hpart, Hsep, IH.
Qed.

Lemma slice_from_free (c : ascii) (n : nat) (s : string) :
  PyText.has_char c s = false ->
  PyText.has_char c (slice_from n s) = false.
Proof.
  revert s. induction n as [|n IH]; intros [|x s];
    cbn [slice_from PyText.has_char]; try easy.
  intros Hs. apply orb_false_iff in Hs as [_ Hs]. now apply IH.
Qed.

Lemma last_free (c : ascii) (parts : list string) :
  Forall (fun part => PyText.has_char c part = false) parts ->
  PyText.has_char c (List.last parts EmptyString) = false.
Proof.
  induction 1 as [|part rest Hpart Hrest IH]; [reflexivity |].
  destruct rest as [|next rest]; [exact Hpart | exact IH].
Qed.

Lemma nth_free (c : ascii) (n : nat) (parts : list string) :
  Forall (fun part => PyText.has_char c part = false) parts ->
  PyText.has_char c (nth n parts EmptyString) = false.
Proof.
  intros Hall. revert n. induction Hall as [|part rest Hpart Hrest IH];
    intros [|n]; cbn [nth]; try easy.
Qed.

Lemma merge_ending_free (parts : list string) :
  Forall (fun part => PyText.has_char "-" part = false) parts ->
  Forall (fun part => PyText.has_char "-" part = false) (merge_ending parts).
Proof.
  intros Hall. unfold merge_ending.
  destruct (1 <? length parts)%nat; [|exact Hall].
  destruct (existsb _ dotted_endings); [|exact Hall].
  apply Forall_take, Forall_insert; [exact Hall |].
  rewrite !has_char_app, nth_free, last_free by exact Hall. reflexivity.
Qed.

(** X18.  A display name never contains a hyphen: every hyphen of the
    directory name is shown as a path separator or as part of [/.]. *)
Theorem display_name_has_no_hyphen (name : string) :
  PyText.has_char "-" (format_project_name name) = false.
Proof.
  unfold format_project_name.
  set (stripped := if startswith "-" name then slice_from 1 name else name).
  set (parts := merge_ending
                  (PyText.split "-" (PyText.replace "--" "/." stripped))).
  assert (Hjoined : PyText.has_char "-" ("/" ++ PyText.join "/" parts)
                    = false).
  { rewrite has_char_app. cbn [PyText.has_char orb Ascii.eqb Bool.eqb].
    apply join_free; [reflexivity |]. apply merge_ending_free.
    apply split_parts_free. }
  destruct (startswith "/Users/young" _); [|exact Hjoined].
  rewrite has_char_app. cbn [PyText.has_char orb Ascii.eqb Bool.eqb].
  now apply slice_from_free.
Qed.

(** A directory name made of plain components holds no double hyphen. *)
Lemma replace_free (p : string) :
  PyText.has_char "-" p = false ->
  PyText.replace_from 0 "--" "/." p = p.
Proof.
  induction p as [|c p IH]; cbn [PyText.replace_from PyText.has_char];
    [reflexivity |].
  intros Hc. apply orb_false_iff in Hc as [Hc Hp].
  rewrite prefix_cons, (Ascii.eqb_sym "-" c), Hc. cbn [andb].
  now rewrite IH.
Qed.

Lemma replace_component (p tail : string) :
  PyText.has_char "-" p = false ->
  startswith "-" tail = false ->
  PyText.replace_from 0 "--" "/." tail = tail ->
  PyText.replace_from 0 "--" "/." (p ++ String "-" tail)
  = (p ++ String "-" tail)%string.
Proof.
  intros Hp Htail Hrest. induction p as [|c p IH].
  - cbn [String.append PyText.replace_from].
    rewrite prefix_cons. cbn [Ascii.eqb Bool.eqb andb].
    unfold startswith in Htail. rewrite Htail. now rewrite Hrest.
  - cbn [PyText.has_char] in Hp. apply orb_false_iff in Hp as [Hc Hp].
    cbn [String.append PyText.replace_from].
    rewrite prefix_cons, (Ascii.eqb_sym "-" c), Hc. cbn [andb].
    now rewrite (IH Hp).
Qed.

Lemma plain_not_hyphen_first (p tail : string) :
  plain_component p -> startswith "-" (p ++ tail) = false.
Proof.
  intros [Hne Hp]. destruct p as [|c p]; [now destruct Hne |].
  cbn [PyText.has_char] in Hp. apply orb_false_iff in Hp as [Hc _].
  unfold startswith. cbn [String.append]. rewrite prefix_cons.
  now rewrite (Ascii.eqb_sym "-" c), Hc.
Qed.

Lemma join_cons (sep part next : string) (rest : list string) :
  PyText.join sep (part :: next :: rest)
  = (part ++ sep ++ PyText.join sep (next :: rest))%string.
Proof. reflexivity. Qed.

Lemma join_not_hyphen_first (comps : list string) :
  Forall plain_component comps ->
  startswith "-" (PyText.join "-" comps) = false.
Proof.
  intros [|p rest Hp _]; [reflexivity |].
  destruct rest as [|next rest].
  - cbn [PyText.join]. rewrite <- (append_nil_r p) at 1.
    now apply plain_not_hyphen_first.
  - rewrite join_cons. now apply plain_not_hyphen_first.
Qed.

Lemma replace_dir_name (comps : list string) :
  Forall plain_component comps ->
  PyText.replace "--" "/." (PyText.join "-" comps) = PyText.join "-" comps.
Proof.
  unfold PyText.replace. induction 1 as [|p rest Hp Hrest IH];
    [reflexivity |].
  destruct rest as [|next rest].
  - cbn [PyText.join]. apply replace_free, Hp.
  - rewrite join_cons. apply replace_component; [apply Hp | | exact IH].
    now apply join_not_hyphen_first.
Qed.

Lemma split_free (p : string) :
  PyText.has_char "-" p = false -> PyText.split "-" p = [p].
Proof.
  induction p as [|c p IH]; cbn [PyText.split PyText.has_char];
    [reflexivity |].
  intros Hc. apply orb_false_iff in Hc as [Hc Hp].
  now rewrite Hc, (IH Hp).
Qed.

Lemma split_component (p tail : string) :
  PyText.has_char "-" p = false ->
  PyText.split "-" (p ++ String "-" tail) = p :: PyText.split "-" tail.
Proof.
  induction p as [|c p IH]; cbn [String.append PyText.split PyText.has_char].
  - reflexivity.
  - intros Hc. apply orb_false_iff in Hc as [Hc Hp].
    now rewrite Hc, (IH Hp).
Qed.

Lemma split_dir_name (comps : list string) :
  Forall plain_component comps -> comps <> [] ->
  PyText.split "-" (PyText.join "-" comps) = comps.
Proof.
  induction 1 as [|p rest Hp Hrest IH]; [easy |]. intros _.
  destruct rest as [|next rest].
  - cbn [PyText.join]. apply split_free, Hp.
  - rewrite join_cons. cbn [String.append].
    rewrite split_component by apply Hp. now rewrite IH.
Qed.

(** The parts of the directory name of a path are the components of the
    path, the root standing for one empty part. *)
Lemma format_dir_name (comps : list string) :
  Forall plain_component comps ->
  format_project_name (dir_name_of comps)
  = home_shortened ("/" ++ PyText.join "/" (merge_ending comps)).
Proof.
  intros Hplain.
  assert (Hstrip : (if startswith "-" (dir_name_of comps)
                    then slice_from 1 (dir_name_of comps)
                    else dir_name_of comps) = PyText.join "-" comps).
  { unfold startswith, dir_name_of. cbn [String.append].
    now rewrite prefix_cons, prefix_empty. }
  unfold format_project_name. cbv zeta. rewrite Hstrip.
  rewrite replace_dir_name by exact Hplain.
  destruct comps as [|p rest]; [reflexivity |].
  now rewrite split_dir_name.
Qed.

Lemma existsb_eqb_in (x : string) (l : list string) :
  existsb (String.eqb x) l = true <-> In x l.
Proof.
  rewrite existsb_exists. split.
  - intros (y & Hy & Heq). apply String.eqb_eq in Heq. now subst.
  - intros Hin. exists x. split; [exact Hin | apply String.eqb_refl].
Qed.

(** X19.  Round trip: for a path whose components are not empty and hold
    no hyphen, and which has one component at most or a last component
    that is not one of the dotted endings, the display name of its
    directory name is the path itself, with [/Users/young] shortened to
    [~]. *)
Theorem display_name_of_plain_path (comps : list string) :
  Forall plain_component comps ->
  ((1 < length comps)%nat ->
   ~ In (List.last comps EmptyString) dotted_endings) ->
  format_project_name (dir_name_of comps)
  = home_shortened ("/" ++ PyText.join "/" comps).
Proof.
  intros Hplain Hlast. rewrite format_dir_name by exact Hplain.
  unfold merge_ending.
  destruct (1 <? length comps)%nat eqn:Hlen; [|reflexivity].
  apply Nat.ltb_lt in Hlen.
  destruct (existsb _ dotted_endings) eqn:Hin; [|reflexivity].
  apply existsb_eqb_in in Hin. now destruct (Hlast Hlen).
Qed.

(** X20.  When the last component of a path is one of the dotted endings,
    it is shown joined to the component before it by a dot instead of a
    path separator. *)
Theorem display_name_of_dotted_ending (before : list string)
  (prev ending : string) :
  Forall plain_component (before ++ [prev; ending]) ->
  In ending dotted_endings ->
  format_project_name (dir_name_of (before ++ [prev; ending]))
  = home_shortened
      ("/" ++ PyText.join "/" (before ++ [(prev ++ "." ++ ending)%string])).
Proof.
  intros Hplain Hin. rewrite format_dir_name by exact Hplain.
  do 2 f_equal. unfold merge_ending.
  rewrite length_app. cbn [length].
  replace (1 <? length before + 2)%nat with true
    by (symmetry; apply Nat.ltb_lt; lia).
  replace (before ++ [prev; ending]) with ((before ++ [prev]) ++ [ending])
    by now rewrite <- app_assoc.
  rewrite last_last.
  apply existsb_eqb_in in Hin. rewrite Hin.
  rewrite <- app_assoc. cbn [app].
  replace (length before + 2 - 2)%nat with (length before) by lia.
  rewrite nth_middle.
  rewrite insert_app_r_alt by lia.
  replace (length before - length before)%nat with 0%nat by lia.
  cbn [insert list_insert].
  replace (length before + 2 - 1)%nat with (length before + 1)%nat by lia.
  now rewrite take_app_add.
Qed.

Lemma display_name_of_plain_path_witness :
  format_project_name (dir_name_of ["Users"; "young"; "work"; "site"])
  = home_shortened ("/" ++ PyText.join "/" ["Users"; "young"; "work"; "site"]).
Proof.
  apply (display_name_of_plain_path ["Users"; "young"; "work"; "site"]).
  - repeat constructor; discriminate.
  - intros _. vm_compute. intuition discriminate.
Defined.

Lemma display_name_of_dotted_ending_witness :
  format_project_name (dir_name_of (["srv"] ++ ["tools"; "py"]))
  = home_shortened ("/" ++ PyText.join "/" (["srv"] ++ ["tools.py"])).
Proof.
  apply (display_name_of_dotted_ending ["srv"] "tools" "py").
  - repeat constructor; discriminate.
  - vm_compute. tauto.
Defined.

(* ===================================================================== *)
(** * Project listing *)
(* ===================================================================== *)

Lemma collect_projects_in (t : tree) (p : project) :
  In p (collect_projects t)
  <-> exists name entries,
        In (name, entries) t
        /\ startswith "." name = false
        /\ p = {| p_name := name;
                  p_display_name := format_project_name name;
                  p_session_count := Z.of_nat (length entries) |}.
Proof.
  induction t as [|[d es] t IH]; cbn [collect_projects].
  - split; [intros [] | now intros (? & ? & [] & _)].
  - destruct (startswith "." d) eqn:Hdot; cbn [negb].
    + rewrite IH. split.
      * intros (name & entries & Hin & Hrest).
        exists name, entries. split; [now right | exact Hrest].
      * intros (name & entries & [[= <- <-] | Hin] & Hname & Hp);
          [congruence |].
        now exists name, entries.
    + cbn [In]. rewrite IH. split.
      * intros [<- | (name & entries & Hin & Hrest)].
        -- exists d, es. split; [now left | now split].
        -- exists name, entries. split; [now right | exact Hrest].
      * intros (name & entries & [[= <- <-] | Hin] & Hname & Hp).
        -- left. now symmetry.
        -- right. now exists name, entries.
Qed.

(** X21.  [get_projects] never raises; it lists one project for every
    directory whose name does not start with a dot, with the number of
    [*.jsonl] files of the directory as [session_count], in ascending order
    of the directory names. *)
Theorem get_projects_sorted_by_name (t : tree) :
  exists projects,
    get_projects t = Return projects
    /\ StronglySorted (ascending_by p_name) projects
    /\ Permutation projects (collect_projects t)
    /\ forall p,
         In p projects
         <-> exists name entries,
               In (name, entries) t
               /\ startswith "." name = false
               /\ p = {| p_name := name;
                         p_display_name := format_project_name name;
                         p_session_count := Z.of_nat (length entries) |}.
Proof.
  destruct (sorted_strings (fun p => JStr (p_name p)) p_name false
              (collect_projects t)) as (projects & Hsorted & Horder);
    [reflexivity |].
  exists projects. split; [exact Hsorted |]. split; [exact Horder |].
  apply sorted_perm in Hsorted. split; [exact Hsorted |].
  intros p. rewrite <- collect_projects_in. split; intros Hin.
  - now apply (Permutation_in _ Hsorted).
  - now apply (Permutation_in _ (Permutation_sym Hsorted)).
Qed.

Section ListingCount.

Context `{Codec}.

Lemma collect_sessions_length (entries : list (string * file)) :
  (length (collect_sessions entries) <= length entries)%nat.
Proof.
  induction entries as [|[name f] entries IH]; cbn [collect_sessions length];
    [lia |].
  destruct (startswith "agent-" name); [lia |].
  destruct (parse_session_summary (stem name) f); cbn [length]; lia.
Qed.

Lemma lookup_dir_unique (t : tree) (name : string)
  (entries : list (string * file)) :
  List.NoDup (map fst t) -> In (name, entries) t ->
  lookup_dir name t = Some entries.
Proof.
  induction t as [|[d es] t IH]; cbn [map fst lookup_dir]; [intros _ [] |].
  intros Hnodup [[= <- <-] | Hin].
  - now rewrite String.eqb_refl.
  - inversion Hnodup as [|? ? Hd Hrest]; subst.
    destruct (String.eqb d name) eqn:Heq; [|now apply IH].
    apply String.eqb_eq in Heq. subst d. destruct Hd.
    apply in_map_iff. now exists (name, entries).
Qed.

(** X22.  The [session_count] of a listed project is an upper bound of the
    number of sessions [get_sessions] lists for it: agent transcripts and
    files without a summary are counted but not listed. *)
Theorem session_count_bounds_listing (t : tree) (projects : list project)
  (p : project) (sessions : list summary) :
  List.NoDup (map fst t) ->
  get_projects t = Return projects ->
  In p projects ->
  get_sessions t (p_name p) = Return sessions ->
  Z.of_nat (length sessions) <= p_session_count p.
Proof.
  intros Hnodup Hprojects Hp Hsessions.
  unfold get_projects in Hprojects. apply sorted_perm in Hprojects.
  apply (Permutation_in _ Hprojects) in Hp.
  apply collect_projects_in in Hp as (name & entries & Hin & _ & ->).
  cbn [p_name p_session_count] in *.
  unfold get_sessions in Hsessions.
  rewrite (lookup_dir_unique t name entries Hnodup Hin) in Hsessions.
  apply sorted_perm, Permutation_length in Hsessions.
  pose proof (collect_sessions_length entries). lia.
Qed.

End ListingCount.

Lemma session_count_bounds_listing_witness :
  Z.of_nat
    (length
       [{| session_id := "b"; title := "hello"; message_count := 1;
           created_at := JNull; updated_at := JNull |}])
  <= p_session_count
       {| p_name := "-Users-me-example-com";
          p_display_name := "/Users/me/example.com";
          p_session_count := 3 |}.
Proof.
  apply (@session_count_bounds_listing py_json Shown.projects_tree
           [{| p_name := "-Users-me-example-com";
               p_display_name := "/Users/me/example.com";
               p_session_count := 3 |};
            {| p_name := "-Users-young-work-site";
               p_display_name := "~/work/site";
               p_session_count := 1 |}]).
  - repeat constructor; vm_compute; intuition discriminate.
  - vm_compute. reflexivity.
  - left. reflexivity.
  - vm_compute. reflexivity.
Defined.

(* ===================================================================== *)
(** * Bulk cleanup *)
(* ===================================================================== *)

(** [delete_session] leaves every other path alone, whether the session
    exists or not. *)
Lemma delete_session_frame (base project_name session_id : string)
  (m : fs) (path : string) :
  path <> session_file base project_name session_id ->
  path <> backup_file base project_name session_id ->
  path <> backup_dir base ->
  snd (delete_session base project_name session_id m) !! path = m !! path.
Proof.
  intros H1 H2 H3.
  destruct (m !! session_file base project_name session_id) as [n|] eqn:Hsrc.
  - destruct (delete_session_outcome base project_name session_id m n Hsrc)
      as [_ Hframe]. now apply Hframe.
  - now rewrite delete_session_missing.
Qed.

(** A regular session file is moved when nothing is in the way. *)
Lemma delete_session_regular (base project_name session_id : string)
  (m : fs) (f : file) :
  m !! session_file base project_name session_id = Some (File f) ->
  (m !! backup_dir base = None \/ m !! backup_dir base = Some Dir) ->
  m !! backup_file base project_name session_id <> Some Dir ->
  let r := delete_session base project_name session_id m in
  fst r = Return true
  /\ snd r !! backup_dir base = Some Dir
  /\ snd r !! backup_file base project_name session_id = Some (File f)
  /\ snd r !! session_file base project_name session_id = None.
Proof.
  intros Hsrc Hdir Hdst. cbn zeta.
  destruct (delete_session_outcome base project_name session_id m _ Hsrc)
    as [[(Hr & Hb & Hs & Hd) | (e & He & _)] _]; [auto |].
  exfalso. revert He. unfold delete_session. rewrite Hsrc.
  pose proof (session_not_backup_dir base project_name session_id) as Hsd.
  pose proof (backup_not_backup_dir base project_name session_id) as Hbd.
  unfold mkdir_exist_ok, rename_path.
  destruct Hdir as [Hdir | Hdir]; rewrite Hdir.
  - rewrite (lookup_insert_ne m (backup_dir base)) by congruence.
    rewrite Hsrc.
    rewrite (lookup_insert_ne m (backup_dir base)
               (backup_file base project_name session_id)) by congruence.
    destruct (m !! backup_file base project_name session_id)
      as [[g|]|] eqn:Hb; cbn [fst]; try discriminate.
    congruence.
  - rewrite Hsrc.
    destruct (m !! backup_file base project_name session_id)
      as [[g|]|] eqn:Hb; cbn [fst]; try discriminate.
    congruence.
Qed.

(** The four ways one turn of the loop of [clear_sessions] can end. *)
Lemma clear_body_cases (base : string) (deleted : cleared) (m : fs)
  (info : session_info) (reason : string) :
  let r := clear_body base (deleted, m) (info, reason) in
  snd r = snd (delete_session base (si_project_name info)
                 (si_session_id info) m)
  /\ ((for_empty (info, reason) = true
       /\ deleted_empty_sessions (fst r)
          = deleted_empty_sessions deleted ++ [info]
       /\ deleted_invalid_api_key_sessions (fst r)
          = deleted_invalid_api_key_sessions deleted
       /\ total_deleted (fst r) = total_deleted deleted + 1
       /\ errors (fst r) = errors deleted
       /\ fst (delete_session base (si_project_name info)
                 (si_session_id info) m) = Return true)
      \/ (for_empty (info, reason) = false
          /\ deleted_empty_sessions (fst r) = deleted_empty_sessions deleted
          /\ deleted_invalid_api_key_sessions (fst r)
             = deleted_invalid_api_key_sessions deleted ++ [info]
          /\ total_deleted (fst r) = total_deleted deleted + 1
          /\ errors (fst r) = errors deleted
          /\ fst (delete_session base (si_project_name info)
                    (si_session_id info) m) = Return true)
      \/ (fst r = deleted
          /\ fst (delete_session base (si_project_name info)
                    (si_session_id info) m) = Return false)
      \/ (exists e,
            deleted_empty_sessions (fst r) = deleted_empty_sessions deleted
            /\ deleted_invalid_api_key_sessions (fst r)
               = deleted_invalid_api_key_sessions deleted
            /\ total_deleted (fst r) = total_deleted deleted
            /\ errors (fst r) = errors deleted ++ [(info, e)]
            /\ fst (delete_session base (si_project_name info)
                      (si_session_id info) m) = Raise e)).
Proof.
  cbn zeta. unfold clear_body, for_empty. cbn [snd].
  destruct (delete_session base (si_project_name info) (si_session_id info) m)
    as [[[|]|e] m'].
  - destruct (String.eqb reason "empty"); cbn [fst snd];
      (split; [reflexivity |]); [left | right; left]; repeat split.
  - cbn [fst snd]. split; [reflexivity |]. right; right; left. now split.
  - cbn [fst snd]. split; [reflexivity |]. right; right; right.
    exists e. repeat split.
Qed.

(** What the loop of [clear_sessions] adds to its result. *)
Lemma clear_fold_accounting (base : string)
  (jobs : list (session_info * string)) (deleted : cleared) (m : fs) :
  let r := fold_left (clear_body base) jobs (deleted, m) in
  exists gone_empty gone_invalid failed,
    deleted_empty_sessions (fst r)
    = deleted_empty_sessions deleted ++ gone_empty
    /\ deleted_invalid_api_key_sessions (fst r)
       = deleted_invalid_api_key_sessions deleted ++ gone_invalid
    /\ errors (fst r) = errors deleted ++ failed
    /\ total_deleted (fst r)
       = total_deleted deleted + Z.of_nat (length gone_empty)
         + Z.of_nat (length gone_invalid)
    /\ sublist gone_empty (map fst (List.filter for_empty jobs))
    /\ sublist gone_invalid
         (map fst (List.filter (fun job => negb (for_empty job)) jobs))
    /\ sublist (map fst failed) (map fst jobs)
    /\ (length gone_empty + length gone_invalid + length failed
        <= length jobs)%nat.
Proof.
  cbn zeta. revert deleted m.
  induction jobs as [|[info reason] jobs IH]; intros deleted m.
  - exists [], [], []. cbn [fold_left fst length]. rewrite !app_nil_r.
    repeat split; try constructor; lia.
  - cbn [fold_left].
    destruct (clear_body base (deleted, m) (info, reason))
      as [deleted1 m1] eqn:Hbody.
    pose proof (clear_body_cases base deleted m info reason) as Hcases.
    cbn zeta in Hcases. rewrite Hbody in Hcases. cbn [fst snd] in Hcases.
    destruct Hcases as [_ Hcases].
    destruct (IH deleted1 m1)
      as (ge & gi & fl & He & Hi & Hf & Ht & Hse & Hsi & Hsf & Hlen).
    cbn [List.filter map length].
    destruct Hcases
      as [(Hfor & Ce & Ci & Ct & Cf & _)
         | [(Hfor & Ce & Ci & Ct & Cf & _)
           | [[-> _] | (e & Ce & Ci & Ct & Cf & _)]]].
    + exists (info :: ge), gi, fl. rewrite Hfor. cbn [negb map fst length].
      rewrite He, Hi, Hf, Ht, Ce, Ci, Ct, Cf, <- app_assoc.
      repeat split; try assumption;
        [lia | now apply sublist_skip | now apply sublist_cons | lia].
    + exists ge, (info :: gi), fl. rewrite Hfor. cbn [negb map fst length].
      rewrite He, Hi, Hf, Ht, Ce, Ci, Ct, Cf, <- app_assoc.
      repeat split; try assumption;
        [lia | now apply sublist_skip | now apply sublist_cons | lia].
    + exists ge, gi, fl.
      repeat split; try assumption;
        [ destruct (for_empty (info, reason)); cbn [negb map fst];
          [now apply sublist_cons | assumption]
        | destruct (for_empty (info, reason)); cbn [negb map fst];
          [assumption | now apply sublist_cons]
        | now apply sublist_cons | lia ].
    + exists ge, gi, ((info, e) :: fl). cbn [map fst length].
      rewrite He, Hi, Hf, Ht, Ce, Ci, Ct, Cf, <- app_assoc.
      repeat split; try assumption;
        [ destruct (for_empty (info, reason)); cbn [negb map fst];
          [now apply sublist_cons | assumption]
        | destruct (for_empty (info, reason)); cbn [negb map fst];
          [assumption | now apply sublist_cons]
        | now apply sublist_skip | lia ].
Qed.

(** The loop of [clear_sessions] touches the files of its jobs only. *)
Lemma clear_fold_frame (base : string)
  (jobs : list (session_info * string)) (deleted : cleared) (m : fs)
  (path : string) :
  path <> backup_dir base ->
  (forall job, In job jobs -> ~ touched_by base (fst job) path) ->
  snd (fold_left (clear_body base) jobs (deleted, m)) !! path = m !! path.
Proof.
  intros Hdir. revert deleted m.
  induction jobs as [|[info reason] jobs IH]; intros deleted m Hjobs;
    [reflexivity |].
  cbn [fold_left].
  destruct (clear_body base (deleted, m) (info, reason))
    as [deleted1 m1] eqn:Hbody.
  pose proof (clear_body_cases base deleted m info reason) as [Hm _].
  rewrite Hbody in Hm. cbn [snd] in Hm.
  rewrite IH by (intros job Hjob; apply Hjobs; now right).
  rewrite Hm. apply delete_session_frame; [| | exact Hdir];
    intros Heq; apply (Hjobs (info, reason)); try (now left);
    unfold touched_by; cbn [fst]; auto.
Qed.

Lemma jobs_of_reason (keep : session_info * string -> bool) (reason : string)
  (l : list session_info) :
  map fst (List.filter keep (map (fun s => (s, reason)) l))
  = List.filter (fun s => keep (s, reason)) l.
Proof.
  induction l as [|s l IH]; cbn [map List.filter]; [reflexivity |].
  destruct (keep (s, reason)); cbn [map fst]; now rewrite IH.
Qed.

Lemma filter_all {A : Type} (l : list A) :
  List.filter (fun _ => true) l = l.
Proof. induction l as [|x l IH]; cbn [List.filter]; congruence. Qed.

Lemma filter_nothing {A : Type} (l : list A) :
  List.filter (fun _ => false) l = [].
Proof. induction l as [|x l IH]; cbn [List.filter]; congruence. Qed.

Lemma jobs_for_empty (plan : cleanable) (clear_empty clear_invalid : bool) :
  map fst (List.filter for_empty
             (sessions_to_delete plan clear_empty clear_invalid))
  = (if clear_empty then empty_sessions plan else [])
  /\ map fst (List.filter (fun job => negb (for_empty job))
                (sessions_to_delete plan clear_empty clear_invalid))
     = (if clear_invalid then invalid_api_key_sessions plan else [])
  /\ map fst (sessions_to_delete plan clear_empty clear_invalid)
     = planned plan clear_empty clear_invalid.
Proof.
  unfold sessions_to_delete, planned.
  rewrite !List.filter_app, !map_app.
  destruct clear_empty, clear_invalid; cbn [List.filter map app];
    rewrite ?jobs_of_reason; unfold for_empty; cbn [snd String.eqb negb];
    rewrite ?filter_all, ?filter_nothing, ?app_nil_r, ?map_map; cbn [fst];
    rewrite ?map_id; repeat split.
Qed.

Section CleanupProofs.

Context `{Codec}.

(** X23.  What [clear_sessions] reports: the deleted empty sessions are
    candidates of the plan for empty sessions, in the plan's order, and only
    when [clear_empty] is set; likewise the deleted invalid sessions; the
    sessions with an error are planned ones; [total_deleted] is the number
    of sessions in the two lists; and the sessions reported, deleted or
    failed, are no more than the planned ones. *)
Theorem clear_sessions_accounting (base : string) (t : tree)
  (project_name : option string) (clear_empty clear_invalid : bool) (m : fs) :
  let plan := find_cleanable_sessions t project_name in
  let r := fst (clear_sessions base t project_name clear_empty clear_invalid
                  m) in
  sublist (deleted_empty_sessions r)
    (if clear_empty then empty_sessions plan else [])
  /\ sublist (deleted_invalid_api_key_sessions r)
       (if clear_invalid then invalid_api_key_sessions plan else [])
  /\ sublist (map fst (errors r)) (planned plan clear_empty clear_invalid)
  /\ total_deleted r
     = Z.of_nat (length (deleted_empty_sessions r))
       + Z.of_nat (length (deleted_invalid_api_key_sessions r))
  /\ total_deleted r + Z.of_nat (length (errors r))
     <= Z.of_nat (length (planned plan clear_empty clear_invalid)).
Proof.
  cbn zeta. unfold clear_sessions.
  destruct (clear_fold_accounting base
              (sessions_to_delete (find_cleanable_sessions t project_name)
                 clear_empty clear_invalid) nothing_cleared m)
    as (ge & gi & fl & He & Hi & Hf & Ht & Hse & Hsi & Hsf & Hlen).
  destruct (jobs_for_empty (find_cleanable_sessions t project_name)
              clear_empty clear_invalid) as (Je & Ji & Jall).
  rewrite Je in Hse. rewrite Ji in Hsi. rewrite Jall in Hsf.
  apply (f_equal (@length _)) in Jall. rewrite length_map in Jall.
  cbn [nothing_cleared deleted_empty_sessions
         deleted_invalid_api_key_sessions errors total_deleted app] in *.
  rewrite He, Hi, Hf, Ht.
  repeat split; try assumption; lia.
Qed.

(** X24.  [clear_sessions] changes nothing but the [.bak] directory and,
    for the planned candidates, their session files and backup files. *)
Theorem clear_sessions_frame (base : string) (t : tree)
  (project_name : option string) (clear_empty clear_invalid : bool) (m : fs)
  (path : string) :
  path <> backup_dir base ->
  (forall info,
     In info (planned (find_cleanable_sessions t project_name)
                clear_empty clear_invalid) ->
     ~ touched_by base info path) ->
  snd (clear_sessions base t project_name clear_empty clear_invalid m)
    !! path
  = m !! path.
Proof.
  intros Hdir Hplanned. unfold clear_sessions.
  apply clear_fold_frame; [exact Hdir |].
  intros job Hjob. apply Hplanned.
  destruct (jobs_for_empty (find_cleanable_sessions t project_name)
              clear_empty clear_invalid) as (_ & _ & <-).
  now apply in_map.
Qed.

End CleanupProofs.

Lemma clear_sessions_frame_witness :
  snd (@clear_sessions py_json Ex.base More.mixed_tree None true true
         Shown.cleanup_fs)
    !! session_file Ex.base "proj" "s1"
  = Shown.cleanup_fs !! session_file Ex.base "proj" "s1".
Proof.
  apply (@clear_sessions_frame py_json Ex.base More.mixed_tree None true true
           Shown.cleanup_fs (session_file Ex.base "proj" "s1")).
  - vm_compute. discriminate.
  - intros info Hin. vm_compute in Hin.
    destruct Hin as [<- | [<- | []]]; intros [Heq | Heq];
      vm_compute in Heq; discriminate.
Defined.

(** The loop of [clear_sessions] when every job is a regular file and
    nothing is in the way. *)
Lemma clear_fold_success (base : string)
  (jobs : list (session_info * string)) (deleted : cleared) (m : fs) :
  (forall job, In job jobs ->
     exists f, m !! session_path base (fst job) = Some (File f)) ->
  (m !! backup_dir base = None \/ m !! backup_dir base = Some Dir) ->
  (forall job, In job jobs -> m !! backup_path base (fst job) <> Some Dir) ->
  (forall job job', In job jobs -> In job' jobs ->
     session_path base (fst job) <> backup_path base (fst job')) ->
  List.NoDup (map (fun job => session_path base (fst job)) jobs) ->
  let r := fold_left (clear_body base) jobs (deleted, m) in
  deleted_empty_sessions (fst r)
  = deleted_empty_sessions deleted ++ map fst (List.filter for_empty jobs)
  /\ deleted_invalid_api_key_sessions (fst r)
     = deleted_invalid_api_key_sessions deleted
       ++ map fst (List.filter (fun job => negb (for_empty job)) jobs)
  /\ errors (fst r) = errors deleted
  /\ total_deleted (fst r) = total_deleted deleted + Z.of_nat (length jobs)
  /\ (forall job, In job jobs ->
        snd r !! session_path base (fst job) = None
        /\ exists g, snd r !! backup_path base (fst job) = Some (File g))
  /\ (forall path,
        path <> backup_dir base ->
        (forall job, In job jobs -> path <> session_path base (fst job)) ->
        (exists g, m !! path = Some (File g)) ->
        exists g, snd r !! path = Some (File g)).
Proof.
  cbn zeta. revert deleted m.
  induction jobs as [|[info reason] jobs IH];
    intros deleted m Hfiles Hbak Hfree Hapart Hnodup.
  - cbn [fold_left fst snd List.filter map length]. rewrite !app_nil_r.
    refine (conj _ (conj _ (conj _ (conj _ (conj _ _)))));
      [reflexivity | reflexivity | reflexivity | lia | intros ? [] |].
    now intros path _ _ Hpath.
  - cbn [fold_left].
    destruct (Hfiles (info, reason)) as [f Hf]; [now left |].
    cbn [fst] in Hf. unfold session_path in Hf.
    pose proof (Hfree (info, reason) (or_introl eq_refl)) as Hdst.
    cbn [fst] in Hdst. unfold backup_path in Hdst.
    destruct (delete_session_regular base _ _ m f Hf Hbak Hdst)
      as (Hret & Hdir1 & Hb1 & Hs1).
    pose proof (delete_session_frame base (si_project_name info)
                  (si_session_id info) m) as Hframe.
    destruct (clear_body base (deleted, m) (info, reason))
      as [deleted1 m1] eqn:Hbody.
    pose proof (clear_body_cases base deleted m info reason) as Hcases.
    cbn zeta in Hcases. rewrite Hbody in Hcases. cbn [fst snd] in Hcases.
    destruct Hcases as [Hm1 Hcases]. rewrite <- Hm1 in Hdir1, Hb1, Hs1, Hframe.
    clear Hm1 Hbody.
    inversion Hnodup as [|? ? Hfresh Hnodup']; subst.
    assert (Hother : forall job, In job jobs ->
              session_path base (fst job) <> session_path base info).
    { intros job Hjob Heq. apply Hfresh. rewrite <- Heq.
      apply in_map_iff. now exists job. }
    assert (Hfiles1 : forall job, In job jobs ->
              exists g, m1 !! session_path base (fst job) = Some (File g)).
    { intros job Hjob. rewrite Hframe.
      - apply Hfiles. now right.
      - now apply Hother.
      - apply (Hapart job (info, reason)); [now right | now left].
      - apply session_not_backup_dir. }
    assert (Hfree1 : forall job, In job jobs ->
              m1 !! backup_path base (fst job) <> Some Dir).
    { intros job Hjob.
      destruct (string_dec (backup_path base (fst job))
                  (backup_path base info)) as [Heq | Hne].
      - rewrite Heq. unfold backup_path at 1. rewrite Hb1. discriminate.
      - rewrite Hframe.
        + apply Hfree. now right.
        + intros Heq. apply (Hapart (info, reason) job);
            [now left | now right | now symmetry].
        + exact Hne.
        + apply backup_not_backup_dir. }
    destruct (IH deleted1 m1 Hfiles1 (or_intror Hdir1) Hfree1)
      as (He & Hi & Hf' & Ht & Hgone & Hkept); [| exact Hnodup' |].
    { intros job job' Hjob Hjob'. apply Hapart; now right. }
    assert (Hkeep1 : forall path,
              path <> backup_dir base ->
              path <> session_path base info ->
              (exists g, m !! path = Some (File g)) ->
              exists g, m1 !! path = Some (File g)).
    { intros path Hpd Hps Hpath.
      destruct (string_dec path (backup_path base info)) as [-> | Hne].
      - exists f. exact Hb1.
      - now rewrite Hframe. }
    assert (Hlists :
              deleted_empty_sessions deleted1
                ++ map fst (List.filter for_empty jobs)
              = deleted_empty_sessions deleted
                  ++ map fst (List.filter for_empty ((info, reason) :: jobs))
              /\ deleted_invalid_api_key_sessions deleted1
                   ++ map fst (List.filter (fun job => negb (for_empty job))
                                 jobs)
                 = deleted_invalid_api_key_sessions deleted
                     ++ map fst
                          (List.filter (fun job => negb (for_empty job))
                             ((info, reason) :: jobs))
              /\ errors deleted1 = errors deleted
              /\ total_deleted deleted1 = total_deleted deleted + 1).
    { cbn [List.filter].
      destruct Hcases
        as [(Hfor & Ce & Ci & Ct & Cf & _)
           | [(Hfor & Ce & Ci & Ct & Cf & _)
             | [[_ Hno] | (e & _ & _ & _ & _ & Hno)]]];
        try congruence;
        rewrite Hfor, Ce, Ci; cbn [negb map fst];
        rewrite <- ?app_assoc; repeat split; assumption. }
    destruct Hlists as (Le & Li & Lf & Lt).
    rewrite He, Hi, Hf', Ht, Le, Li, Lf, Lt. cbn [length].
    refine (conj eq_refl (conj eq_refl (conj eq_refl (conj _ (conj _ _)))));
      [lia | |].
    + intros job [<- | Hjob]; [|now apply Hgone]. cbn [fst]. split.
      * rewrite clear_fold_frame.
        -- exact Hs1.
        -- apply session_not_backup_dir.
        -- intros job Hjob [Heq | Heq].
           ++ now apply (Hother job Hjob).
           ++ apply (Hapart (info, reason) job);
                [now left | now right | exact Heq].
      * apply Hkept.
        -- apply backup_not_backup_dir.
        -- intros job Hjob Heq.
           apply (Hapart job (info, reason)); [now right | now left |].
           now symmetry.
        -- exists f. exact Hb1.
    + intros path Hpd Hps Hpath. apply Hkept; [exact Hpd | |].
      * intros job Hjob. apply Hps. now right.
      * apply Hkeep1; [exact Hpd | | exact Hpath].
        apply (Hps (info, reason)). now left.
Qed.

Section CleanupSuccess.

Context `{Codec}.

(** X25.  When every planned candidate is a regular file, [.bak] is
    absent or a directory, no backup path is a directory, the candidates
    are distinct files and no candidate lies where a backup goes,
    [clear_sessions] deletes exactly the plan: its two lists are the
    plan's lists, there is no error, [total_deleted] is the number of
    planned candidates, and every candidate is gone from its project and
    has a file at its backup path. *)
Theorem clear_sessions_deletes_the_plan (base : string) (t : tree)
  (project_name : option string) (clear_empty clear_invalid : bool) (m : fs) :
  let plan := find_cleanable_sessions t project_name in
  let todo := planned plan clear_empty clear_invalid in
  (forall info, In info todo ->
     exists f, m !! session_path base info = Some (File f)) ->
  (m !! backup_dir base = None \/ m !! backup_dir base = Some Dir) ->
  (forall info, In info todo -> m !! backup_path base info <> Some Dir) ->
  (forall info info', In info todo -> In info' todo ->
     session_path base info <> backup_path base info') ->
  List.NoDup (map (session_path base) todo) ->
  let r := clear_sessions base t project_name clear_empty clear_invalid m in
  deleted_empty_sessions (fst r)
  = (if clear_empty then empty_sessions plan else [])
  /\ deleted_invalid_api_key_sessions (fst r)
     = (if clear_invalid then invalid_api_key_sessions plan else [])
  /\ errors (fst r) = []
  /\ total_deleted (fst r) = Z.of_nat (length todo)
  /\ forall info, In info todo ->
       snd r !! session_path base info = None
       /\ exists g, snd r !! backup_path base info = Some (File g).
Proof.
  cbn zeta. intros Hfiles Hbak Hfree Hapart Hnodup. unfold clear_sessions.
  set (plan := find_cleanable_sessions t project_name) in *.
  destruct (jobs_for_empty plan clear_empty clear_invalid)
    as (Je & Ji & Jall).
  set (jobs := sessions_to_delete plan clear_empty clear_invalid) in *.
  assert (Hin : forall job, In job jobs ->
            In (fst job) (planned plan clear_empty clear_invalid)).
  { intros job Hjob. rewrite <- Jall. now apply in_map. }
  destruct (clear_fold_success base jobs nothing_cleared m)
    as (He & Hi & Hf & Ht & Hgone & _).
  - intros job Hjob. now apply Hfiles, Hin.
  - exact Hbak.
  - intros job Hjob. now apply Hfree, Hin.
  - intros job job' Hjob Hjob'. apply Hapart; now apply Hin.
  - rewrite <- Jall, map_map in Hnodup. exact Hnodup.
  - rewrite He, Hi, Hf, Ht, Je, Ji.
    cbn [nothing_cleared deleted_empty_sessions
           deleted_invalid_api_key_sessions errors total_deleted app].
    rewrite <- Jall, length_map.
    refine (conj eq_refl (conj eq_refl (conj eq_refl (conj eq_refl _)))).
    intros info Hinfo. apply in_map_iff in Hinfo as (job & <- & Hjob).
    now apply Hgone.
Qed.

End CleanupSuccess.

Lemma clear_sessions_deletes_the_plan_witness :
  let r := @clear_sessions py_json Ex.base More.mixed_tree None true true
             Shown.cleanup_fs in
  let plan := @find_cleanable_sessions py_json More.mixed_tree None in
  deleted_empty_sessions (fst r) = empty_sessions plan
  /\ deleted_invalid_api_key_sessions (fst r)
     = invalid_api_key_sessions plan
  /\ errors (fst r) = []
  /\ total_deleted (fst r) = Z.of_nat (length (planned plan true true))
  /\ forall info, In info (planned plan true true) ->
       snd r !! session_path Ex.base info = None
       /\ exists g, snd r !! backup_path Ex.base info = Some (File g).
Proof.
  apply (@clear_sessions_deletes_the_plan py_json Ex.base More.mixed_tree
           None true true Shown.cleanup_fs).
  - intros info Hin. vm_compute in Hin. destruct Hin as [<- | [<- | []]];
      [exists Ex.garbled_file | exists Ex.invalid_key_file];
      vm_compute; reflexivity.
  - left. vm_compute. reflexivity.
  - intros info Hin. vm_compute in Hin. destruct Hin as [<- | [<- | []]];
      vm_compute; discriminate.
  - intros info info' Hin Hin'. vm_compute in Hin, Hin'.
    destruct Hin as [<- | [<- | []]]; destruct Hin' as [<- | [<- | []]];
      vm_compute; discriminate.
  - vm_compute. repeat constructor; vm_compute; intuition discriminate.
Defined.

(* ===================================================================== *)
(** * Backup names *)
(* ===================================================================== *)

Lemma append_cancel_l (a x y : string) :
  (a ++ x)%string = (a ++ y)%string -> x = y.
Proof.
  induction a as [|c a IH]; cbn [String.append]; [easy |].
  intros [= Heq]. now apply IH.
Qed.

(** The backup name joins project and session with an underscore, so it
    does not tell where the underscore of the pair was. *)
Lemma backup_file_shift (base p q s : string) :
  backup_file base (p ++ "_" ++ q) s = backup_file base p (q ++ "_" ++ s).
Proof.
  unfold backup_file. do 2 f_equal.
  now rewrite <- !append_assoc.
Qed.

Lemma session_file_shift (base p q s : string) :
  session_file base (p ++ "_" ++ q) s <> session_file base p (q ++ "_" ++ s).
Proof.
  unfold session_file. intros Heq.
  rewrite !append_assoc in Heq.
  do 3 apply append_cancel_l in Heq. discriminate.
Qed.

(** X26.  Backup names are not unique: the sessions [s] of project
    [p_q] and [q_s] of project [p] share one backup path.  Deleting both
    succeeds twice, and the backup of the first is replaced by the second:
    the first session is then neither in its project nor in [.bak]. *)
Theorem backups_of_two_sessions_collide (base p q s : string) (m : fs)
  (f1 f2 : file) :
  m !! session_file base (p ++ "_" ++ q) s = Some (File f1) ->
  m !! session_file base p (q ++ "_" ++ s) = Some (File f2) ->
  (m !! backup_dir base = None \/ m !! backup_dir base = Some Dir) ->
  m !! backup_file base p (q ++ "_" ++ s) <> Some Dir ->
  let r1 := delete_session base (p ++ "_" ++ q) s m in
  let r2 := delete_session base p (q ++ "_" ++ s) (snd r1) in
  fst r1 = Return true
  /\ snd r1 !! backup_file base (p ++ "_" ++ q) s = Some (File f1)
  /\ fst r2 = Return true
  /\ snd r2 !! backup_file base (p ++ "_" ++ q) s = Some (File f2)
  /\ snd r2 !! session_file base (p ++ "_" ++ q) s = None
  /\ snd r2 !! session_file base p (q ++ "_" ++ s) = None.
Proof.
  intros Hf1 Hf2 Hbak Hfree. cbn zeta.
  pose proof (backup_file_shift base p q s) as Hshift.
  pose proof (session_file_shift base p q s) as Hdiff.
  rewrite <- Hshift in Hfree.
  destruct (delete_session_regular base _ _ m f1 Hf1 Hbak Hfree)
    as (Hr1 & Hd1 & Hb1 & Hs1).
  set (m1 := snd (delete_session base (p ++ "_" ++ q) s m)) in *.
  assert (Hf2' : m1 !! session_file base p (q ++ "_" ++ s) = Some (File f2)).
  { unfold m1. rewrite delete_session_frame; [exact Hf2 | | |].
    - now apply not_eq_sym.
    - rewrite Hshift. apply session_backup_paths_differ.
    - apply session_not_backup_dir. }
  assert (Hfree' : m1 !! backup_file base p (q ++ "_" ++ s) <> Some Dir).
  { rewrite <- Hshift, Hb1. discriminate. }
  destruct (delete_session_regular base _ _ m1 f2 Hf2' (or_intror Hd1) Hfree')
    as (Hr2 & Hd2 & Hb2 & Hs2).
  rewrite Hshift. repeat split; try assumption.
  - now rewrite <- Hshift.
  - rewrite delete_session_frame; [exact Hs1 | exact Hdiff | |].
    + rewrite <- Hshift. apply session_backup_paths_differ.
    + apply session_not_backup_dir.
Qed.

Lemma backups_of_two_sessions_collide_witness :
  let r1 := delete_session Ex.base "a_b" "c" Shown.collide_fs in
  let r2 := delete_session Ex.base "a" "b_c" (snd r1) in
  fst r1 = Return true
  /\ snd r1 !! backup_file Ex.base "a_b" "c" = Some (File Ex.hello_file)
  /\ fst r2 = Return true
  /\ snd r2 !! backup_file Ex.base "a_b" "c" = Some (File Ex.garbled_file)
  /\ snd r2 !! session_file Ex.base "a_b" "c" = None
  /\ snd r2 !! session_file Ex.base "a" "b_c" = None.
Proof.
  apply (backups_of_two_sessions_collide Ex.base "a" "b" "c" Shown.collide_fs
           Ex.hello_file Ex.garbled_file).
  - vm_compute. reflexivity.
  - vm_compute. reflexivity.
  - left. vm_compute. reflexivity.
  - vm_compute. discriminate.
Defined.

(* ===================================================================== *)
(** * Lines written and read again *)
(* ===================================================================== *)

Lemma readlines_terminated (body rest : string) :
  PyText.has_char LF body = false ->
  readlines ((body ++ nl) ++ rest) = (body ++ nl)%string :: readlines rest.
Proof.
  induction body as [|c body IH]; cbn [PyText.has_char]; intros Hfree.
  - cbn [String.append readlines nl]. now rewrite Ascii.eqb_refl.
  - apply orb_false_iff in Hfree as [Hc Hfree].
    cbn [String.append readlines]. rewrite Hc, (IH Hfree). reflexivity.
Qed.

Lemma readlines_unterminated (line : string) :
  line <> EmptyString -> PyText.has_char LF line = false ->
  readlines line = [line].
Proof.
  induction line as [|c line IH]; [easy |]. intros _.
  cbn [PyText.has_char readlines]. intros Hfree.
  apply orb_false_iff in Hfree as [Hc Hfree]. rewrite Hc.
  destruct line as [|d line]; [reflexivity |].
  now rewrite IH.
Qed.

Lemma terminated_cons (c : ascii) (line : string) :
  Ascii.eqb c LF = false -> terminated line -> terminated (String c line).
Proof.
  intros Hc (body & -> & Hfree). exists (String c body).
  split; [reflexivity |]. cbn [PyText.has_char]. now rewrite Hc.
Qed.

Lemma readlines_ok (s : string) : lines_ok (readlines s).
Proof.
  induction s as [|c s IH]; cbn [readlines]; [exact I |].
  destruct (Ascii.eqb c LF) eqn:Hc.
  - apply Ascii.eqb_eq in Hc. subst c.
    assert (Hnl : terminated (String LF EmptyString)).
    { exists EmptyString. now split. }
    cbn [lines_ok]. destruct (readlines s); [now left | now split].
  - destruct (readlines s) as [|line rest].
    + right. split; [discriminate |]. cbn [PyText.has_char]. now rewrite Hc.
    + cbn [lines_ok] in IH |- *. destruct rest as [|next rest].
      * destruct IH as [Hterm | [Hne Hfree]].
        -- left. now apply terminated_cons.
        -- right. split; [discriminate |]. cbn [PyText.has_char].
           now rewrite Hc.
      * destruct IH as [Hterm Hrest]. split; [|exact Hrest].
        now apply terminated_cons.
Qed.

(** Lines of a text, written and read again, are the same lines. *)
Lemma readlines_writelines (lines : list string) :
  lines_ok lines -> readlines (writelines lines) = lines.
Proof.
  induction lines as [|line rest IH]; [reflexivity |].
  cbn [lines_ok]. unfold writelines. cbn [fold_right].
  fold (writelines rest). destruct rest as [|next rest].
  - cbn [writelines fold_right]. intros [(body & -> & Hfree) | [Hne Hfree]].
    + now rewrite readlines_terminated.
    + rewrite append_nil_r. now apply readlines_unterminated.
  - intros [(body & -> & Hfree) Hrest].
    rewrite readlines_terminated by exact Hfree. now rewrite IH.
Qed.

(** The stream hands out no carriage return. *)
Lemma universal_newlines_free (s : string) :
  PyText.has_char CR (universal_newlines s) = false.
Proof.
  assert (Hall : forall n s, (String.length s <= n)%nat ->
                   PyText.has_char CR (universal_newlines s) = false).
  { clear s. induction n as [|n IH]; intros [|c s] Hlen;
      cbn [String.length] in Hlen; try reflexivity; try lia.
    cbn [universal_newlines]. destruct (Ascii.eqb c CR) eqn:Hc.
    - destruct s as [|d s]; [reflexivity |].
      cbn [String.length] in Hlen.
      destruct (Ascii.eqb d LF); cbn [PyText.has_char];
        replace (Ascii.eqb LF CR) with false by reflexivity;
        cbn [orb]; apply IH; cbn [String.length]; lia.
    - cbn [PyText.has_char]. rewrite Hc. cbn [orb]. apply IH. lia. }
  now apply (Hall (String.length s)).
Qed.

Lemma readlines_free (c : ascii) (s : string) :
  PyText.has_char c s = false ->
  Forall (fun line => PyText.has_char c line = false) (readlines s).
Proof.
  induction s as [|d s IH]; cbn [PyText.has_char readlines];
    [constructor |].
  intros Hfree. apply orb_false_iff in Hfree as [Hd Hfree].
  specialize (IH Hfree).
  assert (Hone : PyText.has_char c (String d EmptyString) = false).
  { cbn [PyText.has_char]. now rewrite Hd. }
  destruct (Ascii.eqb d LF); [now constructor |].
  destruct (readlines s) as [|line rest]; [now repeat constructor |].
  inversion IH; subst. constructor; [|assumption].
  cbn [PyText.has_char]. now rewrite Hd.
Qed.

Lemma writelines_free (c : ascii) (lines : list string) :
  Forall (fun line => PyText.has_char c line = false) lines ->
  PyText.has_char c (writelines lines) = false.
Proof.
  induction 1 as [|line rest Hline Hrest IH]; [reflexivity |].
  unfold writelines. cbn [fold_right]. fold (writelines rest).
  now rewrite has_char_app, Hline, IH.
Qed.

Lemma lines_ok_replace (pre post : list string) (old new : string) :
  lines_ok (pre ++ old :: post) -> terminated new ->
  lines_ok (pre ++ new :: post).
Proof.
  intros Hok Hnew. induction pre as [|p pre IH].
  - cbn [app lines_ok] in Hok |- *. destruct post; [now left |].
    split; [exact Hnew | apply Hok].
  - cbn [app] in Hok |- *.
    assert (Hsplit : terminated p /\ lines_ok (pre ++ old :: post)).
    { cbn [lines_ok] in Hok. destruct pre; exact Hok. }
    destruct Hsplit as [Hp Hrest]. specialize (IH Hrest).
    cbn [lines_ok]. destruct pre; cbn [app] in IH |- *; now split.
Qed.

(* ===================================================================== *)
(** * The title in front of a text *)
(* ===================================================================== *)

Lemma lstrip_length (s : string) :
  (String.length (lstrip s) <= String.length s)%nat.
Proof.
  induction s as [|c s IH]; cbn [lstrip String.length]; [lia |].
  destruct (isspace c); cbn [String.length]; lia.
Qed.

Lemma rstrip_length (s : string) :
  (String.length (rstrip s) <= String.length s)%nat.
Proof.
  induction s as [|c s IH]; cbn [rstrip String.length]; [lia |].
  destruct (rstrip s); [destruct (isspace c) |]; cbn [String.length] in *; lia.
Qed.

(** A text that [strip] leaves alone has no white space at its ends. *)
Lemma strip_fixed (c : ascii) (s : string) :
  strip (String c s) = String c s ->
  isspace c = false /\ rstrip (String c s) = String c s.
Proof.
  unfold strip. cbn [lstrip]. destruct (isspace c) eqn:Hc.
  - intros Heq. apply (f_equal String.length) in Heq.
    pose proof (rstrip_length (lstrip s)). pose proof (lstrip_length s).
    cbn [String.length] in Heq. lia.
  - now split.
Qed.

Lemma rstrip_app_kept (a b : string) :
  rstrip b <> EmptyString -> rstrip (a ++ b) = (a ++ rstrip b)%string.
Proof.
  intros Hb. induction a as [|c a IH]; cbn [String.append rstrip];
    [reflexivity |].
  rewrite IH. destruct (a ++ rstrip b)%string eqn:Htail; [|reflexivity].
  destruct a; [now destruct Hb | discriminate].
Qed.

Lemma rstrip_app_blank (a b : string) :
  rstrip b = EmptyString -> rstrip (a ++ b) = rstrip a.
Proof.
  intros Hb. induction a as [|c a IH]; cbn [String.append rstrip];
    [exact Hb | now rewrite IH].
Qed.

(** A blank line and a text after a plain title: stripping keeps the
    title and, unless all is white space, the blank line and the text
    without its trailing white space. *)
Lemma strip_titled (t body : string) :
  plain_title t ->
  strip (t ++ nlnl ++ body) = t
  \/ (rstrip body <> EmptyString
      /\ strip (t ++ nlnl ++ body) = (t ++ nlnl ++ rstrip body)%string).
Proof.
  intros (Hne & _ & Hstrip & _ & _).
  destruct t as [|c t]; [now destruct Hne |].
  apply strip_fixed in Hstrip as [Hc Hr].
  unfold strip. cbn [String.append lstrip]. rewrite Hc.
  change (String c (t ++ nlnl ++ body))
    with (String c t ++ (nlnl ++ body))%string.
  destruct (rstrip body) as [|d r] eqn:Hbody.
  - left. rewrite rstrip_app_blank; [exact Hr |].
    now rewrite (rstrip_app_blank nlnl body Hbody).
  - right. split; [discriminate |].
    assert (Htail : rstrip (nlnl ++ body) = (nlnl ++ String d r)%string).
    { rewrite rstrip_app_kept; rewrite Hbody; [reflexivity | discriminate]. }
    rewrite rstrip_app_kept; rewrite Htail; [reflexivity | discriminate].
Qed.

Lemma remove_ide_plain (t rest : string) :
  PyText.has_char "<" t = false ->
  remove_ide_from 0 (t ++ rest) = (t ++ remove_ide_from 0 rest)%string.
Proof.
  induction t as [|c t IH]; cbn [PyText.has_char]; intros Hfree;
    [reflexivity |].
  apply orb_false_iff in Hfree as [Hc Hfree].
  cbn [String.append remove_ide_from]. unfold match_ide.
  rewrite prefix_cons, (Ascii.eqb_sym "<" c), Hc. cbn [andb].
  now rewrite (IH Hfree).
Qed.

Lemma has_char_plain_title (t : string) :
  plain_title t -> PyText.has_char "<" (t ++ nlnl) = false.
Proof.
  intros (_ & _ & _ & _ & Hlt). rewrite has_char_app, Hlt. reflexivity.
Qed.

(** The cleaned text of a titled text starts with the title, and goes on,
    if at all, with a blank line. *)
Lemma cleaned_titled (t body : string) :
  plain_title t ->
  cleaned (titled t body) = t
  \/ exists tail, cleaned (titled t body) = (t ++ nlnl ++ tail)%string.
Proof.
  intros Hplain. unfold cleaned, titled.
  assert (Hfixed : strip (remove_ide t) = t).
  { destruct Hplain as (_ & _ & Hstrip & _ & Hlt).
    unfold remove_ide. rewrite <- (append_nil_r t) at 1.
    rewrite remove_ide_plain by exact Hlt. cbn [remove_ide_from].
    now rewrite append_nil_r. }
  destruct (strip_titled t body Hplain) as [-> | [_ ->]];
    [now left |].
  unfold remove_ide. rewrite <- append_assoc.
  rewrite remove_ide_plain by now apply has_char_plain_title.
  rewrite append_assoc.
  destruct (strip_titled t (remove_ide_from 0 (rstrip body)) Hplain)
    as [-> | [_ ->]]; [now left | right; eauto].
Qed.

Lemma slice_to_all (n : nat) (s : string) :
  (String.length s <= n)%nat -> slice_to n s = s.
Proof.
  revert n. induction s as [|c s IH]; intros [|n]; cbn [slice_to String.length];
    try reflexivity; try lia.
  intros Hlen. rewrite IH; [reflexivity | lia].
Qed.

Lemma contains_line_feed_free (sep t : string) :
  PyText.has_char LF t = false -> contains (String LF sep) t = false.
Proof.
  induction t as [|c t IH]; cbn [PyText.has_char contains].
  - reflexivity.
  - intros Hfree. apply orb_false_iff in Hfree as [Hc Hfree].
    rewrite prefix_cons, (Ascii.eqb_sym LF c), Hc. cbn [andb orb].
    now apply IH.
Qed.

Lemma contains_app_r (sub a b : string) :
  String.prefix sub b = true -> contains sub (a ++ b) = true.
Proof.
  intros Hb. induction a as [|c a IH]; cbn [String.append].
  - destruct b; cbn [contains]; now rewrite Hb.
  - cbn [contains]. rewrite IH. apply orb_true_r.
Qed.

Lemma split_head_plain (t tail : string) :
  PyText.has_char LF t = false ->
  split_head nlnl (t ++ nlnl ++ tail) = t.
Proof.
  induction t as [|c t IH]; cbn [PyText.has_char]; intros Hfree.
  - unfold nlnl. cbn [String.append split_head].
    now rewrite !prefix_cons, !Ascii.eqb_refl, prefix_empty.
  - apply orb_false_iff in Hfree as [Hc Hfree].
    cbn [String.append split_head]. unfold nlnl at 1.
    rewrite prefix_cons, (Ascii.eqb_sym LF c), Hc. cbn [andb].
    now rewrite (IH Hfree).
Qed.

(** The summarizer reads the title back from a titled text. *)
Lemma title_of_titled (t body : string) :
  plain_title t ->
  cleaned (titled t body) <> EmptyString
  /\ title_of_text (cleaned (titled t body)) = t.
Proof.
  intros Hplain. pose proof Hplain as (Hne & Hlen & _ & Hlf & _).
  destruct (cleaned_titled t body Hplain) as [-> | [tail ->]].
  - split; [exact Hne |]. unfold title_of_text, nlnl, nl.
    rewrite !contains_line_feed_free by exact Hlf.
    now apply slice_to_all.
  - split; [destruct t; [now destruct Hne | discriminate] |].
    unfold title_of_text. rewrite contains_app_r.
    + rewrite split_head_plain by exact Hlf. now apply slice_to_all.
    + unfold nlnl. cbn [String.append].
      now rewrite !prefix_cons, !Ascii.eqb_refl, prefix_empty.
Qed.

(* ===================================================================== *)
(** * Rename, then summarize *)
(* ===================================================================== *)

Lemma run_lines_app {S : Type} (body : S -> string -> result S) (st : S)
  (xs ys : list string) :
  run_lines body st (xs ++ ys)
  = match run_lines body st xs with
    | (st', None) => run_lines body st' ys
    | (st', Some e) => (st', Some e)
    end.
Proof.
  revert st. induction xs as [|x xs IH]; intros st; cbn [app run_lines];
    [reflexivity |].
  destruct (body st x); [apply IH | reflexivity].
Qed.

Section RenameSummary.

Context `{Codec}.

(** Once the first user text is known, a turn of the loop of the
    summarizer does what it did, apart from looking for the text. *)
Lemma summary_body_found (info info' : summary) (fuc fuc' : option string)
  (c line : string) :
  summary_body (info, fuc) line = Return (info', fuc') ->
  summary_body (info, Some c) line = Return (info', Some c).
Proof.
  unfold summary_body.
  destruct (String.eqb (strip line) EmptyString); [now intros [= <- <-] |].
  destruct (loads (strip line)) as [entry|]; [|now intros [= <- <-]].
  destruct (Py.get entry "type" JNull) as [ty|]; [|discriminate].
  cbn [bind].
  destruct (Py.eq_str ty "user" || Py.eq_str ty "assistant");
    [|now intros [= <- <-]].
  destruct (Py.get entry "timestamp" (JStr EmptyString)) as [ts|];
    [|discriminate].
  cbn [bind].
  match goal with
  | |- bind ?f _ = _ -> _ => destruct f as [info1|]; [|discriminate]
  end.
  cbn [bind]. destruct fuc as [c0|]; [now intros [= <- <-] |].
  destruct (Py.eq_str ty "user"); [|now intros [= <- <-]].
  repeat match goal with
         | |- bind ?f _ = _ -> _ =>
             destruct f; cbn [bind]; [|discriminate]
         end.
  now intros [= <- <-].
Qed.

Lemma run_summary_found (ls : list string) (info info' : summary)
  (fuc fuc' : option string) (c : string) :
  run_lines summary_body (info, fuc) ls = ((info', fuc'), None) ->
  run_lines summary_body (info, Some c) ls = ((info', Some c), None).
Proof.
  revert info fuc. induction ls as [|l ls IH]; intros info fuc;
    cbn [run_lines].
  - now intros [= <- <-].
  - destruct (summary_body (info, fuc) l) as [[info1 fuc1]|] eqn:Hstep;
      [|discriminate].
    rewrite (summary_body_found _ _ _ _ c _ Hstep). apply IH.
Qed.

Lemma eligible_texts_no_user (ls : list string) :
  (forall j l, nth_error ls j = Some l -> is_user_line l = false) ->
  eligible_texts ls = [].
Proof.
  unfold eligible_texts. induction ls as [|l ls IH]; intros Hno;
    cbn [flat_map]; [reflexivity |].
  rewrite (not_user_line_no_items l (Hno 0%nat l eq_refl)).
  cbn [texts_of_items app]. apply IH.
  intros j l' Hj. now apply (Hno (S j)).
Qed.

(** The items of a content list that holds a text item. *)
Lemma iter_text_items (content_list : json) (items : list json) :
  Py.iter content_list = Return items ->
  existsb Py.is_text_item items = true ->
  content_list = JArr items.
Proof.
  intros Hiter Hsome. apply existsb_exists in Hsome as (item & Hin & Htext).
  destruct content_list as [| | |s|l|kvs]; cbn [Py.iter] in Hiter;
    try discriminate; injection Hiter as <-.
  - now rewrite (chars_not_text s item Hin) in Htext.
  - reflexivity.
  - now rewrite (keys_not_text kvs item Hin) in Htext.
Qed.

(** The first text item of a list that holds one. *)
Lemma first_text_item (items : list json) :
  existsb Py.is_text_item items = true ->
  exists pre item post,
    items = pre ++ item :: post
    /\ (forall x, In x pre -> Py.is_text_item x = false)
    /\ Py.is_text_item item = true.
Proof.
  induction items as [|x items IH]; cbn [existsb]; [discriminate |].
  destruct (Py.is_text_item x) eqn:Hx; cbn [orb].
  - intros _. exists [], x, items. split; [reflexivity |].
    split; [intros ? [] | exact Hx].
  - intros Hsome. destruct (IH Hsome) as (pre & item & post & -> & Hpre & Hitem).
    exists (x :: pre), item, post. split; [reflexivity |].
    split; [|exact Hitem]. intros y [<- | Hy]; [exact Hx | now apply Hpre].
Qed.

Lemma first_text_at (pre post : list json) (item : json) (text : string) :
  (forall x, In x pre -> Py.is_text_item x = false) ->
  Py.is_text_item item = true ->
  Py.get item "text" (JStr EmptyString) = Return (JStr text) ->
  cleaned text <> EmptyString ->
  first_text (pre ++ item :: post) = Return (Some (cleaned text)).
Proof.
  intros Hpre Hitem Htext Hne. induction pre as [|x pre IH];
    cbn [app first_text].
  - rewrite Hitem, Htext. cbn [bind Py.str_receiver]. fold (cleaned text).
    apply String.eqb_neq in Hne. now rewrite Hne.
  - rewrite (Hpre x) by now left. apply IH.
    intros y Hy. apply Hpre. now right.
Qed.

(** What a successful retitling has found and done. *)
Lemma retitle_first_done (t : string) (pre post once : list json)
  (item : json) :
  (forall x, In x pre -> Py.is_text_item x = false) ->
  Py.is_text_item item = true ->
  retitle_first t (pre ++ item :: post) = Return once ->
  exists imembers old,
    item = JObj imembers
    /\ Py.get item "text" (JStr EmptyString) = Return (JStr old)
    /\ once
       = pre ++
         JObj (Py.dict_set "text"
                 (JStr (titled t (strip_title_prefix old))) imembers) :: post.
Proof.
  intros Hpre Hitem. revert once. induction pre as [|x pre IH]; intros once;
    cbn [app retitle_first].
  - rewrite Hitem. destruct item as [| | | | |imembers]; try discriminate.
    cbn [Py.get bind].
    destruct (match Py.dict_get "text" imembers with
              | Some v => v
              | None => JStr EmptyString
              end) as [| | |old| |]; try discriminate.
    cbn [Py.re_subject bind Py.setitem]. intros [= <-].
    now exists imembers, old.
  - rewrite (Hpre x) by now left.
    destruct (retitle_first t (pre ++ item :: post)) as [rest|] eqn:Hrest;
      [|discriminate].
    cbn [bind]. intros [= <-].
    destruct (IH (fun y Hy => Hpre y (or_intror Hy)) rest eq_refl)
      as (imembers & old & Hi & Hold & ->).
    now exists imembers, old.
Qed.

Lemma summary_body_renamed (t : string) (info info' : summary)
  (fuc' : option string) (line : string) (entry entry' : json) :
  plain_title t ->
  summary_body (info, None) line = Return (info', fuc') ->
  is_user_line line = true ->
  loads (strip line) = Some entry ->
  existsb Py.is_text_item (user_items line) = true ->
  rewrite_entry t None entry = Return entry' ->
  reads_back entry' ->
  exists c,
    summary_body (info, None) (dumps entry' ++ nl) = Return (info', Some c)
    /\ c <> EmptyString /\ title_of_text c = t.
Proof.
  intros Hplain Hstep Huser Hload Hitems Hentry (Hone & _ & Hblank' & Hload').
  unfold user_items in Hitems. rewrite Huser, Hload in Hitems.
  unfold is_user_line, record_type in Huser.
  destruct (String.eqb (strip line) EmptyString) eqn:Hblank;
    [discriminate |].
  rewrite Hload in Huser.
  destruct entry as [| | | | |members]; try discriminate.
  unfold summary_body in Hstep. rewrite Hblank, Hload in Hstep.
  cbn [Py.get bind] in Hstep, Hitems.
  rewrite Huser in Hstep. cbn [orb] in Hstep.
  destruct (fold_timestamp _ _) as [info1|] eqn:Hfold; [|discriminate].
  cbn [bind] in Hstep.
  destruct (Py.dict_get "message" members) as [message|] eqn:Hmsg;
    [|discriminate].
  destruct message as [| | | | |msg]; try discriminate.
  cbn [Py.get bind] in Hstep, Hitems.
  set (content_list := match Py.dict_get "content" msg with
                       | Some v => v
                       | None => JArr []
                       end) in *.
  destruct (Py.iter content_list) as [items|] eqn:Hiter; [|discriminate].
  cbn [bind] in Hstep.
  pose proof (iter_text_items content_list items Hiter Hitems) as Hlist.
  destruct (first_text_item items Hitems)
    as (pre & item & post & -> & Hpre & Hitem).
  destruct (first_text _) as [found|]; [|discriminate].
  cbn [bind] in Hstep. injection Hstep as <- <-.
  (* the record after the rename *)
  unfold rewrite_entry in Hentry. cbn [Py.get bind] in Hentry.
  rewrite Hmsg in Hentry. cbn [Py.get bind] in Hentry.
  fold content_list in Hentry. unfold merge_content in Hentry.
  rewrite Hiter in Hentry. cbn [bind] in Hentry.
  destruct (retitle_first t (pre ++ item :: post)) as [once|] eqn:Honce;
    [|discriminate].
  destruct (retitle_first_done t pre post once item Hpre Hitem Honce)
    as (imembers & old & -> & Hold & ->).
  cbn [bind] in Hentry. rewrite Hlist in Hentry.
  cbn [Py.getitem] in Hentry. rewrite Hmsg in Hentry.
  cbn [bind Py.setitem] in Hentry. injection Hentry as <-.
  (* the turn of the loop on the new line *)
  destruct (title_of_titled t (strip_title_prefix old) Hplain)
    as [Hne Htitle].
  exists (cleaned (titled t (strip_title_prefix old))).
  split; [|now split].
  unfold summary_body. apply String.eqb_neq in Hblank'.
  rewrite Hblank', Hload'. cbn [Py.get bind].
  rewrite !(dict_get_set_ne "message") by discriminate.
  rewrite Huser. cbn [orb]. rewrite Hfold. cbn [bind].
  rewrite dict_get_set_eq. cbn [Py.get bind]. rewrite dict_get_set_eq.
  cbn [Py.iter bind].
  rewrite (first_text_at pre post _ (titled t (strip_title_prefix old)));
    [reflexivity | exact Hpre | | | exact Hne].
  - now rewrite is_text_item_set_text.
  - cbn [Py.get]. now rewrite dict_get_set_eq.
Qed.

(** X27.  Rename, then list: when the scan finds no enqueue message, the
    first user record holds a text item, the record written by the rename
    is read back as it was written, and the title is a plain one, then
    [rename_session] returns [True] and the summary of the file it wrote
    is the summary of the file before with the new title: the count of
    messages and the two timestamps are the same. *)
Theorem renamed_session_shows_title
  (base project_name session_id t : string) (m : fs) (f : file)
  (info : summary) (k : nat) (line : string) (entry entry' : json) :
  plain_title t ->
  m !! session_file base project_name session_id = Some (File f) ->
  parse_session_summary session_id f = Some info ->
  scan_of f
  = Return {| first_user_idx := Z.of_nat k; original_message := None |} ->
  nth_error (readlines (f_data f)) k = Some line ->
  loads (strip line) = Some entry ->
  existsb Py.is_text_item (user_items line) = true ->
  rewrite_entry t None entry = Return entry' ->
  reads_back entry' ->
  exists f',
    rename_session base project_name session_id t m
    = (true, <[session_file base project_name session_id := File f']> m)
    /\ parse_session_summary session_id f' = Some (with_title info t).
Proof.
  intros Hplain Hm Hparse Hscan Hline Hload Hitems Hentry Hback.
  set (lines := readlines (f_data f)) in *.
  set (new := (dumps entry' ++ nl)%string).
  destruct (scan_of_first_user f _ Hscan) as [Hfault Hidx].
  cbn [first_user_idx] in Hidx. fold lines in Hidx.
  destruct (first_user_line lines) as [k'|] eqn:Hk; [|lia].
  apply Nat2Z.inj in Hidx. subst k'.
  pose proof (rewrite_lines_ok t f _ k line entry entry' Hscan Hk Hline Hload
                Hentry) as Hrun.
  fold lines new in Hrun.
  exists {| f_chars := writelines (<[k := new]> lines); f_fault := None |}.
  split; [now apply (rename_session_ok _ _ _ _ _ f) |].
  destruct (first_user_line_some lines k Hk) as [(l & Hl & Huser) Hbefore].
  assert (l = line) as -> by congruence.
  destruct (insert_split lines k line new Hline) as [Hold ->].
  set (pre := firstn k lines) in *. set (post := skipn (S k) lines) in *.
  assert (Hpre : eligible_texts pre = []).
  { apply eligible_texts_no_user. intros j x Hj. unfold pre in Hj.
    rewrite nth_error_firstn in Hj.
    destruct (j <? k)%nat eqn:Hjk; [|discriminate].
    apply Nat.ltb_lt in Hjk. now apply (Hbefore j). }
  (* the summary of the file before *)
  unfold parse_session_summary, for_line_in, delivered in Hparse.
  rewrite Hfault in Hparse. fold lines in Hparse.
  rewrite Hold, run_lines_app in Hparse.
  destruct (run_lines summary_body _ pre) as [[info_p fuc_p] [e|]] eqn:Hrun_pre;
    [discriminate |].
  pose proof (run_summary_spec _ _ _ _ _ Hrun_pre) as (_ & _ & Hfuc).
  rewrite Hpre in Hfuc. cbn [hd_error] in Hfuc. subst fuc_p.
  cbn [run_lines] in Hparse.
  destruct (summary_body (info_p, None) line) as [[info_k fuc_k]|] eqn:Hstep;
    [|discriminate].
  destruct (run_lines summary_body (info_k, fuc_k) post)
    as [[info_n fuc_n] [e|]] eqn:Hrun_post; [discriminate |].
  destruct (summary_body_renamed t info_p info_k fuc_k line entry entry'
              Hplain Hstep Huser Hload Hitems Hentry Hback)
    as (c & Hstep' & Hne & Htitle).
  (* the summary of the file written *)
  assert (Hlines : readlines (writelines (pre ++ new :: post))
                   = pre ++ new :: post).
  { apply readlines_writelines.
    apply (lines_ok_replace pre post line new).
    - rewrite <- Hold. apply readlines_ok.
    - exists (dumps entry'). split; [reflexivity | apply Hback]. }
  assert (Hplain' : PyText.has_char CR (writelines (pre ++ new :: post))
                    = false).
  { apply writelines_free.
    pose proof (readlines_free CR (f_data f) (universal_newlines_free _))
      as Hall.
    fold lines in Hall. rewrite Hold in Hall.
    apply List.Forall_app in Hall as [Hpre' Hpost'].
    inversion Hpost' as [|? ? _ Hpost'']; subst.
    apply List.Forall_app. split; [exact Hpre' |].
    constructor; [|exact Hpost''].
    unfold new. rewrite has_char_app.
    destruct Hback as (_ & -> & _). reflexivity. }
  unfold parse_session_summary, for_line_in, delivered, f_data.
  cbn [f_fault f_chars]. rewrite (universal_newlines_plain _ Hplain').
  rewrite Hlines, run_lines_app, Hrun_pre. cbn [run_lines].
  fold new in Hstep'. rewrite Hstep'.
  rewrite (run_summary_found post info_k info_n fuc_k fuc_n c Hrun_post).
  apply String.eqb_neq in Hne. rewrite Hne. cbn [negb message_count].
  rewrite Htitle. unfold with_title.
  destruct fuc_n as [c0|];
    [destruct (negb (String.eqb c0 EmptyString)) |];
    cbn [message_count] in Hparse;
    destruct (message_count info_n >? 0); try discriminate;
    injection Hparse as <-; reflexivity.
Qed.

End RenameSummary.

Lemma renamed_session_shows_title_witness :
  exists f',
    @rename_session py_json Ex.base "proj" "s1" "New title" Renamed.titled_fs
    = (true,
       <[session_file Ex.base "proj" "s1" := File f']> Renamed.titled_fs)
    /\ @parse_session_summary py_json "s1" f'
       = Some (with_title Renamed.titled_summary "New title").
Proof.
  eapply (@renamed_session_shows_title py_json Ex.base "proj" "s1"
            "New title" Renamed.titled_fs Renamed.titled_file
            Renamed.titled_summary 1%nat).
  - repeat split; try (vm_compute; reflexivity); [discriminate | cbn; lia].
  - apply lookup_insert_eq.
  - vm_compute. reflexivity.
  - vm_compute. reflexivity.
  - vm_compute. reflexivity.
  - vm_compute. reflexivity.
  - vm_compute. reflexivity.
  - vm_compute. reflexivity.
  - repeat split; try (vm_compute; reflexivity). vm_compute. discriminate.
Defined.

(** The example at work: the listing shows the old title before the
    rename and the new one after it. *)
Lemma renamed_file_listing :
  @parse_session_summary py_json "s1" Renamed.titled_file
  = Some Renamed.titled_summary
  /\ (let m' := snd (@rename_session py_json Ex.base "proj" "s1" "New title"
                       Renamed.titled_fs) in
      match m' !! session_file Ex.base "proj" "s1" with
      | Some (File f') =>
          option_map title (@parse_session_summary py_json "s1" f')
      | _ => None
      end = Some "New title").
Proof. split; vm_compute; reflexivity. Qed.

(* ===================================================================== *)
(** * Listed sessions and the cleanup *)
(* ===================================================================== *)

Section ListedNotCleaned.

Context `{Codec}.

Lemma run_status_completes (ls : list string) (st : status) :
  forallb status_scans ls = true ->
  exists st', run_lines status_body st ls = (st', None).
Proof.
  revert st. induction ls as [|l ls IH]; intros st; cbn [forallb run_lines].
  - now eexists.
  - intros Hall. apply andb_true_iff in Hall as [Hl Hls].
    destruct (status_body_scans st l Hl) as [st1 ->]. now apply IH.
Qed.

Lemma filter_some_existsb {A : Type} (p : A -> bool) (l : list A) :
  (0 < length (List.filter p l))%nat -> existsb p l = true.
Proof.
  induction l as [|x l IH]; cbn [List.filter existsb length]; [lia |].
  destruct (p x); [reflexivity |]. exact IH.
Qed.

(** X28.  A session that [parse_session_summary] lists is not a cleanup
    candidate, provided the status scan reads the file to its end: its
    status has [has_messages], and it is neither an empty nor an invalid
    candidate. *)
Theorem listed_session_not_cleanable (sid : string) (f : file)
  (info : summary) :
  parse_session_summary sid f = Some info ->
  forallb status_scans (readlines (f_data f)) = true ->
  let st := check_session_status (Some f) in
  has_messages st = true
  /\ invalid_candidate st = false
  /\ empty_candidate st = false.
Proof.
  intros Hparse Hscans. cbn zeta.
  assert (Hseen : f_fault f = None
                  /\ existsb is_dialogue_line (readlines (f_data f)) = true).
  { unfold parse_session_summary, for_line_in, delivered in Hparse.
    destruct (f_fault f).
    { destruct (run_lines _ _ _) as [[info1 fuc1] [e|]]; discriminate. }
    split; [reflexivity |].
    destruct (run_lines summary_body _ _) as [[info1 fuc1] [e|]] eqn:Hrun;
      [discriminate |].
    apply run_summary_count in Hrun. cbn [message_count] in Hrun.
    apply filter_some_existsb.
    destruct fuc1 as [c|]; [destruct (negb (String.eqb c EmptyString)) |];
      cbn [message_count] in Hparse;
      destruct (message_count info1 >? 0) eqn:Hpos; try discriminate;
      lia. }
  destruct Hseen as [Hfault Hseen].
  assert (Hmsg : has_messages (check_session_status (Some f)) = true).
  { unfold check_session_status. cbn [file_size].
    destruct (st_size f =? 0) eqn:Hsize.
    - apply Z.eqb_eq in Hsize. apply st_size_zero in Hsize.
      rewrite Hsize in Hseen. discriminate Hseen.
    - unfold for_line_in, delivered. rewrite Hfault.
      destruct (run_status_completes (readlines (f_data f))
                  {| is_empty := true; has_invalid_api_key := false;
                     has_messages := false; file_size := st_size f |}
                  Hscans) as [st' Hrun].
      rewrite Hrun. cbn [fst].
      apply run_status_seen in Hrun
        as (seen & rest & Hsplit & Hrest & _ & Hmsg & _).
      rewrite (Hrest eq_refl), app_nil_r in Hsplit. subst seen.
      now rewrite Hmsg, Hseen. }
  split; [exact Hmsg |].
  destruct (status_invariant (Some f)) as (Hemp & Hsize & _).
  unfold invalid_candidate, empty_candidate.
  rewrite Hemp, Hmsg. cbn [negb orb]. rewrite andb_false_r.
  split; [reflexivity |]. apply Z.eqb_neq. now apply Hsize.
Qed.

End ListedNotCleaned.

Lemma listed_session_not_cleanable_witness :
  let st := @check_session_status py_json (Some Renamed.titled_file) in
  has_messages st = true
  /\ invalid_candidate st = false
  /\ empty_candidate st = false.
Proof.
  apply (@listed_session_not_cleanable py_json "s1" Renamed.titled_file
           Renamed.titled_summary).
  - vm_compute. reflexivity.
  - vm_compute. reflexivity.
Defined.

(** The proviso is needed: the summarizer passes over a summary record
    whose summary is a number, the status scan stops at it, and a session
    that is listed with a message is planned as empty. *)
Lemma listed_session_planned_as_empty :
  @parse_session_summary py_json "s1" RenamedMore.odd_summary_file
  = Some {| session_id := "s1"; title := "hello"; message_count := 1;
            created_at := JNull; updated_at := JNull |}
  /\ empty_candidate
       (@check_session_status py_json (Some RenamedMore.odd_summary_file))
     = true.
Proof. split; vm_compute; reflexivity. Qed.

(* ===================================================================== *)
(** * Renaming again *)
(* ===================================================================== *)

Lemma retitle_first_again (t1 t2 : string) (items once : list json) :
  t1 <> EmptyString -> contains nl t1 = false ->
  retitle_first t1 items = Return once ->
  retitle_first t2 once = retitle_first t2 items.
Proof.
  intros Hne Hfree. revert once.
  induction items as [|item items IH]; intros once Hrun.
  - cbn in Hrun. injection Hrun as <-. reflexivity.
  - cbn [retitle_first] in Hrun.
    destruct (Py.is_text_item item) eqn:Htext.
    + destruct item as [| | | | |members]; try discriminate Htext.
      cbn [Py.get bind] in Hrun.
      destruct (match Py.dict_get "text" members with
                | Some v => v
                | None => JStr EmptyString
                end) as [| | |old| |] eqn:Hold; try discriminate Hrun.
      cbn [Py.re_subject bind Py.setitem] in Hrun.
      injection Hrun as <-.
      cbn [retitle_first]. rewrite is_text_item_set_text, Htext.
      cbn [Py.get bind]. rewrite dict_get_set_eq, Hold.
      cbn [Py.re_subject bind Py.setitem].
      unfold titled at 2.
      rewrite strip_title_prefix_titled by assumption.
      now rewrite dict_set_idem.
    + destruct (retitle_first t1 items) as [rest|e] eqn:Hrest;
        [|discriminate Hrun].
      cbn [bind] in Hrun. injection Hrun as <-.
      cbn [retitle_first]. rewrite Htext.
      now rewrite (IH rest eq_refl).
Qed.

Lemma merge_content_again (t1 t2 : string) (content once : json) :
  t1 <> EmptyString -> contains nl t1 = false ->
  merge_content t1 None content = Return once ->
  merge_content t2 None once = merge_content t2 None content.
Proof.
  intros Hne Hfree Hrun. unfold merge_content in *.
  destruct content as [| | |s|items|members]; try discriminate Hrun;
    cbn [Py.iter bind] in *.
  - destruct (retitle_first t1 (Py.chars s)); [|discriminate Hrun].
    cbn [bind] in Hrun. now injection Hrun as <-.
  - destruct (retitle_first t1 items) as [items'|] eqn:Hr;
      [|discriminate Hrun].
    cbn [bind] in Hrun. injection Hrun as <-.
    cbn [Py.iter bind].
    now rewrite (retitle_first_again t1 t2 items items' Hne Hfree Hr).
  - destruct (retitle_first t1 (map _ members)); [|discriminate Hrun].
    cbn [bind] in Hrun. now injection Hrun as <-.
Qed.

(** Renaming again a record that was renamed: what holds of the content
    holds of the record. *)
Lemma rewrite_entry_again (om : option string) (t1 t2 : string)
  (entry once : json) :
  (forall content content',
     merge_content t1 om content = Return content' ->
     merge_content t2 om content' = merge_content t2 om content) ->
  rewrite_entry t1 om entry = Return once ->
  rewrite_entry t2 om once = rewrite_entry t2 om entry.
Proof.
  intros Hagain Hrun. unfold rewrite_entry in *.
  destruct entry as [| | | | |ekvs]; try discriminate Hrun.
  cbn [Py.get Py.getitem bind] in Hrun |- *.
  destruct (Py.dict_get "message" ekvs) as [message|] eqn:Hmsg.
  2:{ cbn [Py.get bind] in Hrun.
      destruct (merge_content t1 om
                  (match Py.dict_get "content" [] with
                   | Some v => v
                   | None => JArr []
                   end)); discriminate Hrun. }
  destruct message as [| | | | |mkvs]; try discriminate Hrun.
  cbn [Py.get bind] in Hrun |- *.
  destruct (merge_content t1 om _) as [content'|] eqn:Hmerge;
    [|discriminate Hrun].
  cbn [Py.setitem bind] in Hrun. injection Hrun as <-.
  cbn [Py.get Py.getitem bind]. rewrite dict_get_set_eq.
  cbn [Py.get bind]. rewrite dict_get_set_eq.
  rewrite (Hagain _ content' Hmerge).
  destruct (merge_content t2 om _) as [content2|]; [|reflexivity].
  cbn [Py.setitem bind]. now rewrite !dict_set_idem.
Qed.

(** X29.  A second rename replaces the title of the first: without an
    enqueue message, renaming a record that was renamed to [t1] gives the
    record that renaming the original record gives, for every new title,
    when [t1] is not empty and has no line feed. *)
Theorem rename_replaces_previous_title (t1 t2 : string) (entry once : json) :
  t1 <> EmptyString ->
  contains nl t1 = false ->
  rewrite_entry t1 None entry = Return once ->
  rewrite_entry t2 None once = rewrite_entry t2 None entry.
Proof.
  intros Hne Hfree. apply rewrite_entry_again.
  intros content content'. now apply merge_content_again.
Qed.

(** What the search for the text item to replace has found. *)
Lemma find_text_idx_cases (k : nat) (items : list json) (r : Z) :
  find_text_idx (Z.of_nat k) items = Return r ->
  (r = -1
   /\ forall item, In item items ->
                   Py.is_text_item item = true -> ide_text_item item = true)
  \/ exists pre item post old,
       items = pre ++ JObj item :: post
       /\ (forall x, In x pre ->
                     Py.is_text_item x = true -> ide_text_item x = true)
       /\ Py.is_text_item (JObj item) = true
       /\ Py.get (JObj item) "text" (JStr EmptyString) = Return (JStr old)
       /\ startswith "<ide_" (strip old) = false.
Proof.
  revert k. induction items as [|x items IH]; intros k; cbn [find_text_idx].
  - intros [= <-]. left. split; [reflexivity | intros ? []].
  - replace (Z.of_nat k + 1) with (Z.of_nat (S k)) by lia.
    assert (Hcons : forall (ide : Py.is_text_item x = true ->
                                  ide_text_item x = true),
               find_text_idx (Z.of_nat (S k)) items = Return r ->
               (r = -1
                /\ forall item, In item (x :: items) ->
                      Py.is_text_item item = true ->
                      ide_text_item item = true)
               \/ exists pre item post old,
                    x :: items = pre ++ JObj item :: post
                    /\ (forall y, In y pre ->
                           Py.is_text_item y = true ->
                           ide_text_item y = true)
                    /\ Py.is_text_item (JObj item) = true
                    /\ Py.get (JObj item) "text" (JStr EmptyString)
                       = Return (JStr old)
                    /\ startswith "<ide_" (strip old) = false).
    { intros Hx Hrest.
      destruct (IH (S k) Hrest)
        as [[-> Hall] | (pre & item & post & old & -> & Hpre & Hrem)].
      - left. split; [reflexivity |].
        intros y [<- | Hy]; [exact Hx | now apply Hall].
      - right. exists (x :: pre), item, post, old.
        split; [reflexivity |]. split; [|exact Hrem].
        intros y [<- | Hy]; [exact Hx | now apply Hpre]. }
    destruct (Py.is_text_item x) eqn:Htext.
    + destruct x as [| | | | |members]; try discriminate Htext.
      destruct (Py.get (JObj members) "text" (JStr EmptyString))
        as [raw|] eqn:Hraw; [|discriminate].
      cbn [bind]. destruct raw as [| | |old| |]; try discriminate.
      cbn [Py.str_receiver bind].
      destruct (startswith "<ide_" (strip old)) eqn:Hstart.
      * apply Hcons. intros _. unfold ide_text_item.
        now rewrite Htext, Hraw.
      * intros [= <-]. right. exists [], members, items, old.
        split; [reflexivity |]. split; [intros ? [] |]. now repeat split.
    + apply Hcons. discriminate.
Qed.

Lemma merge_enqueue_again (t1 t2 original : string) (content once : json) :
  startswith "<ide_" (strip (titled t1 original)) = false ->
  merge_content t1 (Some original) content = Return once ->
  merge_content t2 (Some original) once
  = merge_content t2 (Some original) content.
Proof.
  intros Hplain Hrun.
  destruct content as [| | |s|items|members];
    try (unfold merge_content in Hrun; cbn [Py.iter bind] in Hrun;
         discriminate Hrun).
  - exfalso. revert Hrun. unfold merge_content. cbn [Py.iter bind].
    destruct (find_text_idx 0 (Py.chars s)) as [r|] eqn:Hidx;
      [|discriminate].
    cbn [bind].
    destruct (find_text_idx_cases 0 _ r Hidx)
      as [[-> _] | (pre & item & post & old & Hsplit & _ & Htext & _)].
    + replace (-1 >=? 0) with false by reflexivity.
      destruct (find_insert_pos 0 0 (Py.chars s)); discriminate.
    + assert (Hin : In (JObj item) (Py.chars s)).
      { rewrite Hsplit. apply in_or_app. right. now left. }
      now rewrite (chars_not_text s _ Hin) in Htext.
  - assert (Hcases :
      (forall item, In item items ->
         Py.is_text_item item = true -> ide_text_item item = true)
      \/ exists pre item post old,
           items = pre ++ JObj item :: post
           /\ (forall x, In x pre ->
                  Py.is_text_item x = true -> ide_text_item x = true)
           /\ Py.is_text_item (JObj item) = true
           /\ Py.get (JObj item) "text" (JStr EmptyString)
              = Return (JStr old)
           /\ startswith "<ide_" (strip old) = false).
    { unfold merge_content in Hrun. cbn [Py.iter bind] in Hrun.
      destruct (find_text_idx 0 items) as [r|] eqn:Hidx;
        [|discriminate Hrun].
      destruct (find_text_idx_cases 0 _ r Hidx) as [[_ Hall] | Hat];
        [now left | now right]. }
    destruct Hcases
      as [Hall | (pre & item & post & old & -> & Hpre & Htext & Hold & Hno)].
    + rewrite merge_enqueue_spec in Hrun by exact Hall.
      cbn zeta in Hrun. injection Hrun as <-.
      rewrite (merge_enqueue_spec t2 original items Hall). cbn zeta.
      set (p := match last_ide items with
                | Some j => S j
                | None => 0%nat
                end).
      unfold new_text_item at 1.
      rewrite (merge_enqueue_at t2 original (titled t1 original)
                 (firstn p items) (skipn p items)).
      * reflexivity.
      * intros x Hx. apply Hall. rewrite <- (firstn_skipn p items).
        apply in_or_app. now left.
      * reflexivity.
      * reflexivity.
      * exact Hplain.
    + rewrite (merge_enqueue_at t1 original old pre post item Hpre Htext Hold
                 Hno) in Hrun.
      injection Hrun as <-.
      rewrite (merge_enqueue_at t2 original old pre post item Hpre Htext Hold
                 Hno).
      rewrite (merge_enqueue_at t2 original (titled t1 original) pre post).
      * now rewrite dict_set_idem.
      * exact Hpre.
      * now rewrite is_text_item_set_text.
      * cbn [Py.get]. now rewrite dict_get_set_eq.
      * exact Hplain.
  - exfalso. revert Hrun. unfold merge_content. cbn [Py.iter bind].
    destruct (find_text_idx 0 _) as [r|] eqn:Hidx; [|discriminate].
    cbn [bind].
    destruct (find_text_idx_cases 0 _ r Hidx)
      as [[-> _] | (pre & item & post & old & Hsplit & _)].
    + replace (-1 >=? 0) with false by reflexivity.
      destruct (find_insert_pos 0 0 _); discriminate.
    + assert (Hin : In (JObj item)
                      (map (fun kv : string * json => JStr (fst kv)) members)).
      { rewrite Hsplit. apply in_or_app. right. now left. }
      apply in_map_iff in Hin as (kv & Heq & _). discriminate.
Qed.

(** X30.  With an enqueue message too a second rename replaces the title
    of the first: renaming a record that was renamed to [t1] gives the
    record that renaming the original record gives, for every new title,
    when the text written by the first rename does not start with an IDE
    tag; with the same title the record stays as it is. *)
Theorem enqueue_rename_replaces_title (t1 t2 original : string)
  (entry once : json) :
  startswith "<ide_" (strip (titled t1 original)) = false ->
  rewrite_entry t1 (Some original) entry = Return once ->
  rewrite_entry t2 (Some original) once
  = rewrite_entry t2 (Some original) entry
  /\ rewrite_entry t1 (Some original) once = Return once.
Proof.
  intros Hplain Hrun.
  assert (Hagain : forall t2,
            rewrite_entry t2 (Some original) once
            = rewrite_entry t2 (Some original) entry).
  { intros t. apply (rewrite_entry_again (Some original) t1 t);
      [|exact Hrun].
    intros content content'. now apply merge_enqueue_again. }
  split; [apply Hagain |]. now rewrite Hagain.
Qed.

Lemma rename_replaces_previous_title_witness :
  rewrite_entry "Second" None (Ex.hello_with (titled "First" "hello"))
  = rewrite_entry "Second" None Ex.hello_entry.
Proof.
  apply (rename_replaces_previous_title "First" "Second"
           Ex.hello_entry (Ex.hello_with (titled "First" "hello"))).
  - discriminate.
  - vm_compute. reflexivity.
  - vm_compute. reflexivity.
Defined.

Lemma enqueue_rename_replaces_title_witness :
  rewrite_entry "Second" (Some "real message") RenamedMore.ide_renamed
  = rewrite_entry "Second" (Some "real message") RenamedMore.ide_entry
  /\ rewrite_entry "First" (Some "real message") RenamedMore.ide_renamed
     = Return RenamedMore.ide_renamed.
Proof.
  apply (enqueue_rename_replaces_title "First" "Second" "real message"
           RenamedMore.ide_entry RenamedMore.ide_renamed).
  - vm_compute. reflexivity.
  - vm_compute. reflexivity.
Defined.

(* ===================================================================== *)
(** * Bytes and line ends *)
(* ===================================================================== *)

(** The size of a file is its number of bytes, not of characters. *)
Lemma size_counts_bytes :
  String.length (f_chars OnDisk.accent_file) = 2%nat
  /\ st_size OnDisk.accent_file = 3.
Proof. split; reflexivity. Qed.


(* ===================================================================== *)
(** * Session Rewriter: the captured message reaches the file *)
(* ===================================================================== *)

Section EnqueueRename.

Context `{Codec}.








End EnqueueRename.



(* ===================================================================== *)
(** * The prefix pattern *)
(* ===================================================================== *)





(* ===================================================================== *)
(** * Session Rewriter: renaming the renamed file *)
(* ===================================================================== *)

Section RenameTwice.

Context `{Codec}.






End RenameTwice.

Section RenamePrefix.

Context `{Codec}.



End RenamePrefix.


(** The pattern does not tell a title from a first paragraph: the first
    rename of a record whose text is [Intro], a blank line and [Details]
    takes [Intro] off. *)
Lemma rename_drops_first_paragraph :
  rewrite_entry "Fix login" None (JObj Twice.intro_fields)
  = Return (Ex.hello_with ("Fix login" ++ nlnl ++ "Details"))
  /\ strip_title_prefix ("Intro" ++ nlnl ++ "Details") = "Details".
Proof. split; reflexivity. Qed.

(* ===================================================================== *)
(** * Status Inspector: a read that fails *)
(* ===================================================================== *)

Section StatusFailure.

Context `{Codec}.





End StatusFailure.


